(** * Verification of the Gemini AI service (src/lib/gemini-ai.ts)

    A shallow embedding of the request orchestrator, the response
    recovery pipeline, the mock synthesis engine and the four facade
    operations of [GeminiAiService], followed by the theorems that settle
    the properties stated about them.

    Modelling conventions:
    - a JavaScript string is the list of its UTF-16 code units;
    - [JSON.parse] is a recursive-descent parser over code units; a JSON
      number is the IEEE 754 binary64 value nearest to its literal, kept
      in the decimal form of [Number::toString];
    - the [i] flag of regular expressions compares the ASCII letters
      without case, which is exact for the ASCII patterns of this file: the
      canonicalisation of ECMA-262 never maps a code unit >= 128 to ASCII;
      [String.prototype.toLowerCase] does the same on a text that is all
      ASCII and is left to the engine, a field of [World], on any other;
    - the network, the clock and [Math.random] are an explicit [World]
      oracle; the service instance is an explicit state threaded through
      every method, together with the clock and the log of issued fetches;
    - the methods are [async]: a computation of type [M] is a call run to
      its end with no other call between its beginning and its end; calls
      that overlap are the runs of the part on asynchronous execution,
      where each method is given again with its points of suspension and
      shown to be, left alone, its computation. *)

From Stdlib Require Import List ZArith NArith String Ascii QArith Bool Lia.
Import ListNotations.

Set Implicit Arguments.
Local Open Scope string_scope.
Local Open Scope list_scope.

(* ================================================================= *)
(** ** JavaScript strings *)

Module JsString.

Definition code_unit := N.
Definition jsstring := list code_unit.

(** Literals are written as UTF-8 Rocq strings and decoded to UTF-16. *)
Definition utf16_of_code_point (cp : N) : list code_unit :=
  if (cp <? 65536)%N then [cp]
  else let c := (cp - 65536)%N in
       [(55296 + N.shiftr c 10)%N; (56320 + N.land c 1023)%N].

Definition cont (b : N) : N := N.land b 63.

Fixpoint utf16_of_utf8 (bs : list N) : list code_unit :=
  match bs with
  | [] => []
  | b :: t =>
      if (b <? 128)%N then b :: utf16_of_utf8 t
      else if (b <? 224)%N then
        match t with
        | b1 :: t1 =>
            utf16_of_code_point (N.lor (N.shiftl (N.land b 31) 6) (cont b1))
              ++ utf16_of_utf8 t1
        | _ => []
        end
      else if (b <? 240)%N then
        match t with
        | b1 :: b2 :: t2 =>
            utf16_of_code_point
              (N.lor (N.shiftl (N.land b 15) 12)
                 (N.lor (N.shiftl (cont b1) 6) (cont b2)))
              ++ utf16_of_utf8 t2
        | _ => []
        end
      else
        match t with
        | b1 :: b2 :: b3 :: t3 =>
            utf16_of_code_point
              (N.lor (N.shiftl (N.land b 7) 18)
                 (N.lor (N.shiftl (cont b1) 12)
                    (N.lor (N.shiftl (cont b2) 6) (cont b3))))
              ++ utf16_of_utf8 t3
        | _ => []
        end
  end.

Definition js (s : string) : jsstring :=
  utf16_of_utf8 (map N_of_ascii (list_ascii_of_string s)).

(** A literal in which the apostrophe stands for the double quote. *)
Definition js_q (s : string) : jsstring :=
  map (fun c => if (c =? 39)%N then 34%N else c) (js s).

Definition unit_eqb (a b : code_unit) : bool := N.eqb a b.

Fixpoint str_eqb (a b : jsstring) : bool :=
  match a, b with
  | [], [] => true
  | x :: a', y :: b' => unit_eqb x y && str_eqb a' b'
  | _, _ => false
  end.

(** [s.startsWith(p)] *)
Fixpoint startsWith (p s : jsstring) : bool :=
  match p, s with
  | [], _ => true
  | x :: p', y :: s' => unit_eqb x y && startsWith p' s'
  | _ :: _, [] => false
  end.

(** [s.endsWith(p)] *)
Definition endsWith (p s : jsstring) : bool := startsWith (rev p) (rev s).

(** [s.includes(p)] *)
Fixpoint includes (p s : jsstring) : bool :=
  startsWith p s ||
  match s with
  | [] => false
  | _ :: s' => includes p s'
  end.

(** [s.substring(n)] and [s.substring(0, n)] *)
Definition substring_from (n : nat) (s : jsstring) : jsstring := skipn n s.
Definition substring_to (n : nat) (s : jsstring) : jsstring := firstn n s.

(** White space and line terminators of ECMA-262: what [trim] strips and
    what [\s] matches. *)
Definition isWhiteSpace (c : code_unit) : bool :=
  ((9 <=? c) && (c <=? 13) || (c =? 32) || (c =? 160) || (c =? 5760)
   || (8192 <=? c) && (c <=? 8202) || (c =? 8232) || (c =? 8233)
   || (c =? 8239) || (c =? 8287) || (c =? 12288) || (c =? 65279))%N.

Fixpoint trimStart (s : jsstring) : jsstring :=
  match s with
  | c :: s' => if isWhiteSpace c then trimStart s' else s
  | [] => []
  end.

Definition trimEnd (s : jsstring) : jsstring := rev (trimStart (rev s)).

Definition trim (s : jsstring) : jsstring := trimEnd (trimStart s).

(** ASCII case mapping. *)
Definition lowerUnit (c : code_unit) : code_unit :=
  if ((65 <=? c) && (c <=? 90))%N then (c + 32)%N else c.

Definition lowerAscii (s : jsstring) : jsstring := map lowerUnit s.

Definition isAscii (s : jsstring) : bool := forallb (fun c => (c <? 128)%N) s.

(** [/a|b|c/i.test(s)]: some alternative occurs in [s], letters compared
    without case. *)
Definition includes_i (p s : jsstring) : bool :=
  includes (lowerAscii p) (lowerAscii s).

Definition regex_test_i (alternatives : list string) (s : jsstring) : bool :=
  existsb (fun p => includes_i (js p) s) alternatives.

(** [String(n)] for an integer. *)
Fixpoint digits_of_pos (fuel : nat) (n : N) (acc : jsstring) : jsstring :=
  match fuel with
  | O => acc
  | S fuel' =>
      let acc' := (48 + n mod 10)%N :: acc in
      if (n <? 10)%N then acc' else digits_of_pos fuel' (n / 10)%N acc'
  end.

Definition string_of_N (n : N) : jsstring :=
  digits_of_pos (S (N.to_nat (N.log2 n))) n [].

Definition string_of_Z (z : Z) : jsstring :=
  match z with
  | Zneg p => 45%N :: string_of_N (Npos p)
  | _ => string_of_N (Z.to_N z)
  end.

(** [s.split(sep)] for a separator that is not empty. *)
Fixpoint split_go (sep : jsstring) (skip : nat) (cur : jsstring)
  (s : jsstring) : list jsstring :=
  match s with
  | [] => [rev cur]
  | c :: s' =>
      match skip with
      | S k => split_go sep k cur s'
      | O =>
          if startsWith sep s
          then rev cur :: split_go sep (List.length sep - 1) [] s'
          else split_go sep O (c :: cur) s'
      end
  end.

Definition split (sep s : jsstring) : list jsstring := split_go sep O [] s.

(** [x || d] where [x] is a string or [undefined]. *)
Definition or_default (x : option jsstring) (d : jsstring) : jsstring :=
  match x with
  | Some (c :: s) => c :: s
  | _ => d
  end.

(** The leftmost position of [s] at which [f] succeeds: how an
    unanchored regular expression is searched. *)
Fixpoint leftmost {A} (f : jsstring -> option A) (s : jsstring) : option A :=
  match f s with
  | Some x => Some x
  | None =>
      match s with
      | [] => None
      | _ :: s' => leftmost f s'
      end
  end.

Definition quote : code_unit := 34%N.

(** One or more characters other than a double quote at the head of
    [s] (the class of the capture groups): the longest such run, and what
    follows it. *)
Fixpoint unquoted_run (s : jsstring) : jsstring * jsstring :=
  match s with
  | [] => ([], [])
  | c :: s' =>
      if unit_eqb c quote then ([], s)
      else let '(run, rest) := unquoted_run s' in (c :: run, rest)
  end.

(** A double quote, a run without double quotes that is not empty, a
    double quote, anchored at the head of [s]; the run is the capture. *)
Definition match_quoted (s : jsstring) : option jsstring :=
  match s with
  | c :: s' =>
      if unit_eqb c quote then
        match unquoted_run s' with
        | ((_ :: _) as run, d :: _) => if unit_eqb d quote then Some run else None
        | _ => None
        end
      else None
  | [] => None
  end.

(** The literal [lit], white space, then a quoted capture as above,
    anchored at the head of [s]; [lit] is compared with or without case. *)
Definition match_labelled (ignoreCase : bool) (lit : jsstring) (s : jsstring)
  : option jsstring :=
  if (if ignoreCase then startsWith (lowerAscii lit) (lowerAscii s)
      else startsWith lit s)
  then match_quoted (trimStart (skipn (List.length lit) s))
  else None.

Fixpoint first_some {A B} (f : A -> option B) (l : list A) : option B :=
  match l with
  | [] => None
  | a :: l' => match f a with Some b => Some b | None => first_some f l' end
  end.

Definition includes_any (alternatives : list string) (s : jsstring) : bool :=
  existsb (fun p => includes (js p) s) alternatives.

End JsString.
Import JsString.

(* ================================================================= *)
(** ** Data model *)

Inductive MarketTrend := increasing | decreasing | stable.

Module ProductCategory.
Record t := mk {
  category : jsstring;
  confidence : Q;
  subcategory : option jsstring
}.
End ProductCategory.

Module MarketAnalysis.
Record t := mk {
  priceRange : jsstring;
  marketTrend : MarketTrend;
  bestTimeToBuy : jsstring;
  pricePrediction : jsstring;
  marketInsights : list jsstring
}.
End MarketAnalysis.

Module ProductRecommendation.
Record t := mk {
  productName : jsstring;
  reason : jsstring;
  category : jsstring;
  estimatedPrice : jsstring;
  confidence : Q
}.
End ProductRecommendation.

Module SmartSearchResult.
Record t := mk {
  enhancedQuery : jsstring;
  categories : list ProductCategory.t;
  marketAnalysis : MarketAnalysis.t;
  recommendations : list ProductRecommendation.t;
  searchTips : list jsstring
}.
End SmartSearchResult.

(* ================================================================= *)
(** ** Mock synthesis: category classification *)

Definition cat (c : string) (conf : Q) (sub : string) : ProductCategory.t :=
  ProductCategory.mk (js c) conf (Some (js sub)).
Arguments cat c%_string conf%_Q sub%_string.

Definition generateDynamicCategories (query : jsstring) : list ProductCategory.t :=
  if regex_test_i ["phone"; "smartphone"; "mobile"] query then
    [cat "Electronics" 0.95 "Smartphones";
     cat "Mobile Devices" 0.88 "Communication"]
  else if regex_test_i ["laptop"; "computer"; "pc"] query then
    [cat "Electronics" 0.92 "Computers";
     cat "Technology" 0.85 "Computing"]
  else if regex_test_i ["tv"; "television"; "monitor"] query then
    [cat "Electronics" 0.90 "Display";
     cat "Home Entertainment" 0.82 "Audio Visual"]
  else if regex_test_i ["headphone"; "earphone"; "speaker"; "audio"] query then
    [cat "Electronics" 0.88 "Audio";
     cat "Accessories" 0.75 "Audio Accessories"]
  else if regex_test_i ["watch"; "smartwatch"] query then
    [cat "Electronics" 0.85 "Wearables";
     cat "Fashion" 0.70 "Accessories"]
  else if regex_test_i ["shirt"; "jeans"; "dress"; "clothing"; "fashion"] query then
    [cat "Fashion" 0.90 "Apparel";
     cat "Clothing" 0.85 "Casual Wear"]
  else if regex_test_i ["shoes"; "sneaker"; "footwear"] query then
    [cat "Fashion" 0.88 "Footwear";
     cat "Sports" 0.72 "Athletic Wear"]
  else if regex_test_i ["book"; "novel"; "guide"] query then
    [cat "Books" 0.92 "Literature";
     cat "Education" 0.78 "Learning Materials"]
  else if regex_test_i ["furniture"; "home"; "decor"] query then
    [cat "Home & Garden" 0.87 "Furniture";
     cat "Lifestyle" 0.75 "Home Improvement"]
  else
    [cat "General" 0.80 "Consumer Goods";
     cat "Retail" 0.70 "Miscellaneous"].

Definition generateMockCategories : list ProductCategory.t :=
  generateDynamicCategories (js "general product").

(* ================================================================= *)
(** ** JSON values and [JSON.parse] *)

Module Json.

(** A number [JNumber m e] stands for the binary64 value nearest to
    [m * 10^e]; the parser gives every number in the one form [canonical]
    below, with the fewest digits that identify the value, so that equal
    values are equal terms: zero is [JNumber 0 0] and an infinity is
    [JNumber 1 309] or [JNumber (-1) 309]. Members of an object are kept
    in the order of the text; a lookup takes the last one of a name, as
    the parser of the engine overwrites earlier ones. *)
#[local] Unset Elimination Schemes.
Inductive json :=
| JNull
| JBool (b : bool)
| JNumber (mantissa exponent : Z)
| JString (s : jsstring)
| JArray (elements : list json)
| JObject (members : list (jsstring * json)).
#[local] Set Elimination Schemes.

Definition is_ws (c : code_unit) : bool :=
  ((c =? 32) || (c =? 9) || (c =? 10) || (c =? 13))%N.

Fixpoint skip_ws (s : jsstring) : jsstring :=
  match s with
  | c :: s' => if is_ws c then skip_ws s' else s
  | [] => []
  end.

Definition is_digit (c : code_unit) : bool := ((48 <=? c) && (c <=? 57))%N.

Definition hex_digit (c : code_unit) : option N :=
  if ((48 <=? c) && (c <=? 57))%N then Some (c - 48)%N
  else if ((65 <=? c) && (c <=? 70))%N then Some (c - 55)%N
  else if ((97 <=? c) && (c <=? 102))%N then Some (c - 87)%N
  else None.

Definition hex4 (a b c d : code_unit) : option code_unit :=
  match hex_digit a, hex_digit b, hex_digit c, hex_digit d with
  | Some x, Some y, Some z, Some t => Some (((x * 16 + y) * 16 + z) * 16 + t)%N
  | _, _, _, _ => None
  end.

(** The code unit an escape letter stands for. *)
Definition escape (e : code_unit) : option code_unit :=
  if (e =? 34)%N then Some 34%N            (* quote *)
  else if (e =? 92)%N then Some 92%N       (* backslash *)
  else if (e =? 47)%N then Some 47%N       (* slash *)
  else if (e =? 98)%N then Some 8%N        (* b *)
  else if (e =? 102)%N then Some 12%N      (* f *)
  else if (e =? 110)%N then Some 10%N      (* n *)
  else if (e =? 114)%N then Some 13%N      (* r *)
  else if (e =? 116)%N then Some 9%N       (* t *)
  else None.

(** The characters of a string after its opening quote, up to and
    including the closing one. *)
Fixpoint parse_string_body (s acc : jsstring) : option (jsstring * jsstring) :=
  match s with
  | [] => None
  | c :: s' =>
      if (c =? 34)%N then Some (rev acc, s')
      else if (c =? 92)%N then
        match s' with
        | [] => None
        | e :: s'' =>
            if (e =? 117)%N then
              match s'' with
              | h1 :: h2 :: h3 :: h4 :: s4 =>
                  match hex4 h1 h2 h3 h4 with
                  | Some u => parse_string_body s4 (u :: acc)
                  | None => None
                  end
              | _ => None
              end
            else
              match escape e with
              | Some u => parse_string_body s'' (u :: acc)
              | None => None
              end
        end
      else if (c <? 32)%N then None
      else parse_string_body s' (c :: acc)
  end.

Fixpoint take_digits (s : jsstring) : list Z * jsstring :=
  match s with
  | c :: s' =>
      if is_digit c then
        let '(ds, rest) := take_digits s' in (Z.of_N (c - 48) :: ds, rest)
      else ([], s)
  | [] => ([], [])
  end.

Definition Z_of_digits (ds : list Z) : Z :=
  fold_left (fun acc d => acc * 10 + d)%Z ds 0%Z.

Fixpoint normalize (fuel : nat) (m e : Z) : Z * Z :=
  match fuel with
  | O => (m, e)
  | S fuel' =>
      if (m =? 0)%Z then (0, 0)%Z
      else if (m mod 10 =? 0)%Z then normalize fuel' (m / 10)%Z (e + 1)%Z
      else (m, e)
  end.

(** *** Numbers as binary64 values *)

(** [num / den] rounded to the nearest integer, a tie to the even one. *)
Definition round_half_even (num den : Z) : Z :=
  let q := (num / den)%Z in
  let r := (num mod den)%Z in
  if (2 * r <? den)%Z then q
  else if (den <? 2 * r)%Z then (q + 1)%Z
  else if Z.even q then q else (q + 1)%Z.

(** [a / b] divided by [2^k], and by [10^x], as fractions. *)
Definition over_pow2 (a b k : Z) : Z * Z :=
  if (0 <=? k)%Z then (a, b * 2 ^ k)%Z else (a * 2 ^ (- k), b)%Z.

Definition over_pow10 (a b x : Z) : Z * Z :=
  if (0 <=? x)%Z then (a, b * 10 ^ x)%Z else (a * 10 ^ (- x), b)%Z.

(** The integer part of the binary logarithm of [a / b], both positive. *)
Definition floor_log2 (a b : Z) : Z :=
  let E := (Z.log2 a - Z.log2 b)%Z in
  let '(n, d) := over_pow2 a b E in
  if (d <=? n)%Z then E else (E - 1)%Z.

(** The binary64 value nearest to [a / b], as [(M, k)] for [M * 2^k]: [M]
    has 53 bits in the normal range and is a multiple of [2^-1074] below
    it. *)
Definition to_double (a b : Z) : Z * Z :=
  let k := Z.max (floor_log2 a b - 52) (-1074) in
  let '(n, d) := over_pow2 a b k in
  (round_half_even n d, k).

(** The rounding went past the largest finite value. *)
Definition overflows (d : Z * Z) : bool := (1024 <=? Z.log2 (fst d) + snd d)%Z.

Definition same_double (d1 d2 : Z * Z) : bool :=
  let k := Z.min (snd d1) (snd d2) in
  (fst d1 * 2 ^ (snd d1 - k) =? fst d2 * 2 ^ (snd d2 - k))%Z.

(** [n] with [10^(n-1) <= a / b < 10^n]: an estimate from the binary
    logarithms, then corrected. *)
Fixpoint decade_up (fuel : nat) (a b n : Z) : Z :=
  match fuel with
  | O => n
  | S fuel' =>
      let '(p, q) := over_pow10 a b n in
      if (q <=? p)%Z then decade_up fuel' a b (n + 1)%Z else n
  end.

Fixpoint decade_down (fuel : nat) (a b n : Z) : Z :=
  match fuel with
  | O => n
  | S fuel' =>
      let '(p, q) := over_pow10 a b (n - 1)%Z in
      if (p <? q)%Z then decade_down fuel' a b (n - 1)%Z else n
  end.

Definition decade (a b : Z) : Z :=
  let n0 := ((Z.log2 a - Z.log2 b) * 30103 / 100000)%Z in
  decade_up 8 a b (decade_down 8 a b n0).

(** Among the multiples [s * 10^x] of [10^x] that the rounding takes to
    the value [d] of [a / b], the one nearest to [a / b], the even one of
    two that are equally near. *)
Definition candidate (a b : Z) (d : Z * Z) (x : Z) : option Z :=
  let '(p, q) := over_pow10 a b x in
  let lo := (p / q)%Z in
  let hi := (lo + 1)%Z in
  let back s :=
    same_double (let '(n, m) := over_pow10 s 1 (- x)%Z in to_double n m) d in
  match back lo, back hi with
  | false, false => None
  | true, false => Some lo
  | false, true => Some hi
  | true, true =>
      let r := (p mod q)%Z in
      if (2 * r <? q)%Z then Some lo
      else if (q <? 2 * r)%Z then Some hi
      else if Z.even lo then Some lo else Some hi
  end.

(** The digits of [Number::toString]: as few as identify the value, found
    by trying one digit, then two, and so on; seventeen always do. *)
Fixpoint shortest (fuel : nat) (a b : Z) (d : Z * Z) (n digits : Z) : Z * Z :=
  match fuel with
  | O =>
      let '(p, q) := over_pow10 a b (n - digits)%Z in ((p / q)%Z, (n - digits)%Z)
  | S fuel' =>
      match candidate a b d (n - digits)%Z with
      | Some s => (s, (n - digits)%Z)
      | None => shortest fuel' a b d n (digits + 1)%Z
      end
  end.

(** The binary64 value of [m * 10^e], written with the fewest digits. *)
Definition canonical (m e : Z) : Z * Z :=
  if (m =? 0)%Z then (0, 0)%Z
  else
    let '(a, b) := over_pow10 (Z.abs m) 1 (- e)%Z in
    let d := to_double a b in
    if (fst d =? 0)%Z then (0, 0)%Z
    else if overflows d then (Z.sgn m, 309%Z)
    else
      let '(da, db) := over_pow2 (fst d) 1 (- snd d)%Z in
      let '(s, x) := shortest 17 da db d (decade da db) 1 in
      let '(s', x') := normalize 20 s x in
      ((Z.sgn m * s')%Z, x').

Definition number (negative : bool) (int frac : list Z) (exp : Z) : json :=
  let ds := int ++ frac in
  let m := Z_of_digits ds in
  let '(m', e') :=
    canonical (if negative then (- m)%Z else m)
      (exp - Z.of_nat (List.length frac))%Z in
  JNumber m' e'.

(** An optional minus sign; a single zero, or digits not starting with
    zero; optionally a point and digits; optionally an exponent. *)
Definition parse_int_part (s : jsstring) : option (list Z * jsstring) :=
  match s with
  | c :: s' =>
      if (c =? 48)%N then Some ([0%Z], s')
      else if is_digit c then Some (take_digits s)
      else None
  | [] => None
  end.

Definition parse_frac_part (s : jsstring) : option (list Z * jsstring) :=
  match s with
  | c :: s' =>
      if (c =? 46)%N then
        match take_digits s' with
        | ([], _) => None
        | (ds, rest) => Some (ds, rest)
        end
      else Some ([], s)
  | [] => Some ([], [])
  end.

Definition parse_exp_digits (negative : bool) (s : jsstring)
  : option (Z * jsstring) :=
  match take_digits s with
  | ([], _) => None
  | (ds, rest) =>
      Some (if negative then (- Z_of_digits ds)%Z else Z_of_digits ds, rest)
  end.

Definition parse_exp_part (s : jsstring) : option (Z * jsstring) :=
  match s with
  | c :: s' =>
      if ((c =? 101) || (c =? 69))%N then
        match s' with
        | d :: s'' =>
            if (d =? 43)%N then parse_exp_digits false s''
            else if (d =? 45)%N then parse_exp_digits true s''
            else parse_exp_digits false s'
        | [] => None
        end
      else Some (0%Z, s)
  | [] => Some (0%Z, [])
  end.

Definition parse_number (s : jsstring) : option (json * jsstring) :=
  let '(negative, s1) :=
    match s with
    | c :: s' => if (c =? 45)%N then (true, s') else (false, s)
    | [] => (false, [])
    end in
  match parse_int_part s1 with
  | None => None
  | Some (int, s2) =>
      match parse_frac_part s2 with
      | None => None
      | Some (frac, s3) =>
          match parse_exp_part s3 with
          | None => None
          | Some (exp, s4) => Some (number negative int frac exp, s4)
          end
      end
  end.

Definition parse_literal (s : jsstring) : option (json * jsstring) :=
  if startsWith (js "true") s then Some (JBool true, skipn 4 s)
  else if startsWith (js "false") s then Some (JBool false, skipn 5 s)
  else if startsWith (js "null") s then Some (JNull, skipn 4 s)
  else parse_number s.

(** Recursive descent; every call takes one unit of [fuel]. [parse_value]
    skips the white space before the value and leaves what follows it. *)
Fixpoint parse_value (fuel : nat) (s : jsstring) : option (json * jsstring) :=
  match fuel with
  | O => None
  | S fuel' =>
      match skip_ws s with
      | [] => None
      | c :: r =>
          if (c =? 123)%N then
            match skip_ws r with
            | d :: r' =>
                if (d =? 125)%N then Some (JObject [], r')
                else parse_members fuel' (d :: r') []
            | [] => None
            end
          else if (c =? 91)%N then
            match skip_ws r with
            | d :: r' =>
                if (d =? 93)%N then Some (JArray [], r')
                else parse_elements fuel' (d :: r') []
            | [] => None
            end
          else if (c =? 34)%N then
            match parse_string_body r [] with
            | Some (str, r') => Some (JString str, r')
            | None => None
            end
          else parse_literal (c :: r)
      end
  end

with parse_elements (fuel : nat) (s : jsstring) (acc : list json)
  : option (json * jsstring) :=
  match fuel with
  | O => None
  | S fuel' =>
      match parse_value fuel' s with
      | None => None
      | Some (v, r) =>
          match skip_ws r with
          | c :: r' =>
              if (c =? 44)%N then parse_elements fuel' r' (v :: acc)
              else if (c =? 93)%N then Some (JArray (rev (v :: acc)), r')
              else None
          | [] => None
          end
      end
  end

with parse_members (fuel : nat) (s : jsstring) (acc : list (jsstring * json))
  : option (json * jsstring) :=
  match fuel with
  | O => None
  | S fuel' =>
      match skip_ws s with
      | q :: r0 =>
          if (q =? 34)%N then
            match parse_string_body r0 [] with
            | None => None
            | Some (key, r1) =>
                match skip_ws r1 with
                | colon :: r2 =>
                    if (colon =? 58)%N then
                      match parse_value fuel' r2 with
                      | None => None
                      | Some (v, r3) =>
                          match skip_ws r3 with
                          | c :: r4 =>
                              if (c =? 44)%N
                              then parse_members fuel' r4 ((key, v) :: acc)
                              else if (c =? 125)%N
                              then Some (JObject (rev ((key, v) :: acc)), r4)
                              else None
                          | [] => None
                          end
                      end
                    else None
                | [] => None
                end
            end
          else None
      | [] => None
      end
  end.

(** [JSON.parse(text)]: [None] stands for the [SyntaxError]. *)
Definition JSON_parse (text : jsstring) : option json :=
  match parse_value (2 * List.length text + 2) text with
  | Some (v, rest) =>
      match skip_ws rest with
      | [] => Some v
      | _ :: _ => None
      end
  | None => None
  end.

(** [Number::toString] of the binary64 value of [m * 10^e]: the digits
    in positional notation while the decimal point lies within 21 places
    to the right and 6 to the left of them, in exponent notation beyond.
    It is what [String(v)] gives, which [JSON.parse] first applies to an
    argument that is not a string. *)
Definition string_of_number (m e : Z) : jsstring :=
  let '(s, x) := canonical m e in
  if (s =? 0)%Z then js "0"
  else
    let sign := if (s <? 0)%Z then js "-" else [] in
    if (x =? 309)%Z then sign ++ js "Infinity"
    else
      let digits := string_of_N (Z.to_N (Z.abs s)) in
      let k := Z.of_nat (List.length digits) in
      let n := (x + k)%Z in
      sign ++
      (if ((k <=? n) && (n <=? 21))%Z
       then digits ++ repeat 48%N (Z.to_nat (n - k))
       else if ((0 <? n) && (n <=? 21))%Z
       then firstn (Z.to_nat n) digits ++ js "." ++ skipn (Z.to_nat n) digits
       else if ((-6 <? n) && (n <=? 0))%Z
       then js "0." ++ repeat 48%N (Z.to_nat (- n)) ++ digits
       else
         (match digits with
          | [d] => [d]
          | d :: rest => d :: js "." ++ rest
          | [] => []
          end)
         ++ js "e" ++ (if (n - 1 <? 0)%Z then js "-" else js "+")
         ++ string_of_N (Z.to_N (Z.abs (n - 1)))).

Fixpoint join (sep : jsstring) (l : list jsstring) : jsstring :=
  match l with
  | [] => []
  | [x] => x
  | x :: l' => x ++ sep ++ join sep l'
  end.

(** [String(v)]; a number is printed by [Number::toString]. *)
Fixpoint ToString (v : json) : jsstring :=
  match v with
  | JNull => js "null"
  | JBool true => js "true"
  | JBool false => js "false"
  | JNumber m e => string_of_number m e
  | JString s => s
  | JArray l =>
      join (js ",")
        (map (fun x => match x with JNull => [] | _ => ToString x end) l)
  | JObject _ => js "[object Object]"
  end.

(** A JavaScript value read out of parsed JSON: a JSON value, or
    [undefined] as [None]. *)
Definition jsval := option json.

(** [ToBoolean(v)]; a number is falsy when its binary64 value is zero,
    as that of a literal below the least subnormal is. *)
Definition truthy (v : jsval) : bool :=
  match v with
  | None => false
  | Some JNull => false
  | Some (JBool b) => b
  | Some (JNumber m e) => negb (fst (canonical m e) =? 0)%Z   (* 0, -0 *)
  | Some (JString s) => match s with [] => false | _ => true end
  | Some (JArray _) => true
  | Some (JObject _) => true
  end.

Fixpoint lookup (key : jsstring) (members : list (jsstring * json)) : jsval :=
  match members with
  | [] => None
  | (k, v) :: rest =>
      match lookup key rest with
      | Some v' => Some v'
      | None => if str_eqb k key then Some v else None
      end
  end.

(** [v.key] for one of the names this file reads ([candidates],
    [content], [parts], [text], [enhancedQuery]), none of which is a
    property of the prototypes: only an object can have it; reading a
    property of [null] or [undefined] is a [TypeError], here [None]. *)
Definition get (v : jsval) (key : jsstring) : option jsval :=
  match v with
  | None => None
  | Some JNull => None
  | Some (JObject members) => Some (lookup key members)
  | Some _ => Some None
  end.

(** [v[0]] *)
Definition get0 (v : jsval) : option jsval :=
  match v with
  | None => None
  | Some JNull => None
  | Some (JObject members) => Some (lookup (js "0") members)
  | Some (JArray l) => Some (nth_error l 0)
  | Some (JString s) =>
      Some (match s with c :: _ => Some (JString [c]) | [] => None end)
  | Some _ => Some None
  end.

End Json.
Import Json.

(* ================================================================= *)
(** ** The environment of the service and its state *)

(** A thrown value: every value thrown in this file is an [Error], a
    [TypeError], a [SyntaxError] or the [DOMException] of an aborted fetch;
    the handlers look at [name] and [message] only. *)
Record Exn := mkExn { name : jsstring; message : jsstring }.

Definition Error (msg : jsstring) : Exn := mkExn (js "Error") msg.
Definition TypeError (msg : jsstring) : Exn := mkExn (js "TypeError") msg.
Definition SyntaxError (msg : jsstring) : Exn := mkExn (js "SyntaxError") msg.
Definition AbortError : Exn :=
  mkExn (js "AbortError") (js "The user aborted a request.").

Record Response := mkResponse {
  status : Z;
  statusText : jsstring;
  body : jsstring
}.

(** [response.ok] *)
Definition ok (r : Response) : bool :=
  ((200 <=? status r) && (status r <=? 299))%Z.

(** What the transport does with one call of [fetch] when it is left alone:
    after [latency] milliseconds it resolves with a response or rejects with
    a [TypeError] (connection refused, reset, ...). *)
Inductive FetchResult :=
| Responds (r : Response)
| Fails (msg : jsstring).

Record FetchOutcome := mkOutcome { latency : N; result : FetchResult }.

Record World := mkWorld {
  PROD : bool;                                 (* import.meta.env.PROD *)
  GEMINI_API_KEY : jsstring;                   (* config.gemini.apiKey *)
  onLine : N -> bool;                          (* navigator.onLine, by time *)
  getMonth : N -> Z;                           (* new Date().getMonth() *)
  getDate : N -> Z;                            (* new Date().getDate() *)
  network : jsstring -> nat -> FetchOutcome;   (* by URL and call number *)
  random : nat -> N;                           (* Math.random, 53 bits *)
  lowerCase : jsstring -> jsstring;            (* toLowerCase beyond ASCII *)
  syntaxErrorMessage : jsstring -> jsstring;   (* engine's wording *)
  typeErrorMessage : jsstring
}.

(** One issued [fetch]: its URL, the prompt of its body and the value of
    [useMockData] at the moment it was issued. *)
Record FetchEvent := mkFetch {
  fetchUrl : jsstring;
  fetchPrompt : jsstring;
  fetchInMockMode : bool
}.

Record State := mkState {
  apiKey : jsstring;
  useMockData : bool;
  clock : N;                      (* milliseconds *)
  fetchLog : list FetchEvent;     (* oldest first *)
  randomCalls : nat
}.

Inductive Result (A : Type) :=
| Ok (a : A)
| Throw (e : Exn).
Arguments Ok {A} a.
Arguments Throw {A} e.

(** Computations: state passing with exceptions. *)
Definition M (A : Type) : Type := State -> Result A * State.

Definition ret {A} (a : A) : M A := fun st => (Ok a, st).

Definition throw {A} (e : Exn) : M A := fun st => (Throw e, st).

Definition bind {A B} (m : M A) (k : A -> M B) : M B :=
  fun st =>
    match m st with
    | (Ok a, st') => k a st'
    | (Throw e, st') => (Throw e, st')
    end.

(** [try { m } catch (e) { handler e }] *)
Definition try_catch {A} (m : M A) (handler : Exn -> M A) : M A :=
  fun st =>
    match m st with
    | (Ok a, st') => (Ok a, st')
    | (Throw e, st') => handler e st'
    end.

Notation "x <- m ;; k" := (bind m (fun x => k))
  (at level 61, m at next level, right associativity).
Notation "m ;;; k" := (bind m (fun _ => k))
  (at level 61, right associativity).

(** The state once a fetch of [url] has been issued and has come to its
    end at time [t]. *)
Definition logged (url prompt : jsstring) (t : N) (st : State) : State :=
  mkState (apiKey st) (useMockData st) t
    (fetchLog st ++ [mkFetch url prompt (useMockData st)]) (randomCalls st).

Definition withMockData (b : bool) (st : State) : State :=
  mkState (apiKey st) b (clock st) (fetchLog st) (randomCalls st).

Definition withClock (t : N) (st : State) : State :=
  mkState (apiKey st) (useMockData st) t (fetchLog st) (randomCalls st).

Definition withRandomDrawn (st : State) : State :=
  mkState (apiKey st) (useMockData st) (clock st) (fetchLog st)
    (S (randomCalls st)).

Definition get_useMockData : M bool := fun st => (Ok (useMockData st), st).

Definition set_useMockData (b : bool) : M unit :=
  fun st => (Ok tt, withMockData b st).

Definition get_clock : M N := fun st => (Ok (clock st), st).

Definition set_clock (t : N) : M unit :=
  fun st => (Ok tt, withClock t st).

(** [await new Promise(resolve => setTimeout(resolve, ms))]: the sleep is
    not tied to any signal and always runs to its end. *)
Definition sleep (ms : N) : M unit :=
  fun st => set_clock (clock st + ms) st.

Section Service.

Variable w : World.

(** [s.toLowerCase()]: the ASCII letters are lowered in a text that is
    all ASCII; the lowering of any other text, with its mappings to more
    than one code unit and its rule for a final sigma, is the engine's. *)
Definition toLowerCase (s : jsstring) : jsstring :=
  if isAscii s then lowerAscii s else lowerCase w s.

Definition two53 : N := 9007199254740992.

(** [Math.random()] as the numerator of a fraction over 2^53. *)
Definition Math_random : M N :=
  fun st =>
    (Ok (random w (randomCalls st) mod two53)%N, withRandomDrawn st).

(** A product [p / 2^53] as the binary64 multiplication gives it: [p]
    rounded to 53 significant bits, a tie to the even one. *)
Definition round53 (p : N) : N :=
  let b := N.log2 p in
  if (b <? 53)%N then p
  else
    let d := (b - 52)%N in
    let q := (p / 2 ^ d)%N in
    let r := (p mod 2 ^ d)%N in
    let half := (2 ^ (d - 1))%N in
    ((if (r <? half)%N then q
      else if (half <? r)%N then q + 1
      else if N.even q then q else q + 1) * 2 ^ d)%N.

(** [Math.floor(Math.random() * n)]: the product is rounded before the
    floor is taken. *)
Definition random_below (n : N) : M N :=
  r <- Math_random ;; ret (round53 (r * n) / two53)%N.

(** [pool[Math.floor(Math.random() * pool.length)]]; the index is always
    in range, [undefined] stands for the value of an index out of range. *)
Definition choose {A} (pool : list A) (undefined : A) : M A :=
  i <- random_below (N.of_nat (List.length pool)) ;;
  ret (nth (N.to_nat i) pool undefined).

Definition Date_getMonth : M Z := fun st => (Ok (getMonth w (clock st)), st).
Definition Date_getDate : M Z := fun st => (Ok (getDate w (clock st)), st).

(* --------------------------------------------------------------- *)
(** *** Mock synthesis: market analysis *)

Definition isElectronics (query : jsstring) : bool :=
  regex_test_i ["phone"; "laptop"; "tablet"; "tv"; "camera"; "headphone";
                "speaker"; "watch"; "gaming"; "console"; "monitor"] query.
Definition isApple (query : jsstring) : bool :=
  regex_test_i ["iphone"; "ipad"; "macbook"; "apple"; "airpods"] query.
Definition isClothing (query : jsstring) : bool :=
  regex_test_i ["shirt"; "jeans"; "dress"; "shoes"; "jacket"; "clothing";
                "fashion"] query.
Definition isHome (query : jsstring) : bool :=
  regex_test_i ["furniture"; "kitchen"; "home"; "decor"; "appliance"] query.
Definition isBook (query : jsstring) : bool :=
  regex_test_i ["book"; "novel"; "textbook"; "guide"] query.
Definition isExpensive (query : jsstring) : bool :=
  regex_test_i ["pro"; "max"; "ultra"; "premium"; "flagship"] query.

Definition priceRangeOf (query : jsstring) : jsstring :=
  if isApple query && isExpensive query then js "₹1,00,000 - ₹2,00,000"
  else if isElectronics query && isExpensive query then js "₹50,000 - ₹1,50,000"
  else if isElectronics query then js "₹15,000 - ₹80,000"
  else if isClothing query then js "₹500 - ₹5,000"
  else if isHome query then js "₹2,000 - ₹50,000"
  else if isBook query then js "₹200 - ₹2,000"
  else js "₹1,000 - ₹25,000".

Definition trends : list MarketTrend := [increasing; decreasing; stable].

Definition marketTrendOf (query : jsstring) (currentMonth : Z) : M MarketTrend :=
  if isElectronics query then
    ret (if (8 <=? currentMonth)%Z then decreasing else stable)
  else if isClothing query then
    ret (if ((currentMonth =? 1) || (currentMonth =? 6))%Z
         then decreasing else stable)
  else choose trends stable.

Definition timingOf (query : jsstring) (currentMonth currentDate : Z)
  : jsstring * jsstring :=
  if isElectronics query then
    if ((9 <=? currentMonth) && (currentMonth <=? 11))%Z then
      (js "Buy now during festive season",
       js "Prices at yearly low, good time to purchase")
    else if ((0 <=? currentMonth) && (currentMonth <=? 2))%Z then
      (js "Wait 1-2 months for better deals",
       js "Prices may drop 5-10% in coming months")
    else if ((6 <=? currentMonth) && (currentMonth <=? 8))%Z then
      (js "Wait 3-4 weeks for festive sales",
       js "Major discounts expected during upcoming festivals")
    else
      (js "Current prices are moderate, can buy now",
       js "Prices expected to remain stable for next 2-3 months")
  else if isClothing query then
    if ((currentMonth =? 0) || (currentMonth =? 5) || (currentMonth =? 6))%Z then
      (js "Buy now during seasonal sale",
       js "End of season clearance offers available")
    else if ((9 <=? currentMonth) && (currentMonth <=? 11))%Z then
      (js "Wait 4-6 weeks for year-end sales",
       js "Better discounts expected during winter sales")
    else
      (js "Wait 2-3 weeks for next sale period",
       js "Seasonal sales coming up with 20-40% discounts")
  else if isHome query then
    if ((9 <=? currentMonth) && (currentMonth <=? 11))%Z then
      (js "Buy now during festive home decor season",
       js "Good deals available for home improvement")
    else
      (js "Wait 3-5 weeks for better offers",
       js "Home appliance sales expected soon")
  else if isBook query then
    (js "Buy now, book prices are generally stable",
     js "Book prices rarely fluctuate significantly")
  else
    let dayOfMonth := currentDate in
    if (dayOfMonth <=? 10)%Z then
      (js "Wait 2-3 weeks for mid-month offers",
       js "Better deals typically available mid-month")
    else if (dayOfMonth <=? 20)%Z then
      (js "Good time to buy, prices are competitive",
       js "Current pricing is reasonable for this category")
    else
      (js "Wait 1-2 weeks for month-end clearance",
       js "Month-end sales may offer additional discounts").

Definition insightsOf (query : jsstring) (currentMonth : Z) : list jsstring :=
  if isElectronics query then
    [js "New model launches can trigger price drops on older versions"]
      ++ (if (8 <=? currentMonth)%Z
          then [js "Festive season brings the best electronics deals"]
          else [])
      ++ [js "Consider refurbished options for significant savings"]
  else if isClothing query then
    [js "End-of-season sales offer maximum discounts";
     js "Online exclusive deals often beat retail prices"]
  else if isHome query then
    [js "Bulk purchases during sales can reduce per-unit cost";
     js "Check for installation and warranty offers"]
  else
    [js "Compare prices across multiple platforms";
     js "Look for cashback and reward point offers"].

Definition generateDynamicMarketAnalysis (query : jsstring)
  : M MarketAnalysis.t :=
  currentMonth <- Date_getMonth ;;
  currentDate <- Date_getDate ;;
  let priceRange := priceRangeOf query in
  marketTrend <- marketTrendOf query currentMonth ;;
  let timing := timingOf query currentMonth currentDate in
  let insights := insightsOf query currentMonth in
  ret (MarketAnalysis.mk priceRange marketTrend (fst timing) (snd timing)
         insights).

Definition generateMockMarketAnalysis : M MarketAnalysis.t :=
  generateDynamicMarketAnalysis (js "general product").

(* --------------------------------------------------------------- *)
(** *** Mock synthesis: search tips, recommendations, structured result *)

Definition generateDynamicSearchTips (query : jsstring) : list jsstring :=
  let tips := [js "Compare prices across multiple platforms"] in
  if regex_test_i ["phone"; "laptop"; "electronics"] query then
    tips ++ [js "Check for student discounts and educational offers";
             js "Look for exchange offers with old devices";
             js "Consider extended warranty options";
             js "Check EMI options for expensive purchases"]
  else if regex_test_i ["clothing"; "fashion"] query then
    tips ++ [js "Check size charts carefully before ordering";
             js "Look for seasonal clearance sales";
             js "Read fabric and care instructions";
             js "Check return and exchange policies"]
  else if regex_test_i ["book"] query then
    tips ++ [js "Consider digital versions for instant access";
             js "Check for used book options";
             js "Look for bundle deals with related titles"]
  else
    tips ++ [js "Read customer reviews and ratings";
             js "Check for cashback offers and reward points";
             js "Look for bulk purchase discounts"].

Definition generateMockSmartSearchResult (query : jsstring)
  : M SmartSearchResult.t :=
  marketAnalysis <- generateDynamicMarketAnalysis query ;;
  let categories := generateDynamicCategories query in
  let bounds := split (js " - ") (MarketAnalysis.priceRange marketAnalysis) in
  let firstCategory :=
    or_default (option_map ProductCategory.category (nth_error categories 0))
      (js "Electronics") in
  ret (SmartSearchResult.mk
         (query ++ js " best deals 2024")
         categories
         marketAnalysis
         [ ProductRecommendation.mk
             (query ++ js " Pro Max")
             (js "Premium variant with better features")
             firstCategory
             (or_default (nth_error bounds 1) (js "₹1,20,000"))
             0.85;
           ProductRecommendation.mk
             (query ++ js " Lite")
             (js "Budget-friendly alternative")
             firstCategory
             (or_default (nth_error bounds 0) (js "₹60,000"))
             0.78 ]
         (generateDynamicSearchTips query)).

Definition generateMockRecommendations : list ProductRecommendation.t :=
  [ ProductRecommendation.mk (js "iPhone 15 Pro Max")
      (js "Premium flagship with advanced features")
      (js "Electronics") (js "₹1,50,000") 0.85;
    ProductRecommendation.mk (js "Samsung Galaxy S24 Ultra")
      (js "Best Android alternative with S Pen")
      (js "Electronics") (js "₹1,30,000") 0.78;
    ProductRecommendation.mk (js "Google Pixel 8 Pro")
      (js "Excellent camera and AI features")
      (js "Electronics") (js "₹1,10,000") 0.72 ].

(* --------------------------------------------------------------- *)
(** *** Mock synthesis: conversational replies *)

(** The capture of the first [Analyze this search query:] followed by
    white space and a quoted run. *)
Definition extractQueryFromPrompt (prompt : jsstring) : jsstring :=
  match leftmost (match_labelled false (js "Analyze this search query:")) prompt with
  | Some q => q
  | None => js "general product"
  end.

Definition extractUserQuestion (prompt : jsstring) : jsstring :=
  match
    leftmost
      (fun s =>
         first_some (fun lit => match_labelled true (js lit) s)
           ["user asked:"; "user says:"; "user is asking:"; "user question:"])
      prompt
  with
  | Some q => q
  | None =>
      match leftmost match_quoted prompt with
      | Some q => q
      | None => prompt
      end
  end.

Definition greetings : list jsstring :=
  map js
  [ "Hi there! 👋 I'm excited to help you find the perfect products. What are you shopping for today?";
    "Hello! Welcome to your personal shopping assistant. I can help you discover great deals and make smart purchasing decisions. What interests you?";
    "Hey! I'm here to make your shopping experience amazing. Whether you're looking for the latest gadgets, fashion, or home essentials, I've got you covered. What's on your shopping list?";
    "Hi! Thanks for chatting with me. I love helping people find exactly what they need at the best prices. What can I help you discover today?" ].

Definition phoneResponses : list jsstring :=
  map js
  [ "Smartphones are constantly evolving! Right now, I'd recommend looking at the latest iPhone 15 series or Samsung Galaxy S24 lineup. Both offer excellent cameras, performance, and battery life. The iPhone 15 Pro starts around ₹1,30,000, while Samsung's flagship is about ₹1,00,000. Which features matter most to you - camera, battery, or gaming performance?";
    "When it comes to phones, it really depends on your budget and needs. For premium users, the iPhone 15 Pro Max offers the best camera and ecosystem integration. If you're looking for great value, Samsung Galaxy S24 Ultra gives you similar features at a lower price point. Both are excellent choices with 5G support and long-term software updates.";
    "Phone shopping can be overwhelming with so many options! Let me help you narrow it down. Are you upgrading from an older phone, or is this your first smartphone? Also, what's your budget range? This will help me give you more targeted recommendations." ].

Definition laptopResponses : list jsstring :=
  map js
  [ "Laptops are such a personal choice! For students and general use, I'd recommend the MacBook Air M2 - it's lightweight, has amazing battery life (up to 18 hours), and handles everything from browsing to light video editing. It starts at around ₹1,10,000. If you need more power for gaming or professional work, consider a Windows laptop with dedicated graphics.";
    "The laptop market has something for everyone. If you're into the Apple ecosystem and value design, the MacBook Pro M3 is incredible for creative work. For gaming, look at ASUS ROG or MSI laptops. And for everyday use, Lenovo ThinkPad or Dell XPS series offer great reliability. What's your primary use case - work, gaming, or general browsing?";
    "Great question about laptops! Current trends show that Apple Silicon Macs are dominating for their efficiency, while gaming laptops from ASUS and MSI offer incredible performance. For business users, ThinkPad reliability is unmatched. Do you have a preference for Windows, macOS, or are you open to both?" ].

Definition priceResponses : list jsstring :=
  map js
  [ "Smart shopping is all about timing! Prices typically drop during major sales like Amazon Great Indian Festival, Flipkart Big Billion Days, and festive seasons (October-December). Right now, you can find up to 40% off on electronics. Also, check for bank offers, exchange deals, and student discounts. What product are you interested in?";
    "The best deals happen during shopping festivals! We're currently in a good period with various offers running. Electronics see the biggest discounts (up to 50% off), followed by fashion and home goods. Pro tip: Set price alerts on apps and wait for sales rather than buying at full price. What's your budget for what you're looking for?";
    "Price comparison is crucial in India! Amazon, Flipkart, Croma, and Vijay Sales often have competing offers. Don't forget about cashback apps like CashKaro and bank credit card rewards. For big purchases, EMI options can make expensive items more affordable. What category interests you most?" ].

Definition audioResponses : list jsstring :=
  map js
  [ "Audio quality can make or break your experience! For wireless earbuds, the Sony WF-1000XM5 offers incredible noise cancellation and sound quality, though they're pricey at ₹25,000+. If you're on a budget, OnePlus Buds Pro 2 gives great value at ₹10,000. For over-ear headphones, Bose QuietComfort Ultra delivers premium comfort and ANC.";
    "When it comes to audio gear, it depends on your usage. For commuting and calls, I'd recommend true wireless earbuds with good ANC. For music production or critical listening, over-ear headphones with high-end drivers are better. Sony and Bose dominate the premium segment, while brands like boAt and Noise offer affordable alternatives with decent quality.";
    "Audio shopping is exciting! Current favorites include Sony WH-1000XM5 for noise cancellation, Bose QuietComfort for comfort, and Apple AirPods Pro for seamless iPhone integration. Don't forget to check reviews for fit and battery life. What type of audio gear are you looking for - earbuds, headphones, or speakers?" ].

Definition trendResponses : list jsstring :=
  map js
  [ "2024 is all about AI integration and sustainability! Smartphones with advanced cameras, foldable displays, and AI features are trending. In laptops, Apple Silicon Macs are dominating, while gaming laptops with RTX 40-series GPUs are hot. Sustainable products and energy-efficient appliances are also gaining popularity.";
    "Current shopping trends show strong demand for: 1) AI-powered devices (smartphones, smart home gadgets), 2) Sustainable and eco-friendly products, 3) Foldable phones and flexible displays, 4) High-refresh-rate gaming monitors, 5) Wireless charging everywhere. What category interests you most?";
    "The market is evolving rapidly! Right now, we're seeing a surge in demand for electric vehicles, smart home automation, and AI assistants. In consumer electronics, 8K TVs and high-end gaming PCs are popular. Fashion trends lean towards sustainable materials and versatile athleisure wear. What's catching your eye?" ].

Definition compareResponses : list jsstring :=
  map js
  [ "Great question for comparisons! To give you the best advice, I need to know what you're comparing. For example: iPhone vs Samsung (iPhone wins on ecosystem, Samsung on value), MacBook vs Windows laptops (Mac for creative work, Windows for gaming), or specific models? What products are you considering?";
    "Comparisons help make informed decisions! Generally, I compare based on: performance, price, build quality, software support, and user reviews. Apple products excel in ecosystem integration and long-term support, while Android/Windows offer more customization. Premium brands like Sony and Bose focus on quality, while budget brands prioritize value. What are you comparing?";
    "Smart comparisons save money and buyer's remorse! Key factors include: 1) Performance vs price ratio, 2) Build quality and durability, 3) Software updates and support, 4) User reviews and ratings, 5) Warranty and after-sales service. Indian market favorites include Samsung for value, Apple for premium, and OnePlus for performance. What would you like me to compare?" ].

Definition warrantyResponses : list jsstring :=
  map js
  [ "Warranty is crucial for peace of mind! Most electronics come with 1-2 year manufacturer warranty covering manufacturing defects. Extended warranties are available for ₹2,000-5,000 extra. Apple offers excellent support with authorized service centers everywhere. Always buy from authorized dealers to ensure valid warranty coverage.";
    "Good warranty coverage is essential! Premium brands like Apple, Samsung, and Sony offer comprehensive support with dedicated service centers. Budget brands typically provide 1-year warranty with good coverage. Pro tip: Register your product online immediately after purchase and keep all bills safe. What product are you considering?";
    "Service and support vary by brand. Apple leads with seamless ecosystem support, Samsung has widespread service centers, while local brands like Lava and Micromax offer good regional support. For high-value purchases, consider extended warranty plans. Always check the warranty card and terms carefully before buying." ].

Definition adviceResponses : list jsstring :=
  map js
  [ "Smart shopping tips: 1) Compare prices across platforms, 2) Read recent reviews (last 3 months), 3) Check return policies, 4) Look for cashback offers, 5) Consider future needs, not just current ones. For big purchases, wait for sales or use credit card rewards. What specific advice do you need?";
    "Here's my shopping wisdom: Always research thoroughly, never buy impulsively on deals, check user reviews on multiple sites, and consider the total cost of ownership (including accessories and maintenance). For electronics, focus on reputable brands with good service networks. What's your shopping challenge?";
    "Pro shopping advice: 1) Set a realistic budget first, 2) Make a wishlist and compare options, 3) Read specifications carefully, 4) Check compatibility with existing devices, 5) Buy from authorized sellers for warranty validity. For online shopping, use secure payment methods and track your orders. How can I assist you today?" ].

Definition thankResponses : list jsstring :=
  map js
  [ "You're very welcome! I'm always here to help you make great shopping decisions. Feel free to ask if you need more recommendations or have any other questions. Happy shopping! 🛒";
    "My pleasure! Shopping can be overwhelming, but I'm glad I could help. Remember, I'm here whenever you need advice on products, deals, or anything shopping-related. Have a great day!";
    "Glad I could help! Don't hesitate to reach out anytime you need shopping assistance. Whether it's product research, price comparison, or finding the best deals, I'm your go-to shopping companion. 😊" ].

Definition defaultResponses : list jsstring :=
  map js
  [ "That's an interesting question! I'd love to help you find the perfect solution. Could you tell me more about what you're looking for? For example, what's your budget, or what features are most important to you?";
    "Great question! Shopping decisions are important, and I want to make sure you get exactly what you need. To give you the best advice, could you share a bit more about your requirements or preferences?";
    "I'm here to help you make smart shopping decisions! Whether you're looking for the latest tech, fashion essentials, or home improvements, I can provide recommendations and insights. What specific product or category interests you?";
    "Thanks for asking! I can help you navigate the vast world of online shopping in India. From finding the best deals to understanding product specifications, I'm your shopping companion. What would you like to explore today?" ].

Definition generateMockResponse (prompt : jsstring) : M jsstring :=
  let userQuestion := extractUserQuestion prompt in
  let lowerQuestion := toLowerCase userQuestion in
  if includes_any ["hello"; "hi"; "hey"; "start"; "begin"] lowerQuestion then
    choose greetings []
  else if includes_any ["phone"; "smartphone"; "mobile"] lowerQuestion then
    choose phoneResponses []
  else if includes_any ["laptop"; "computer"; "macbook"] lowerQuestion then
    choose laptopResponses []
  else if includes_any ["price"; "cost"; "expensive"; "cheap"; "budget"; "deal"]
            lowerQuestion then
    choose priceResponses []
  else if includes_any ["audio"; "headphone"; "earphone"; "speaker"; "sound"]
            lowerQuestion then
    choose audioResponses []
  else if includes_any ["trend"; "popular"; "hot"; "new"; "latest"]
            lowerQuestion then
    choose trendResponses []
  else if includes_any ["compare"; "vs"; "versus"; "better"; "which is"]
            lowerQuestion then
    choose compareResponses []
  else if includes_any ["warranty"; "support"; "service"; "repair"; "guarantee"]
            lowerQuestion then
    choose warrantyResponses []
  else if includes_any ["advice"; "tip"; "how to"; "guide"; "help"]
            lowerQuestion then
    choose adviceResponses []
  else if includes_any ["thank"; "thanks"; "appreciate"] lowerQuestion then
    choose thankResponses []
  else
    choose defaultResponses [].

(* --------------------------------------------------------------- *)
(** *** Response recovery *)

(** The rest of [s] up to and including its last [close]. *)
Fixpoint up_to_last (close : code_unit) (s : jsstring) : option jsstring :=
  match s with
  | [] => None
  | x :: s' =>
      match up_to_last close s' with
      | Some r => Some (x :: r)
      | None => if unit_eqb x close then Some [x] else None
      end
  end.

(** [open [\s\S]* close] anchored at the head of [s]: the star is
    greedy, so the match runs to the last [close]. *)
Definition span_at (open close : code_unit) (s : jsstring) : option jsstring :=
  match s with
  | x :: t =>
      if unit_eqb x open then option_map (cons x) (up_to_last close t)
      else None
  | [] => None
  end.

Definition lbrace : code_unit := 123%N.
Definition rbrace : code_unit := 125%N.
Definition lbracket : code_unit := 91%N.
Definition rbracket : code_unit := 93%N.

(** [cleaned.match(/\{[\s\S]*\}/)] and [cleaned.match(/\[[\s\S]*\]/)] *)
Definition jsonMatch (cleaned : jsstring) : option jsstring :=
  leftmost (span_at lbrace rbrace) cleaned.
Definition arrayMatch (cleaned : jsstring) : option jsstring :=
  leftmost (span_at lbracket rbracket) cleaned.

Definition fence : jsstring := js "```".

Definition cleanGeminiResponse (response : jsstring) : jsstring :=
  let cleaned := trim response in
  let cleaned :=
    if startsWith (js "```json") cleaned then substring_from 7 cleaned
    else if startsWith fence cleaned then substring_from 3 cleaned
    else cleaned in
  let cleaned :=
    if endsWith fence cleaned
    then substring_to (List.length cleaned - 3) cleaned
    else cleaned in
  let cleaned := trim cleaned in
  let cleaned :=
    match jsonMatch cleaned with
    | Some m => m
    | None => cleaned
    end in
  let cleaned :=
    match arrayMatch cleaned with
    | Some m => m
    | None => cleaned
    end in
  cleaned.

(** [response.match(/(\{[\s\S]*\}|\[[\s\S]*\])/)] *)
Definition jsonPattern (response : jsstring) : option jsstring :=
  leftmost
    (fun s =>
       match span_at lbrace rbrace s with
       | Some m => Some m
       | None => span_at lbracket rbracket s
       end)
    response.

(** The three stages, each as the value it recovers. *)
Definition stage1 (response : json) : option json :=
  JSON_parse (ToString response).

Definition stage2 (response : jsstring) : option json :=
  JSON_parse (cleanGeminiResponse response).

Definition stage3 (response : jsstring) : option json :=
  match jsonPattern response with
  | Some m => JSON_parse m
  | None => None
  end.

(** [safeJsonParse(response)]; the result [null] is [JNull]. An argument
    that is not a string has no [trim] and no [match]: stages 2 and 3
    end in a [TypeError], which their handlers swallow. *)
Definition safeJsonParse (response : json) : json :=
  match stage1 response with
  | Some v => v
  | None =>
      match response with
      | JString text =>
          match stage2 text with
          | Some v => v
          | None =>
              match stage3 text with
              | Some v => v
              | None => JNull
              end
          end
      | _ => JNull
      end
  end.

(* --------------------------------------------------------------- *)
(** *** Request orchestrator *)

Definition forceMockMode : M unit :=
  if PROD w then ret tt else set_useMockData true.

Definition isUsingMockData : M bool := get_useMockData.

Definition validateApiKey : M bool :=
  fun st =>
    let key := apiKey st in
    if (match key with [] => true | _ => false end
        || (List.length key <? 10)%nat)
    then (Ok false, st)
    else if negb (startsWith (js "AIza") key) then (Ok false, st)
    else (Ok true, st).

(** The abort signal of one request is the time at which its timer
    fires. *)
Definition AbortSignal := N.

Definition aborted (signal : AbortSignal) : M bool :=
  fun st => (Ok (signal <=? clock st)%N, st).

(** [fetch(url, { method: 'POST', signal, body })]: the call is logged;
    it is answered by the network unless the signal fires first, in which
    case it rejects with the [AbortError] at that moment. *)
Definition fetch (url prompt : jsstring) (signal : AbortSignal) : M Response :=
  fun st =>
    let outcome := network w url (List.length (fetchLog st)) in
    if (signal <=? clock st)%N then (Throw AbortError, logged url prompt (clock st) st)
    else if (clock st + latency outcome <? signal)%N then
      (match result outcome with
       | Responds r => Ok r
       | Fails msg => Throw (TypeError msg)
       end, logged url prompt (clock st + latency outcome)%N st)
    else (Throw AbortError, logged url prompt signal st).

Inductive Step :=
| Return (r : option Response)
| Continue (lastResponse : option Response).

(** One iteration of the attempt loop of [makeRequestWithRetry]. *)
Definition attemptOnce (endpoint prompt : jsstring) (signal : AbortSignal)
  (maxRetries attempt : nat) (lastResponse : option Response) : M Step :=
  try_catch
    (isAborted <- aborted signal ;;
     if isAborted then throw (Error (js "Request was aborted"))
     else
       key <- (fun st => (Ok (apiKey st), st)) ;;
       response <- fetch (endpoint ++ js "?key=" ++ key) prompt signal ;;
       if ok response then ret (Return (Some response))
       else if (status response =? 429)%Z then
         if (attempt <? maxRetries)%nat then
           jitter <- random_below 1000 ;;
           sleep (2 ^ N.of_nat attempt * 2000 + jitter)%N ;;;
           ret (Continue (Some response))
         else
           forceMockMode ;;;
           ret (Return None)
       else ret (Return (Some response)))
    (fun fetchError =>
       if str_eqb (name fetchError) (js "AbortError") then throw fetchError
       else if (attempt <? 1)%nat then
         jitter <- random_below 1000 ;;
         sleep (1000 + jitter)%N ;;;
         ret (Continue lastResponse)
       else throw fetchError).

(** The loop [for (attempt = 0; attempt <= maxRetries; attempt++)], by
    the number of iterations that remain. *)
Fixpoint attempts (remaining : nat) (endpoint prompt : jsstring)
  (signal : AbortSignal) (maxRetries attempt : nat)
  (lastResponse : option Response) : M (option Response) :=
  match remaining with
  | O => ret lastResponse
  | S remaining' =>
      step <- attemptOnce endpoint prompt signal maxRetries attempt lastResponse ;;
      match step with
      | Return r => ret r
      | Continue lastResponse' =>
          attempts remaining' endpoint prompt signal maxRetries (S attempt)
            lastResponse'
      end
  end.

Definition makeRequestWithRetry (endpoint prompt : jsstring)
  (signal : AbortSignal) (maxRetries : nat) : M (option Response) :=
  if PROD w then ret None
  else attempts (S maxRetries) endpoint prompt signal maxRetries 0 None.

Definition defaultMaxRetries : nat := 2.

Definition endpoint1 : jsstring :=
  js "https://generativelanguage.googleapis.com/v1beta/models/gemini-1.5-flash:generateContent".
Definition endpoint2 : jsstring :=
  js "https://generativelanguage.googleapis.com/v1beta/models/gemini-pro:generateContent".
Definition endpoint3 : jsstring :=
  js "https://generativelanguage.googleapis.com/v1beta/models/gemini-1.0-pro:generateContent".

Definition endpoints : list jsstring := [endpoint1; endpoint2; endpoint3].

(** What [makeApiRequest] resolves with: the structured mock object, or
    any other value (the model's text, a conversational mock reply). *)
Inductive ApiValue :=
| Structured (r : SmartSearchResult.t)
| Plain (v : json).

Definition isStructuredPrompt (prompt : jsstring) : bool :=
  includes (js_q "'enhancedQuery'") prompt
  || includes (js_q "'categories'") prompt
  || includes (js_q "'marketAnalysis'") prompt.

Definition mockFor (prompt : jsstring) : M ApiValue :=
  if isStructuredPrompt prompt then
    r <- generateMockSmartSearchResult (extractQueryFromPrompt prompt) ;;
    ret (Structured r)
  else
    text <- generateMockResponse prompt ;;
    ret (Plain (JString text)).

(** How the loop over the endpoints ends. *)
Inductive LoopExit :=
| MockReply (text : jsstring)                  (* [return] inside the loop *)
| LoopDone (response : option Response) (lastError : jsstring).

Fixpoint tryEndpoints (eps : list jsstring) (prompt : jsstring)
  (signal : AbortSignal) (response : option Response) (lastError : jsstring)
  : M LoopExit :=
  match eps with
  | [] => ret (LoopDone response lastError)
  | endpoint :: rest =>
      step <-
        try_catch
          (response' <- makeRequestWithRetry endpoint prompt signal defaultMaxRetries ;;
           match response' with
           | Some r =>
               if ok r then ret (inl (LoopDone (Some r) lastError))
               else
                 ret (inr (Some r,
                           js "Endpoint " ++ endpoint ++ js ": "
                             ++ string_of_Z (status r) ++ js " " ++ statusText r))
           | None =>
               text <- generateMockResponse prompt ;;
               ret (inl (MockReply text))
           end)
          (fun fetchError =>
             if str_eqb (name fetchError) (js "AbortError")
             then throw (Error (js "Request timed out. Please try again."))
             else
               ret (inr (response,
                         js "Endpoint " ++ endpoint ++ js ": " ++ message fetchError))) ;;
      match step with
      | inl exit => ret exit
      | inr (response', lastError') =>
          tryEndpoints rest prompt signal response' lastError'
      end
  end.

Definition lift {A} (x : option A) : M A :=
  match x with
  | Some a => ret a
  | None => throw (TypeError (typeErrorMessage w))
  end.

(** [await response.json()] *)
Definition response_json (r : Response) : M json :=
  match JSON_parse (body r) with
  | Some data => ret data
  | None => throw (SyntaxError (syntaxErrorMessage w (body r)))
  end.

Definition invalidStructure : Exn :=
  Error (js "Invalid response structure from Gemini API").

(** The validation of the envelope and
    [data.candidates[0].content.parts[0].text || ''] *)
Definition extractText (data : json) : M json :=
  candidates <- lift (get (Some data) (js "candidates")) ;;
  if negb (truthy candidates) then throw invalidStructure
  else
    candidate <- lift (get0 candidates) ;;
    if negb (truthy candidate) then throw invalidStructure
    else
      content <- lift (get candidate (js "content")) ;;
      if negb (truthy content) then throw invalidStructure
      else
        parts <- lift (get content (js "parts")) ;;
        part <- lift (get0 parts) ;;
        text <- lift (get part (js "text")) ;;
        match text with
        | Some v => if truthy text then ret v else ret (JString [])
        | None => ret (JString [])
        end.

Definition timeoutMs : N := 30000.

Definition makeApiRequest (prompt : jsstring) : M ApiValue :=
  if PROD w then mockFor prompt
  else
    mock <- get_useMockData ;;
    if mock then mockFor prompt
    else
      now <- get_clock ;;
      let signal : AbortSignal := (now + timeoutMs)%N in
      try_catch
        (online <- (fun st => (Ok (onLine w (clock st)), st)) ;;
         if negb online then throw (Error (js "No internet connection"))
         else
           exit <- tryEndpoints endpoints prompt signal None [] ;;
           match exit with
           | MockReply text => ret (Plain (JString text))
           | LoopDone (Some response) lastError =>
               if ok response then
                 data <- response_json response ;;
                 text <- extractText data ;;
                 ret (Plain text)
               else
                 (if includes (js "429") lastError then forceMockMode else ret tt) ;;;
                 throw (Error (js "All Gemini API endpoints failed. Last error: "
                                 ++ lastError))
           | LoopDone None lastError =>
               (if includes (js "429") lastError then forceMockMode else ret tt) ;;;
               throw (Error (js "All Gemini API endpoints failed. Last error: "
                               ++ lastError))
           end)
        (fun error =>
           if str_eqb (name error) (js "AbortError")
              || includes (js "timed out") (message error)
           then throw (Error (js "Request timed out. Please try again."))
           else if includes (js "Failed to fetch") (message error)
           then throw (Error (js "Network error. Please check your internet connection."))
           else if includes (js "No internet connection") (message error)
           then throw (Error (js "No internet connection. Please check your network."))
           else throw error).

Definition testApiConnection : M bool :=
  if PROD w then ret false
  else
    mock <- get_useMockData ;;
    if mock then ret false
    else
      try_catch
        (response <- makeApiRequest (js "Hello, this is a test message.") ;;
         match response with
         | Plain (JString _) => ret true
         | _ => throw (TypeError (typeErrorMessage w))  (* no [substring] *)
         end)
        (fun _ => ret false).

(** The fields that the constructor assigns. A live instance, moreover,
    starts its connection test before the constructor returns: the
    constructor as a whole is [constructor] below, and [connectionProbe]
    is that test with the continuation attached to it, left alone until
    its end. *)
Definition construct : State :=
  if PROD w then mkState [] true 0 [] 0
  else
    let st := mkState (GEMINI_API_KEY w) false 0 [] 0 in
    match validateApiKey st with
    | (Ok valid, _) => mkState (GEMINI_API_KEY w) (negb valid) 0 [] 0
    | (Throw _, _) => st
    end.

Definition connectionProbe : M unit :=
  mock <- get_useMockData ;;
  if mock then ret tt
  else
    success <- testApiConnection ;;
    if success then ret tt else set_useMockData true.

(* --------------------------------------------------------------- *)
(** *** Service facade *)

Definition enhancePrompt (query : jsstring) : jsstring :=
  js_q "
        Analyze this search query: '"
  ++ query
  ++ js_q "'
        
        You must return ONLY valid JSON with this exact structure, no markdown, no explanations, no additional text:
        {
          'enhancedQuery': 'enhanced search query',
          'categories': [
            {
              'category': 'main category',
              'confidence': 0.95,
              'subcategory': 'subcategory'
            }
          ],
          'marketAnalysis': {
            'priceRange': 'price range in INR (₹)',
            'marketTrend': 'increasing/decreasing/stable',
            'bestTimeToBuy': 'recommendation',
            'pricePrediction': 'prediction',
            'marketInsights': ['insight1', 'insight2']
          },
          'recommendations': [
            {
              'productName': 'product name',
              'reason': 'why recommend',
              'category': 'category',
              'estimatedPrice': 'price in INR (₹)',
              'confidence': 0.85
            }
          ],
          'searchTips': ['tip1', 'tip2', 'tip3']
        }
        
        Focus on electronics, gadgets, and consumer products. Be specific and actionable.
        IMPORTANT: All prices must be in Indian Rupees (₹) format, not USD ($).
        CRITICAL: Return ONLY the JSON object above, nothing else.
      ".

Definition categorizePrompt (productTitles : jsstring) : jsstring :=
  js_q "
        Categorize these products: "
  ++ productTitles
  ++ js_q "
        
        You must return ONLY valid JSON array with this exact structure, no markdown, no explanations:
        [
          {
            'category': 'main category',
            'confidence': 0.95,
            'subcategory': 'subcategory'
          }
        ]
        
        CRITICAL: Return ONLY the JSON array above, nothing else.
      ".

Definition marketPrompt (query : jsstring) (prices : jsstring) : jsstring :=
  js_q "
        Analyze market trends for '"
  ++ query
  ++ js_q "' with prices: "
  ++ prices
  ++ js_q "
        
        You must return ONLY valid JSON with this exact structure, no markdown, no explanations:
        {
          'priceRange': 'price range in INR (₹)',
          'marketTrend': 'increasing/decreasing/stable',
          'bestTimeToBuy': 'recommendation',
          'pricePrediction': 'prediction',
          'marketInsights': ['insight1', 'insight2']
        }
        
        IMPORTANT: All prices must be in Indian Rupees (₹) format, not USD ($).
        CRITICAL: Return ONLY the JSON object above, nothing else.
      ".

Definition recommendPrompt (userQuery : jsstring) (history : jsstring) : jsstring :=
  js_q "
        Based on user query: '"
  ++ userQuery
  ++ js_q "' and search history: ["
  ++ history
  ++ js_q "]
        
        You must return ONLY valid JSON array with this exact structure, no markdown, no explanations:
        [
          {
            'productName': 'product name',
            'reason': 'why recommended',
            'category': 'category',
            'estimatedPrice': 'price in INR (₹)',
            'confidence': 0.85
          }
        ]
        
        IMPORTANT: All prices must be in Indian Rupees (₹) format, not USD ($).
        CRITICAL: Return ONLY the JSON array above, nothing else.
      ".

(** What a facade operation resolves with: an object built by this
    file, of the declared type by construction, or whatever JSON value
    the recovery produced, returned without a look at its shape. *)
Inductive Returned (T : Type) :=
| Typed (t : T)
| Untyped (v : json).
Arguments Typed {T} t.
Arguments Untyped {T} v.

Definition mockSmartSearchResult (query : jsstring)
  : M (Returned SmartSearchResult.t) :=
  r <- generateMockSmartSearchResult query ;; ret (Typed r).

Definition enhanceSearchQuery (query : jsstring)
  : M (Returned SmartSearchResult.t) :=
  try_catch
    (if PROD w then mockSmartSearchResult query
     else
       mock <- get_useMockData ;;
       if mock then mockSmartSearchResult query
       else
         response <- makeApiRequest (enhancePrompt query) ;;
         match response with
         | Structured r =>
             match SmartSearchResult.enhancedQuery r with
             | _ :: _ => ret (Typed r)
             | [] => mockSmartSearchResult query
             end
         | Plain v =>
             isMock <-
               match v with
               | JNull | JArray _ | JObject _ =>
                   field <- lift (get (Some v) (js "enhancedQuery")) ;;
                   ret (truthy field)
               | _ => ret false
               end ;;
             if isMock then ret (Untyped v)
             else
               let result := safeJsonParse v in
               if truthy (Some result) then ret (Untyped result)
               else mockSmartSearchResult query
         end)
    (fun _ => mockSmartSearchResult query).

Record Product := mkProduct { title : json; price : json }.

(** [array.join(', ')] over values *)
Definition joinValues (l : list json) : jsstring :=
  join (js ", ")
    (map (fun x => match x with JNull => [] | _ => ToString x end) l).

(** The part the three other operations share: the value of the
    response when the recovery gives a truthy one, else the mock. *)
Definition recoverOr {T} (mock : M T) (response : ApiValue) : M (Returned T) :=
  let result :=
    match response with
    | Plain v => safeJsonParse v
    | Structured _ => JNull      (* an object: no stage can read it *)
    end in
  if truthy (Some result) then ret (Untyped result)
  else (t <- mock ;; ret (Typed t)).

Definition categorizeProducts (products : list Product)
  : M (Returned (list ProductCategory.t)) :=
  let mock := ret generateMockCategories in
  try_catch
    (inMock <- get_useMockData ;;
     if PROD w || inMock then (t <- mock ;; ret (Typed t))
     else
       let productTitles := joinValues (map title products) in
       response <- makeApiRequest (categorizePrompt productTitles) ;;
       recoverOr mock response)
    (fun _ => t <- mock ;; ret (Typed t)).

Definition analyzeMarketTrends (query : jsstring) (products : list Product)
  : M (Returned MarketAnalysis.t) :=
  let mock := generateMockMarketAnalysis in
  try_catch
    (inMock <- get_useMockData ;;
     if PROD w || inMock then (t <- mock ;; ret (Typed t))
     else
       let prices := joinValues (map price products) in
       response <- makeApiRequest (marketPrompt query prices) ;;
       recoverOr mock response)
    (fun _ => t <- mock ;; ret (Typed t)).

Definition getPersonalizedRecommendations (userQuery : jsstring)
  (searchHistory : list jsstring) : M (Returned (list ProductRecommendation.t)) :=
  let mock := ret generateMockRecommendations in
  try_catch
    (inMock <- get_useMockData ;;
     if PROD w || inMock then (t <- mock ;; ret (Typed t))
     else
       let history := join (js ", ") searchHistory in
       response <- makeApiRequest (recommendPrompt userQuery history) ;;
       recoverOr mock response)
    (fun _ => t <- mock ;; ret (Typed t)).

End Service.

Arguments Typed {T} t.
Arguments Untyped {T} v.

(* ================================================================= *)
(** ** The properties as the specification words them *)

(** The category classifier as a table: the keyword groups in their
    order, each with its two ranked entries; the first group that matches
    wins, and no match gives the two default entries. *)
Definition categoryGroups : list (list string * list ProductCategory.t) :=
  [ (["phone"; "smartphone"; "mobile"],
     [cat "Electronics" 0.95 "Smartphones"; cat "Mobile Devices" 0.88 "Communication"]);
    (["laptop"; "computer"; "pc"],
     [cat "Electronics" 0.92 "Computers"; cat "Technology" 0.85 "Computing"]);
    (["tv"; "television"; "monitor"],
     [cat "Electronics" 0.90 "Display"; cat "Home Entertainment" 0.82 "Audio Visual"]);
    (["headphone"; "earphone"; "speaker"; "audio"],
     [cat "Electronics" 0.88 "Audio"; cat "Accessories" 0.75 "Audio Accessories"]);
    (["watch"; "smartwatch"],
     [cat "Electronics" 0.85 "Wearables"; cat "Fashion" 0.70 "Accessories"]);
    (["shirt"; "jeans"; "dress"; "clothing"; "fashion"],
     [cat "Fashion" 0.90 "Apparel"; cat "Clothing" 0.85 "Casual Wear"]);
    (["shoes"; "sneaker"; "footwear"],
     [cat "Fashion" 0.88 "Footwear"; cat "Sports" 0.72 "Athletic Wear"]);
    (["book"; "novel"; "guide"],
     [cat "Books" 0.92 "Literature"; cat "Education" 0.78 "Learning Materials"]);
    (["furniture"; "home"; "decor"],
     [cat "Home & Garden" 0.87 "Furniture"; cat "Lifestyle" 0.75 "Home Improvement"]) ].

Definition defaultCategories : list ProductCategory.t :=
  [cat "General" 0.80 "Consumer Goods"; cat "Retail" 0.70 "Miscellaneous"].

Definition classify (query : jsstring) : list ProductCategory.t :=
  match find (fun g => regex_test_i (fst g) query) categoryGroups with
  | Some g => snd g
  | None => defaultCategories
  end.

Definition confidenceInRange (c : ProductCategory.t) : Prop :=
  (0 < ProductCategory.confidence c /\ ProductCategory.confidence c <= 1)%Q.

(** A state that differs from another in the count of random draws only. *)
Definition sameService (st st' : State) : Prop :=
  apiKey st' = apiKey st /\ useMockData st' = useMockData st
  /\ clock st' = clock st /\ fetchLog st' = fetchLog st.

(** A computation that always returns, leaving the service, the clock and
    the fetch log alone. *)
Definition quiet {A} (m : M A) : Prop :=
  forall st, exists a st', m st = (Ok a, st') /\ sameService st st'.

Definition premiumBracket : jsstring := js "₹1,00,000 - ₹2,00,000".

(** The URL of a call: the endpoint with the key as its query parameter. *)
Definition urlOf (endpoint : jsstring) (st : State) : jsstring :=
  endpoint ++ js "?key=" ++ apiKey st.

(** The envelope of a successful answer, down to the model text:
    [candidates[0].content.parts[0].text]. *)
Definition envelopeWithText (data : json) (text : jsstring) : Prop :=
  exists m cm pm tm others others',
    data = JObject m
    /\ lookup (js "candidates") m = Some (JArray (JObject cm :: others))
    /\ lookup (js "content") cm = Some (JObject pm)
    /\ lookup (js "parts") pm = Some (JArray (JObject tm :: others'))
    /\ lookup (js "text") tm = Some (JString text).

(** The shapes of the declared result types, read off a JSON value. *)
Definition hasString (key : string) (members : list (jsstring * json)) : bool :=
  match lookup (js key) members with
  | Some (JString _) => true
  | _ => false
  end.

Definition hasNumber (key : string) (members : list (jsstring * json)) : bool :=
  match lookup (js key) members with
  | Some (JNumber _ _) => true
  | _ => false
  end.

Definition hasArrayOf (shape : json -> bool) (key : string)
  (members : list (jsstring * json)) : bool :=
  match lookup (js key) members with
  | Some (JArray l) => forallb shape l
  | _ => false
  end.

Definition isStringJson (v : json) : bool :=
  match v with JString _ => true | _ => false end.

Definition isProductCategoryJson (v : json) : bool :=
  match v with
  | JObject m =>
      hasString "category" m && hasNumber "confidence" m
      && match lookup (js "subcategory") m with
         | None | Some (JString _) => true
         | _ => false
         end
  | _ => false
  end.

Definition isMarketAnalysisJson (v : json) : bool :=
  match v with
  | JObject m =>
      hasString "priceRange" m
      && match lookup (js "marketTrend") m with
         | Some (JString t) =>
             str_eqb t (js "increasing") || str_eqb t (js "decreasing")
             || str_eqb t (js "stable")
         | _ => false
         end
      && hasString "bestTimeToBuy" m && hasString "pricePrediction" m
      && hasArrayOf isStringJson "marketInsights" m
  | _ => false
  end.

Definition isProductRecommendationJson (v : json) : bool :=
  match v with
  | JObject m =>
      hasString "productName" m && hasString "reason" m && hasString "category" m
      && hasString "estimatedPrice" m && hasNumber "confidence" m
  | _ => false
  end.

Definition isSmartSearchResultJson (v : json) : bool :=
  match v with
  | JObject m =>
      hasString "enhancedQuery" m
      && hasArrayOf isProductCategoryJson "categories" m
      && match lookup (js "marketAnalysis") m with
         | Some a => isMarketAnalysisJson a
         | None => false
         end
      && hasArrayOf isProductRecommendationJson "recommendations" m
      && hasArrayOf isStringJson "searchTips" m
  | _ => false
  end.

Definition isArrayOf (shape : json -> bool) (v : json) : bool :=
  match v with
  | JArray l => forallb shape l
  | _ => false
  end.

(** A facade result is fully shaped when it was built by this file, or is
    a JSON value of the declared shape. *)
Definition fullyShaped {T} (shape : json -> bool) (r : Returned T) : bool :=
  match r with
  | Typed _ => true
  | Untyped v => shape v
  end.

(* ================================================================= *)
(** ** Concrete environments *)

Module Scenario.

Definition key : jsstring := js "AIzaSyA-0123456789abcdefghij".

Definition answers (ms : N) (code : Z) (text : string) (payload : jsstring)
  : FetchOutcome :=
  mkOutcome ms (Responds (mkResponse code (js text) payload)).

Definition refused : FetchOutcome := mkOutcome 0 (Fails (js "Failed to fetch")).

(** The n-th call of [fetch] gets the n-th outcome of the script; the
    transport refuses every later call. It is the first of November, and
    the engine lowers the letters of a text that is not all ASCII as it
    lowers those of one that is. *)
Definition scripted (prod : bool) (script : list FetchOutcome) : World :=
  mkWorld prod key (fun _ => true) (fun _ => 10%Z) (fun _ => 1%Z)
    (fun _ n => nth n script refused) (fun _ => 0%N) lowerAscii
    (fun _ => js "Unexpected token in JSON")
    (js "Cannot read properties of undefined").

Definition tooManyRequests (ms : N) : FetchOutcome :=
  answers ms 429 "Too Many Requests" [].

Definition serverError (ms : N) : FetchOutcome :=
  answers ms 500 "Internal Server Error" [].

(** The envelope of a successful answer around a model text that needs
    no escaping. *)
Definition envelope (text : jsstring) : jsstring :=
  js_q "{'candidates':[{'content':{'parts':[{'text':'" ++ text
    ++ js_q "'}]}}]}".

Definition success (ms : N) (text : jsstring) : FetchOutcome :=
  answers ms 200 "OK" (envelope text).

Definition production : World := scripted true [].

(** A development instance in which the third attempt succeeds after two
    rate-limited ones. *)
Definition twoRateLimited : World :=
  scripted false [tooManyRequests 100; tooManyRequests 100; success 100 (js "fine")].

(** The first three attempts are rate limited, a fourth would succeed. *)
Definition threeRateLimited : World :=
  scripted false
    [tooManyRequests 100; tooManyRequests 100; tooManyRequests 100;
     success 100 (js "fine")].

(** The first endpoint answers 429 after 29 seconds: the timer of the
    request fires during the back-off sleep that follows. *)
Definition slowRateLimited : World :=
  scripted false [tooManyRequests 29000; success 100 (js "fine")].

(** The first endpoint does not answer within the 30 seconds. *)
Definition silent : World :=
  scripted false [success 45000 (js "late")].

(** The first endpoint fails with a 500, the second succeeds. *)
Definition fallback : World :=
  scripted false [serverError 100; success 100 (js "fine"); success 100 (js "never")].

(** The model answers with JSON that is not of the requested shape. *)
Definition offShape : World :=
  scripted false [success 100 (js_q "{\'error\':\'quota\'}")].

Definition textArrayInObject : jsstring := js_q "Result: {'a':[1,2]}".

Definition serialization : jsstring := js_q "{'a':1}".

Definition fencedWithBraceInProse : jsstring :=
  js_q "Here is the JSON:
```json
{'a':1}
```
See {docs} for details.".

End Scenario.

(** What one attempt leaves behind when its call was answered. *)
Definition answeredAt (endpoint prompt : jsstring) (st st' : State) : Prop :=
  apiKey st' = apiKey st
  /\ fetchLog st' = fetchLog st ++ [mkFetch (urlOf endpoint st) prompt (useMockData st)].

(** A request that is made live: not in production, not in mock mode,
    and on line. *)
Definition live (w : World) (st : State) : Prop :=
  PROD w = false /\ useMockData st = false /\ onLine w (clock st) = true.

(** The loop over the endpoints comes to an endpoint on which the retry
    routine gives the sentinel, having passed only failed endpoints. *)
Inductive reachesSentinel (w : World) (prompt : jsstring) (signal : AbortSignal)
  : list jsstring -> State -> State -> Prop :=
| sentinel_here endpoint rest st st1 :
    makeRequestWithRetry w endpoint prompt signal defaultMaxRetries st = (Ok None, st1) ->
    reachesSentinel w prompt signal (endpoint :: rest) st st1
| sentinel_after_response endpoint rest st r st1 st2 :
    makeRequestWithRetry w endpoint prompt signal defaultMaxRetries st
      = (Ok (Some r), st1) ->
    ok r = false ->
    reachesSentinel w prompt signal rest st1 st2 ->
    reachesSentinel w prompt signal (endpoint :: rest) st st2
| sentinel_after_error endpoint rest st e st1 st2 :
    makeRequestWithRetry w endpoint prompt signal defaultMaxRetries st
      = (Throw e, st1) ->
    str_eqb (name e) (js "AbortError") = false ->
    reachesSentinel w prompt signal rest st1 st2 ->
    reachesSentinel w prompt signal (endpoint :: rest) st st2.

(* ================================================================= *)
(** ** The public operations as a whole *)

(** A call of a public method, or the moment at which the connection test
    started by the constructor resolves. *)
Inductive Operation :=
| CallForceMockMode
| CallIsUsingMockData
| CallValidateApiKey
| CallTestApiConnection
| CallMakeApiRequest (prompt : jsstring)
| CallEnhanceSearchQuery (query : jsstring)
| CallCategorizeProducts (products : list Product)
| CallAnalyzeMarketTrends (query : jsstring) (products : list Product)
| CallGetPersonalizedRecommendations (userQuery : jsstring)
    (searchHistory : list jsstring)
| ConnectionProbeResolves.

Definition perform (w : World) (op : Operation) (st : State) : State :=
  match op with
  | CallForceMockMode => snd (forceMockMode w st)
  | CallIsUsingMockData => snd (isUsingMockData st)
  | CallValidateApiKey => snd (validateApiKey st)
  | CallTestApiConnection => snd (testApiConnection w st)
  | CallMakeApiRequest prompt => snd (makeApiRequest w prompt st)
  | CallEnhanceSearchQuery query => snd (enhanceSearchQuery w query st)
  | CallCategorizeProducts products => snd (categorizeProducts w products st)
  | CallAnalyzeMarketTrends query products =>
      snd (analyzeMarketTrends w query products st)
  | CallGetPersonalizedRecommendations userQuery searchHistory =>
      snd (getPersonalizedRecommendations w userQuery searchHistory st)
  | ConnectionProbeResolves => snd (connectionProbe w st)
  end.

(** Calls that do not overlap: each one is run to its end before the next
    is made. Calls that overlap are the subject of [schedule]. *)
Definition performAll (w : World) (ops : list Operation) (st : State) : State :=
  fold_left (fun s op => perform w op s) ops st.

(** Every fetch issued between two states was issued while [useMockData]
    was false. *)
Definition fetchedLive (st st' : State) : Prop :=
  exists new,
    fetchLog st' = fetchLog st ++ new
    /\ Forall (fun e => fetchInMockMode e = false) new.

(** A computation that issues no fetch and never resets [useMockData]. *)
Definition noFetch {A} (m : M A) : Prop :=
  forall st,
    fetchLog (snd (m st)) = fetchLog st
    /\ (useMockData st = true -> useMockData (snd (m st)) = true).

(** A computation that, started in mock mode, stays in it without a
    fetch, and that in any case fetches only while [useMockData] is
    false. *)
Definition disciplined {A} (m : M A) : Prop :=
  forall st,
    (useMockData st = true ->
     useMockData (snd (m st)) = true /\ fetchLog (snd (m st)) = fetchLog st)
    /\ fetchedLive st (snd (m st)).

(** Started while [useMockData] is false, a computation that fetches only
    live and leaves the flag false ([steady]), or sets it only together
    with a result that satisfies [flips] ([liveStep]). *)
Definition steady {A} (m : M A) : Prop :=
  forall st, useMockData st = false ->
    fetchedLive st (snd (m st)) /\ useMockData (snd (m st)) = false.

Definition liveStep {A} (flips : A -> Prop) (m : M A) : Prop :=
  forall st, useMockData st = false ->
    fetchedLive st (snd (m st))
    /\ (useMockData (snd (m st)) = true -> exists a, fst (m st) = Ok a /\ flips a).

(** A computation that returns a result satisfying [flips] without a
    fetch, wherever it is started. *)
Definition closes {A} (flips : A -> Prop) (m : M A) : Prop :=
  forall st, fetchLog (snd (m st)) = fetchLog st
             /\ exists a, fst (m st) = Ok a /\ flips a.

Definition isMockReply (exit : LoopExit) : Prop := exists text, exit = MockReply text.

(** Started while [useMockData] is false, a computation that fetches only
    live (and may set the flag at any point after its last fetch). *)
Definition liveFetch {A} (m : M A) : Prop :=
  forall st, useMockData st = false -> fetchedLive st (snd (m st)).

(** A computation that leaves the state as it is. *)
Definition stateless {A} (m : M A) : Prop := forall st, snd (m st) = st.

(* ================================================================= *)
(** ** What the facade returns *)

Definition isMockSmartSearchResult (w : World) (t : SmartSearchResult.t) : Prop :=
  exists query st st', generateMockSmartSearchResult w query st = (Ok t, st').

Definition isMockMarketAnalysis (w : World) (t : MarketAnalysis.t) : Prop :=
  exists st st', generateMockMarketAnalysis w st = (Ok t, st').

(** A facade result is an object of Mock Synthesis, or a truthy JSON value
    that the recovery produced. *)
Definition mockOrRecovered {T} (isMock : T -> Prop) (r : Returned T) : Prop :=
  match r with
  | Typed t => isMock t
  | Untyped v => truthy (Some v) = true
  end.

(** Every result that a computation returns satisfies [P]. *)
Definition post {A} (P : A -> Prop) (m : M A) : Prop :=
  forall st a st', m st = (Ok a, st') -> P a.

(** The request of a facade operation fails: it throws (no connection,
    timeout, exhausted endpoints, malformed envelope), or it returns a
    model text from which no truthy value is recovered. *)
Definition requestFails (w : World) (prompt : jsstring) (st st1 : State) : Prop :=
  (exists e, makeApiRequest w prompt st = (Throw e, st1))
  \/ (exists text,
        makeApiRequest w prompt st = (Ok (Plain (JString text)), st1)
        /\ truthy (Some (safeJsonParse (JString text))) = false).

(** The shape shared by [categorizeProducts], [analyzeMarketTrends] and
    [getPersonalizedRecommendations]. *)
Definition facadeOperation {T} (w : World) (mock : M T) (prompt : jsstring)
  : M (Returned T) :=
  try_catch
    (inMock <- get_useMockData ;;
     if PROD w || inMock then (t <- mock ;; ret (Typed t))
     else
       response <- makeApiRequest w prompt ;;
       recoverOr mock response)
    (fun _ => t <- mock ;; ret (Typed t)).

(* ================================================================= *)
(** ** Texts around a serialized object *)

(** Prose without a brace of its own. *)
Definition braceFree (s : jsstring) : Prop :=
  ~ In lbrace s /\ ~ In rbrace s.

(** The text of an object: an opening brace, a closing brace, anything
    between them. *)
Definition objectText (s : jsstring) : Prop :=
  exists inner, s = lbrace :: inner ++ [rbrace].

(** The characters with which a JSON text can begin: a brace, a bracket,
    a double quote, a minus sign, a digit, or the first letter of true,
    false and null. *)
Definition startsValue (c : code_unit) : bool :=
  ((c =? 123) || (c =? 91) || (c =? 34) || (c =? 45) || is_digit c
   || (c =? 116) || (c =? 102) || (c =? 110))%N.

(** The text begins, after white space, as a JSON text can. *)
Definition opensLikeJson (text : jsstring) : bool :=
  match skip_ws text with
  | c :: _ => startsValue c
  | [] => false
  end.

(** The serialization in a fenced code block between two proses. *)
Definition fenced (before s after : jsstring) : jsstring :=
  before ++ js "```json" ++ [10%N] ++ s ++ [10%N] ++ js "```" ++ after.

(** The shape that the cleaning pass keeps: the object text between two
    proses without braces. *)
Definition around (s x : jsstring) : Prop :=
  exists p q, x = p ++ s ++ q /\ braceFree p /\ braceFree q.

(* ================================================================= *)
(** ** Asynchronous execution *)

(** The methods of the service are [async]: a call runs until its first
    [await] that has to wait, returns to its caller, and is resumed later,
    after other code has run and possibly changed the instance. A [Run] is
    a call in progress: it has come to its end, or it is suspended, with
    the state in which it has left the instance, the time at which what it
    waits for settles, and what it does with the state that it finds when
    it is resumed. The computations [M] above are these calls resumed at
    once and left alone until their end ([alone] below; [refines] relates
    the two). *)

Unset Implicit Arguments.

Inductive Run (A : Type) : Type :=
| Finished (r : Result A) (st : State)
| Suspended (st : State) (wake : N) (resume : State -> Run A).
Arguments Finished {A} r st.
Arguments Suspended {A} st wake resume.

Definition Async (A : Type) : Type := State -> Run A.

(** The instance as the call leaves it when it returns or suspends. *)
Definition stateOf {A} (r : Run A) : State :=
  match r with
  | Finished _ st => st
  | Suspended st _ _ => st
  end.

(** The call has not come to its end. *)
Definition pending {A} (r : Run A) : bool :=
  match r with
  | Finished _ _ => false
  | Suspended _ _ _ => true
  end.

(** The call resumed as soon as it suspends, nothing running between. *)
Fixpoint alone {A} (r : Run A) : Result A * State :=
  match r with
  | Finished res st => (res, st)
  | Suspended st _ resume => alone (resume st)
  end.

Definition retA {A} (a : A) : Async A := fun st => Finished (Ok a) st.

Definition throwA {A} (e : Exn) : Async A := fun st => Finished (Throw e) st.

(** A synchronous computation inside an asynchronous one. *)
Definition liftA {A} (m : M A) : Async A :=
  fun st => Finished (fst (m st)) (snd (m st)).

Fixpoint bindRun {A B} (r : Run A) (k : A -> Async B) : Run B :=
  match r with
  | Finished (Ok a) st => k a st
  | Finished (Throw e) st => Finished (Throw e) st
  | Suspended st wake resume => Suspended st wake (fun st' => bindRun (resume st') k)
  end.

Definition bindA {A B} (m : Async A) (k : A -> Async B) : Async B :=
  fun st => bindRun (m st) k.

Fixpoint catchRun {A} (r : Run A) (handler : Exn -> Async A) : Run A :=
  match r with
  | Finished (Ok a) st => Finished (Ok a) st
  | Finished (Throw e) st => handler e st
  | Suspended st wake resume =>
      Suspended st wake (fun st' => catchRun (resume st') handler)
  end.

Definition try_catchA {A} (m : Async A) (handler : Exn -> Async A) : Async A :=
  fun st => catchRun (m st) handler.

Notation "x <~ m ;; k" := (bindA m (fun x => k))
  (at level 61, m at next level, right associativity).
Notation "m ;;~ k" := (bindA m (fun _ => k))
  (at level 61, right associativity).

(** [await p] for the promise [p] of an [async] call: the caller is
    suspended with the call, and once more when the promise has settled,
    since its continuation is a job of its own. *)
Fixpoint settled {A} (r : Run A) : Run A :=
  match r with
  | Finished res st => Suspended st (clock st) (fun st' => Finished res st')
  | Suspended st wake resume => Suspended st wake (fun st' => settled (resume st'))
  end.

Definition awaitA {A} (m : Async A) : Async A := fun st => settled (m st).

(** The result of a call is dropped. *)
Fixpoint dropRun {A} (r : Run A) : Run unit :=
  match r with
  | Finished (Ok _) st => Finished (Ok tt) st
  | Finished (Throw e) st => Finished (Throw e) st
  | Suspended st wake resume => Suspended st wake (fun st' => dropRun (resume st'))
  end.

(** The state with one more fetch issued, the clock as it is. *)
Definition issued (url prompt : jsstring) (st : State) : State :=
  mkState (apiKey st) (useMockData st) (clock st)
    (fetchLog st ++ [mkFetch url prompt (useMockData st)]) (randomCalls st).

Section AsyncService.

Variable w : World.

(** [await fetch(url, { signal, ... })]: the request is issued, and logged,
    when [fetch] is called; the caller is resumed when the answer arrives
    or the signal fires, whichever is first. *)
Definition fetchA (url prompt : jsstring) (signal : AbortSignal) : Async Response :=
  fun st =>
    let outcome := network w url (List.length (fetchLog st)) in
    if (signal <=? clock st)%N then
      Suspended (issued url prompt st) (clock st)
        (fun st' => Finished (Throw AbortError) (withClock (N.max (clock st) (clock st')) st'))
    else if (clock st + latency outcome <? signal)%N then
      Suspended (issued url prompt st) (clock st + latency outcome)%N
        (fun st' =>
           Finished (match result outcome with
                     | Responds r => Ok r
                     | Fails msg => Throw (TypeError msg)
                     end)
             (withClock (N.max (clock st + latency outcome) (clock st')) st'))
    else
      Suspended (issued url prompt st) signal
        (fun st' => Finished (Throw AbortError) (withClock (N.max signal (clock st')) st')).

(** [await new Promise(resolve => setTimeout(resolve, ms))] *)
Definition sleepA (ms : N) : Async unit :=
  fun st =>
    Suspended st (clock st + ms)%N
      (fun st' => Finished (Ok tt) (withClock (N.max (clock st + ms) (clock st')) st')).

Definition attemptOnceA (endpoint prompt : jsstring) (signal : AbortSignal)
  (maxRetries attempt : nat) (lastResponse : option Response) : Async Step :=
  try_catchA
    (isAborted <~ liftA (aborted signal) ;;
     if isAborted then throwA (Error (js "Request was aborted"))
     else
       key <~ liftA (fun st => (Ok (apiKey st), st)) ;;
       response <~ fetchA (endpoint ++ js "?key=" ++ key) prompt signal ;;
       if ok response then retA (Return (Some response))
       else if (status response =? 429)%Z then
         if (attempt <? maxRetries)%nat then
           jitter <~ liftA (random_below w 1000) ;;
           sleepA (2 ^ N.of_nat attempt * 2000 + jitter)%N ;;~
           retA (Continue (Some response))
         else liftA (forceMockMode w) ;;~ retA (Return None)
       else retA (Return (Some response)))
    (fun fetchError =>
       if str_eqb (name fetchError) (js "AbortError") then throwA fetchError
       else if (attempt <? 1)%nat then
         jitter <~ liftA (random_below w 1000) ;;
         sleepA (1000 + jitter)%N ;;~
         retA (Continue lastResponse)
       else throwA fetchError).

Fixpoint attemptsA (remaining : nat) (endpoint prompt : jsstring)
  (signal : AbortSignal) (maxRetries attempt : nat)
  (lastResponse : option Response) : Async (option Response) :=
  match remaining with
  | O => retA lastResponse
  | S remaining' =>
      step <~ attemptOnceA endpoint prompt signal maxRetries attempt lastResponse ;;
      match step with
      | Return r => retA r
      | Continue lastResponse' =>
          attemptsA remaining' endpoint prompt signal maxRetries (S attempt)
            lastResponse'
      end
  end.

Definition makeRequestWithRetryA (endpoint prompt : jsstring)
  (signal : AbortSignal) (maxRetries : nat) : Async (option Response) :=
  if PROD w then retA None
  else attemptsA (S maxRetries) endpoint prompt signal maxRetries 0 None.

Fixpoint tryEndpointsA (eps : list jsstring) (prompt : jsstring)
  (signal : AbortSignal) (response : option Response) (lastError : jsstring)
  : Async LoopExit :=
  match eps with
  | [] => retA (LoopDone response lastError)
  | endpoint :: rest =>
      step <~
        try_catchA
          (response' <~
             awaitA (makeRequestWithRetryA endpoint prompt signal defaultMaxRetries) ;;
           match response' with
           | Some r =>
               if ok r then retA (inl (LoopDone (Some r) lastError))
               else
                 retA (inr (Some r,
                            js "Endpoint " ++ endpoint ++ js ": "
                              ++ string_of_Z (status r) ++ js " " ++ statusText r))
           | None =>
               text <~ liftA (generateMockResponse w prompt) ;;
               retA (inl (MockReply text))
           end)
          (fun fetchError =>
             if str_eqb (name fetchError) (js "AbortError")
             then throwA (Error (js "Request timed out. Please try again."))
             else
               retA (inr (response,
                          js "Endpoint " ++ endpoint ++ js ": " ++ message fetchError))) ;;
      match step with
      | inl exit => retA exit
      | inr (response', lastError') =>
          tryEndpointsA rest prompt signal response' lastError'
      end
  end.

Definition makeApiRequestA (prompt : jsstring) : Async ApiValue :=
  if PROD w then liftA (mockFor w prompt)
  else
    mock <~ liftA get_useMockData ;;
    if mock then liftA (mockFor w prompt)
    else
      now <~ liftA get_clock ;;
      let signal : AbortSignal := (now + timeoutMs)%N in
      try_catchA
        (online <~ liftA (fun st => (Ok (onLine w (clock st)), st)) ;;
         if negb online then throwA (Error (js "No internet connection"))
         else
           exit <~ tryEndpointsA endpoints prompt signal None [] ;;
           match exit with
           | MockReply text => retA (Plain (JString text))
           | LoopDone (Some response) lastError =>
               if ok response then
                 data <~ awaitA (liftA (response_json w response)) ;;
                 text <~ liftA (extractText w data) ;;
                 retA (Plain text)
               else
                 liftA (if includes (js "429") lastError then forceMockMode w else ret tt) ;;~
                 throwA (Error (js "All Gemini API endpoints failed. Last error: "
                                  ++ lastError))
           | LoopDone None lastError =>
               liftA (if includes (js "429") lastError then forceMockMode w else ret tt) ;;~
               throwA (Error (js "All Gemini API endpoints failed. Last error: "
                                ++ lastError))
           end)
        (fun error =>
           if str_eqb (name error) (js "AbortError")
              || includes (js "timed out") (message error)
           then throwA (Error (js "Request timed out. Please try again."))
           else if includes (js "Failed to fetch") (message error)
           then throwA (Error (js "Network error. Please check your internet connection."))
           else if includes (js "No internet connection") (message error)
           then throwA (Error (js "No internet connection. Please check your network."))
           else throwA error).

Definition testApiConnectionA : Async bool :=
  if PROD w then retA false
  else
    mock <~ liftA get_useMockData ;;
    if mock then retA false
    else
      try_catchA
        (response <~ awaitA (makeApiRequestA (js "Hello, this is a test message.")) ;;
         match response with
         | Plain (JString _) => retA true
         | _ => throwA (TypeError (typeErrorMessage w))
         end)
        (fun _ => retA false).

(** [this.testApiConnection().then(success => { ... })] *)
Definition connectionProbeA : Async unit :=
  success <~ awaitA testApiConnectionA ;;
  if success then retA tt else liftA (set_useMockData true).

(** [new GeminiAiService()]: the fields are assigned ([construct]), and a
    live instance starts its connection test, which runs up to the first
    [await] that waits, the first fetch when the browser is on line,
    before the constructor returns. The run is the probe in progress, its
    state the instance that the constructor returns. *)
Definition constructor : Run unit :=
  let st := construct w in
  if useMockData st then Finished (Ok tt) st else connectionProbeA st.

Definition enhanceSearchQueryA (query : jsstring)
  : Async (Returned SmartSearchResult.t) :=
  try_catchA
    (if PROD w then liftA (mockSmartSearchResult w query)
     else
       mock <~ liftA get_useMockData ;;
       if mock then liftA (mockSmartSearchResult w query)
       else
         response <~ awaitA (makeApiRequestA (enhancePrompt query)) ;;
         match response with
         | Structured r =>
             match SmartSearchResult.enhancedQuery r with
             | _ :: _ => retA (Typed r)
             | [] => liftA (mockSmartSearchResult w query)
             end
         | Plain v =>
             isMock <~
               match v with
               | JNull | JArray _ | JObject _ =>
                   field <~ liftA (lift w (get (Some v) (js "enhancedQuery"))) ;;
                   retA (truthy field)
               | _ => retA false
               end ;;
             if isMock then retA (Untyped v)
             else
               let result := safeJsonParse v in
               if truthy (Some result) then retA (Untyped result)
               else liftA (mockSmartSearchResult w query)
         end)
    (fun _ => liftA (mockSmartSearchResult w query)).

(** The shape shared by the three other operations. *)
Definition facadeOperationA {T} (mock : M T) (prompt : jsstring)
  : Async (Returned T) :=
  try_catchA
    (inMock <~ liftA get_useMockData ;;
     if PROD w || inMock then liftA (t <- mock ;; ret (Typed t))
     else
       response <~ awaitA (makeApiRequestA prompt) ;;
       liftA (recoverOr mock response))
    (fun _ => liftA (t <- mock ;; ret (Typed t))).

Definition categorizeProductsA (products : list Product)
  : Async (Returned (list ProductCategory.t)) :=
  facadeOperationA (ret generateMockCategories)
    (categorizePrompt (joinValues (map title products))).

Definition analyzeMarketTrendsA (query : jsstring) (products : list Product)
  : Async (Returned MarketAnalysis.t) :=
  facadeOperationA (generateMockMarketAnalysis w)
    (marketPrompt query (joinValues (map price products))).

Definition getPersonalizedRecommendationsA (userQuery : jsstring)
  (searchHistory : list jsstring) : Async (Returned (list ProductRecommendation.t)) :=
  facadeOperationA (ret generateMockRecommendations)
    (recommendPrompt userQuery (join (js ", ") searchHistory)).

(** A public operation as a call in progress; [ConnectionProbeResolves]
    is a connection test with the continuation that the constructor
    attaches to its own. *)
Definition performA (op : Operation) : Async unit :=
  fun st =>
    match op with
    | CallForceMockMode => dropRun (liftA (forceMockMode w) st)
    | CallIsUsingMockData => dropRun (liftA isUsingMockData st)
    | CallValidateApiKey => dropRun (liftA validateApiKey st)
    | CallTestApiConnection => dropRun (testApiConnectionA st)
    | CallMakeApiRequest prompt => dropRun (makeApiRequestA prompt st)
    | CallEnhanceSearchQuery query => dropRun (enhanceSearchQueryA query st)
    | CallCategorizeProducts products => dropRun (categorizeProductsA products st)
    | CallAnalyzeMarketTrends query products =>
        dropRun (analyzeMarketTrendsA query products st)
    | CallGetPersonalizedRecommendations userQuery searchHistory =>
        dropRun (getPersonalizedRecommendationsA userQuery searchHistory st)
    | ConnectionProbeResolves =>
        dropRun ((mock <~ liftA get_useMockData ;;
                  if mock then retA tt else connectionProbeA) st)
    end.

(** *** Calls that overlap *)

(** What happens to an instance with calls in flight: a public operation
    is called, a suspended call is resumed, or time passes. *)
Inductive Action :=
| Call (op : Operation)
| Resume (task : nat)
| Wait (until : N).

Definition Tasks := list (Run unit).

Definition replaceTask (i : nat) (r : Run unit) (tasks : Tasks) : Tasks :=
  firstn i tasks ++ r :: skipn (S i) tasks.

Definition act (cfg : Tasks * State) (a : Action) : Tasks * State :=
  let '(tasks, st) := cfg in
  match a with
  | Call op => let r := performA op st in (tasks ++ [r], stateOf r)
  | Resume i =>
      match nth_error tasks i with
      | Some (Suspended _ _ resume) =>
          let r := resume st in (replaceTask i r tasks, stateOf r)
      | _ => (tasks, st)
      end
  | Wait t => (tasks, withClock (N.max t (clock st)) st)
  end.

Definition schedule (actions : list Action) (cfg : Tasks * State) : Tasks * State :=
  fold_left act actions cfg.

(** A new instance: the probe of the constructor is its first task. *)
Definition created : Tasks * State := ([constructor], stateOf constructor).

End AsyncService.

(** Once [useMockData] is true in the first state it is true in the
    second. *)
Definition flagKept (st st' : State) : Prop :=
  useMockData st = true -> useMockData st' = true.

(** However a call in progress is resumed, it never resets the flag. *)
Fixpoint respects {A} (r : Run A) : Prop :=
  match r with
  | Finished _ _ => True
  | Suspended _ _ resume =>
      forall st', flagKept st' (stateOf (resume st')) /\ respects (resume st')
  end.

Definition oneWay {A} (m : Async A) : Prop :=
  forall st, flagKept st (stateOf (m st)) /\ respects (m st).

(** The asynchronous call, left alone, is the computation. *)
Definition refines {A} (mA : Async A) (m : M A) : Prop :=
  forall st, alone (mA st) = m st.

(** A synchronous computation that never resets the flag. *)
Definition keepsFlag {A} (m : M A) : Prop := forall st, flagKept st (snd (m st)).

(** A call in progress that was started in [st0]. *)
Definition good {A} (r : Run A) (st0 : State) : Prop :=
  flagKept st0 (stateOf r) /\ respects r.

(** A call that comes to its end before it returns to its caller. *)
Definition atOnce {A} (r : Run A) : Prop := exists x st, r = Finished x st.

(** Where a call is when it returns to its caller. *)
Definition leaves {A} (r : Run A) (st : State) : Prop :=
  pending r = true /\ stateOf r = st.

(* ================================================================= *)
(** ** Further properties: what they speak of *)

Unset Implicit Arguments.

(** A computation that issues at most [n] fetches, wherever it is
    started. *)
Definition fetchesAtMost {A} (n : nat) (m : M A) : Prop :=
  forall st, exists new,
    fetchLog (snd (m st)) = fetchLog st ++ new /\ (List.length new <= n)%nat.

(** The message with which [makeApiRequest] rethrows an [Error] that it
    caught: three wordings are recognised by a part of the message, any
    other message is kept. *)
Definition classified (message : jsstring) : jsstring :=
  if includes (js "timed out") message
  then js "Request timed out. Please try again."
  else if includes (js "Failed to fetch") message
  then js "Network error. Please check your internet connection."
  else if includes (js "No internet connection") message
  then js "No internet connection. Please check your network."
  else message.

(** The validation of the envelope fails on an answer that is an object:
    it has no truthy [candidates], or no truthy [candidates[0]], or no
    truthy [candidates[0].content]. *)
Definition lacksContent (data : json) : Prop :=
  exists m, data = JObject m
  /\ (truthy (lookup (js "candidates") m) = false
      \/ exists candidate,
           get0 (lookup (js "candidates") m) = Some candidate
           /\ (truthy candidate = false
               \/ exists content,
                    get candidate (js "content") = Some content
                    /\ truthy content = false)).

(** The envelope passes the validation, and its first part has no text
    or an empty one. *)
Definition envelopeWithoutText (data : json) : Prop :=
  exists m cm pm tm others others',
    data = JObject m
    /\ lookup (js "candidates") m = Some (JArray (JObject cm :: others))
    /\ lookup (js "content") cm = Some (JObject pm)
    /\ lookup (js "parts") pm = Some (JArray (JObject tm :: others'))
    /\ truthy (lookup (js "text") tm) = false.

(** The envelope passes the validation, and its content has no parts. *)
Definition envelopeWithoutParts (data : json) : Prop :=
  exists m cm pm others,
    data = JObject m
    /\ lookup (js "candidates") m = Some (JArray (JObject cm :: others))
    /\ lookup (js "content") cm = Some (JObject pm)
    /\ lookup (js "parts") pm = None.

(** Hoare triples over results: from a state that satisfies [pre], every
    result that the computation returns satisfies [Q] together with the
    state it leaves. *)
Definition triple {A} (pre : State -> Prop) (m : M A) (Q : A -> State -> Prop)
  : Prop :=
  forall st, pre st -> forall a st', m st = (Ok a, st') -> Q a st'.

Definition anyState : State -> Prop := fun _ => True.

(** What one attempt leaves behind: the sentinel only with the flag set,
    and a retry without a response only for a first attempt that had
    none. *)
Definition attemptPost (attempt : nat) (last : option Response)
  (step : Step) (st : State) : Prop :=
  (step = Return None -> useMockData st = true)
  /\ (step = Continue None -> attempt = 0%nat /\ last = None).

(** The prompt of [testApiConnection]. *)
Definition testPrompt : jsstring := js "Hello, this is a test message.".

(** Every reply that [generateMockResponse] can give. *)
Definition cannedReplies : list jsstring :=
  greetings ++ phoneResponses ++ laptopResponses ++ priceResponses
    ++ audioResponses ++ trendResponses ++ compareResponses
    ++ warrantyResponses ++ adviceResponses ++ thankResponses
    ++ defaultResponses.

(** The head of the prompt of [enhanceSearchQuery]: a line feed, eight
    spaces, the label, a space and the opening quote of the query. *)
Definition promptLabel : jsstring := js "Analyze this search query:".

Definition promptIndent : jsstring := 10%N :: repeat 32%N 8.

(** A text without a double quote. *)
Definition quoteFree (s : jsstring) : Prop := ~ In quote s.

Module Cases.

(** A development instance of a browser that is off line. *)
Definition offline : World :=
  mkWorld false Scenario.key (fun _ => false) (fun _ => 10%Z) (fun _ => 1%Z)
    (fun _ _ => Scenario.refused) (fun _ => 0%N) lowerAscii
    (fun _ => js "Unexpected token in JSON")
    (js "Cannot read properties of undefined").

(** The transport refuses every call. *)
Definition unreachable : World := Scenario.scripted false [].

(** The first endpoint answers 200 with a blocked prompt: an object
    without candidates. *)
Definition blocked : World :=
  Scenario.scripted false
    [Scenario.answers 100 200 "OK" (js_q "{'promptFeedback':{'blockReason':'SAFETY'}}")].

(** The first endpoint answers with an empty model text. *)
Definition emptyText : World := Scenario.scripted false [Scenario.success 100 []].

(** Every endpoint answers 500. *)
Definition allDown : World :=
  Scenario.scripted false
    [Scenario.serverError 100; Scenario.serverError 100; Scenario.serverError 100].

(** A candidate that was cut off before any part was produced. *)
Definition cutOff : json :=
  JObject [(js "candidates",
            JArray [JObject [(js "content", JObject [(js "role", JString (js "model"))]);
                             (js "finishReason", JString (js "MAX_TOKENS"))]])].

End Cases.

Unset Implicit Arguments.
Arguments js : simpl never.
Arguments urlOf : simpl never.
Opaque js js_q.
Arguments js_q : simpl never.
Arguments string_of_Z : simpl never.
Arguments includes : simpl never.
Arguments str_eqb : simpl never.

(* ================================================================= *)
(** ** Mock synthesis: the category classifier *)

Lemma categoryGroups_shape :
  Forall (fun g => List.length (snd g) = 2%nat /\ Forall confidenceInRange (snd g))
    categoryGroups
  /\ List.length defaultCategories = 2%nat
  /\ Forall confidenceInRange defaultCategories.
Proof.
  unfold categoryGroups, defaultCategories, confidenceInRange.
  repeat split;
    repeat (constructor; simpl);
    try reflexivity; try (unfold Qle; simpl; discriminate).
Qed.

Lemma classify_shape (query : jsstring) :
  List.length (classify query) = 2%nat /\ Forall confidenceInRange (classify query).
Proof.
  destruct categoryGroups_shape as (Hgroups & Hlen & Hconf).
  unfold classify.
  destruct (find _ categoryGroups) as [g|] eqn:Hfind.
  - apply find_some in Hfind. destruct Hfind as [Hin _].
    rewrite Forall_forall in Hgroups. exact (Hgroups g Hin).
  - split; assumption.
Qed.

(** C9: for every query the classifier returns the two entries of the
    first keyword group that matches, or the two default entries (General,
    Retail) when none does; the list always has exactly two entries and
    every confidence lies in (0, 1]. *)
Theorem generateDynamicCategories_two_entries (query : jsstring) :
  generateDynamicCategories query = classify query
  /\ List.length (generateDynamicCategories query) = 2%nat
  /\ Forall confidenceInRange (generateDynamicCategories query)
  /\ (existsb (fun g => regex_test_i (fst g) query) categoryGroups = false ->
      generateDynamicCategories query = defaultCategories).
Proof.
  assert (Heq : generateDynamicCategories query = classify query).
  { unfold generateDynamicCategories, classify, categoryGroups.
    cbv [find fst snd].
    repeat match goal with
           | |- context [regex_test_i ?l query] =>
               destruct (regex_test_i l query); [reflexivity|]
           end.
    reflexivity. }
  rewrite Heq.
  destruct (classify_shape query) as [Hlen Hconf].
  repeat split; try assumption.
  intro Hnone. unfold classify.
  destruct (find _ categoryGroups) as [g|] eqn:Hfind; [|reflexivity].
  apply find_some in Hfind. destruct Hfind as [Hin Hg].
  assert (Hex : existsb (fun g => regex_test_i (fst g) query) categoryGroups = true).
  { apply existsb_exists. exists g. split; assumption. }
  congruence.
Qed.

Unset Implicit Arguments.
Arguments js : simpl never.
Arguments js_q : simpl never.
Arguments string_of_Z : simpl never.
Arguments includes : simpl never.
Arguments str_eqb : simpl never.

(* ================================================================= *)
(** ** Mock synthesis runs without a fault and without the network *)

Lemma sameService_refl st : sameService st st.
Proof. repeat split. Qed.

Lemma sameService_trans st1 st2 st3 :
  sameService st1 st2 -> sameService st2 st3 -> sameService st1 st3.
Proof.
  unfold sameService. intros (a1 & b1 & c1 & d1) (a2 & b2 & c2 & d2).
  repeat split; congruence.
Qed.

Lemma quiet_ret {A} (a : A) : quiet (ret a).
Proof. intro st. exists a, st. split; [reflexivity | apply sameService_refl]. Qed.

Lemma quiet_bind {A B} (m : M A) (k : A -> M B) :
  quiet m -> (forall a, quiet (k a)) -> quiet (bind m k).
Proof.
  intros Hm Hk st. destruct (Hm st) as (a & st1 & E1 & S1).
  destruct (Hk a st1) as (b & st2 & E2 & S2).
  exists b, st2. split.
  - unfold bind. rewrite E1. exact E2.
  - eapply sameService_trans; eassumption.
Qed.

Lemma quiet_Math_random w : quiet (Math_random w).
Proof.
  intro st. eexists. eexists. split; [reflexivity|]. repeat split.
Qed.

Lemma quiet_choose w {A} (pool : list A) (d : A) : quiet (choose w pool d).
Proof.
  unfold choose, random_below.
  apply quiet_bind; [apply quiet_bind; [apply quiet_Math_random|] |];
    intros; apply quiet_ret.
Qed.

Lemma quiet_marketTrendOf w query month : quiet (marketTrendOf w query month).
Proof.
  unfold marketTrendOf.
  destruct (isElectronics query); [apply quiet_ret|].
  destruct (isClothing query); [apply quiet_ret|].
  apply quiet_choose.
Qed.

Lemma generateDynamicMarketAnalysis_returns w query st :
  exists trend st',
    generateDynamicMarketAnalysis w query st =
      (Ok (MarketAnalysis.mk (priceRangeOf query) trend
             (fst (timingOf query (getMonth w (clock st)) (getDate w (clock st))))
             (snd (timingOf query (getMonth w (clock st)) (getDate w (clock st))))
             (insightsOf query (getMonth w (clock st)))), st')
    /\ sameService st st'.
Proof.
  destruct (quiet_marketTrendOf w query (getMonth w (clock st)) st)
    as (trend & st' & E & S).
  exists trend, st'. split; [|exact S].
  unfold generateDynamicMarketAnalysis, bind, Date_getMonth, Date_getDate.
  rewrite E. reflexivity.
Qed.

Lemma generateMockSmartSearchResult_returns w query st :
  exists r st',
    generateMockSmartSearchResult w query st = (Ok r, st')
    /\ sameService st st'
    /\ SmartSearchResult.enhancedQuery r = query ++ js " best deals 2024"
    /\ SmartSearchResult.categories r = generateDynamicCategories query
    /\ MarketAnalysis.priceRange (SmartSearchResult.marketAnalysis r) = priceRangeOf query
    /\ SmartSearchResult.searchTips r = generateDynamicSearchTips query
    /\ List.length (SmartSearchResult.recommendations r) = 2%nat.
Proof.
  destruct (generateDynamicMarketAnalysis_returns w query st) as (trend & st' & E & S).
  unfold generateMockSmartSearchResult, bind. rewrite E.
  eexists. exists st'. split; [reflexivity|].
  repeat split; try apply S.
Qed.

Lemma quiet_generateMockSmartSearchResult w query :
  quiet (generateMockSmartSearchResult w query).
Proof.
  intro st. destruct (generateMockSmartSearchResult_returns w query st)
    as (r & st' & E & S & _).
  exists r, st'. split; assumption.
Qed.

Lemma quiet_generateDynamicMarketAnalysis w query :
  quiet (generateDynamicMarketAnalysis w query).
Proof.
  intro st. destruct (generateDynamicMarketAnalysis_returns w query st)
    as (t & st' & E & S).
  eexists. exists st'. split; eassumption.
Qed.

Lemma quiet_generateMockResponse w prompt : quiet (generateMockResponse w prompt).
Proof.
  unfold generateMockResponse.
  repeat match goal with
         | |- quiet (if ?c then _ else _) => destruct c; [apply quiet_choose|]
         end.
  apply quiet_choose.
Qed.

Lemma quiet_mockFor w prompt : quiet (mockFor w prompt).
Proof.
  unfold mockFor. destruct (isStructuredPrompt prompt).
  - apply quiet_bind; [apply quiet_generateMockSmartSearchResult|].
    intros; apply quiet_ret.
  - apply quiet_bind; [apply quiet_generateMockResponse|].
    intros; apply quiet_ret.
Qed.

Lemma quiet_mockSmartSearchResult w query : quiet (mockSmartSearchResult w query).
Proof.
  unfold mockSmartSearchResult.
  apply quiet_bind; [apply quiet_generateMockSmartSearchResult|].
  intros; apply quiet_ret.
Qed.

(** In mock mode [enhanceSearchQuery] is the structured mock result. *)
Lemma enhanceSearchQuery_mock w query st :
  PROD w || useMockData st = true ->
  exists r st',
    enhanceSearchQuery w query st = (Ok (Typed r), st')
    /\ generateMockSmartSearchResult w query st = (Ok r, st').
Proof.
  intro Hmock.
  destruct (generateMockSmartSearchResult_returns w query st) as (r & st' & E & _).
  exists r, st'. split; [|exact E].
  unfold enhanceSearchQuery, try_catch.
  destruct (PROD w) eqn:HP.
  - unfold mockSmartSearchResult, bind. rewrite E. reflexivity.
  - simpl in Hmock.
    unfold bind at 1. unfold get_useMockData. rewrite Hmock.
    unfold mockSmartSearchResult, bind. rewrite E. reflexivity.
Qed.

Lemma priceRangeOf_premium query :
  priceRangeOf query = premiumBracket <-> isApple query && isExpensive query = true.
Proof.
  unfold priceRangeOf, premiumBracket.
  destruct (isApple query && isExpensive query); [split; reflexivity|].
  split; [|discriminate].
  destruct (isElectronics query && isExpensive query); [vm_compute; discriminate|].
  destruct (isElectronics query); [vm_compute; discriminate|].
  destruct (isClothing query); [vm_compute; discriminate|].
  destruct (isHome query); [vm_compute; discriminate|].
  destruct (isBook query); vm_compute; discriminate.
Qed.

(** C8: with mock mode active, [enhanceSearchQuery] of the query iphone
    returns a result whose enhanced query is the query followed by
    [best deals 2024] and whose first category is Electronics, 0.95,
    Smartphones; its price range is the Apple premium bracket only if the
    query matches the expensive keywords, which iphone does not: it gets
    the plain electronics bracket. For every query the premium bracket is
    chosen exactly when the Apple and the expensive keywords both match. *)
Theorem enhanceSearchQuery_iphone_mock (w : World) (st : State) :
  PROD w || useMockData st = true ->
  (exists r st',
      enhanceSearchQuery w (js "iphone") st = (Ok (Typed r), st')
      /\ SmartSearchResult.enhancedQuery r = js "iphone best deals 2024"
      /\ nth_error (SmartSearchResult.categories r) 0
         = Some (cat "Electronics" 0.95 "Smartphones")
      /\ (MarketAnalysis.priceRange (SmartSearchResult.marketAnalysis r) = premiumBracket
          -> isExpensive (js "iphone") = true)
      /\ MarketAnalysis.priceRange (SmartSearchResult.marketAnalysis r)
         = js "₹15,000 - ₹80,000")
  /\ (forall query, exists r st',
        enhanceSearchQuery w query st = (Ok (Typed r), st')
        /\ (MarketAnalysis.priceRange (SmartSearchResult.marketAnalysis r) = premiumBracket
            <-> isApple query && isExpensive query = true)).
Proof.
  intro Hmock. split.
  - destruct (enhanceSearchQuery_mock w (js "iphone") st Hmock) as (r & st' & E & G).
    destruct (generateMockSmartSearchResult_returns w (js "iphone") st)
      as (r0 & st0 & E0 & _ & Hq & Hc & Hp & _).
    rewrite G in E0. injection E0 as <- <-.
    exists r, st'. split; [exact E|].
    rewrite Hq, Hc, Hp.
    repeat split; try (vm_compute; reflexivity).
    vm_compute. discriminate.
  - intro query.
    destruct (enhanceSearchQuery_mock w query st Hmock) as (r & st' & E & G).
    destruct (generateMockSmartSearchResult_returns w query st)
      as (r0 & st0 & E0 & _ & _ & _ & Hp & _).
    rewrite G in E0. injection E0 as <- <-.
    exists r, st'. split; [exact E|].
    rewrite Hp. apply priceRangeOf_premium.
Qed.

Lemma enhanceSearchQuery_iphone_mock_witness :
  PROD Scenario.production || useMockData (construct Scenario.production) = true
  /\ exists r st',
      enhanceSearchQuery Scenario.production (js "iphone")
        (construct Scenario.production) = (Ok (Typed r), st')
      /\ SmartSearchResult.enhancedQuery r = js "iphone best deals 2024"
      /\ MarketAnalysis.priceRange (SmartSearchResult.marketAnalysis r)
         = js "₹15,000 - ₹80,000".
Proof.
  split; [reflexivity|].
  destruct (enhanceSearchQuery_iphone_mock Scenario.production
              (construct Scenario.production) eq_refl)
    as [(r & st' & E & Hq & _ & _ & Hp) _].
  exists r, st'. repeat split; assumption.
Defined.

(* ================================================================= *)
(** ** Response recovery on concrete texts *)

(** C4, as stated, fails: a serialized object in a fenced block between
    prose is not recovered by stage 2 when the prose has a brace of its
    own; the span runs to the last closing brace of the text, no stage
    can parse it and the result is null. *)
Lemma fenced_object_not_recovered :
  JSON_parse Scenario.serialization = Some (JObject [(js "a", JNumber 1 0)])
  /\ stage2 Scenario.fencedWithBraceInProse
     <> Some (JObject [(js "a", JNumber 1 0)])
  /\ stage3 Scenario.fencedWithBraceInProse = None
  /\ safeJsonParse (JString Scenario.fencedWithBraceInProse) = JNull.
Proof. vm_compute. repeat split. discriminate. Qed.

(* ================================================================= *)
(** ** Response recovery of an object between prose *)

Lemma unit_eqb_eq a b : unit_eqb a b = true <-> a = b.
Proof. apply N.eqb_eq. Qed.

Lemma unit_eqb_refl a : unit_eqb a a = true.
Proof. apply N.eqb_refl. Qed.

Lemma unit_eqb_neq a b : a <> b -> unit_eqb a b = false.
Proof. intro H. apply N.eqb_neq. exact H. Qed.

(** [trimStart] removes a part of the prose in front of a text that does
    not start with white space. *)
Lemma trimStart_before (p : jsstring) (c : code_unit) (rest : jsstring) :
  isWhiteSpace c = false ->
  exists p', trimStart (p ++ c :: rest) = p' ++ c :: rest /\ incl p' p.
Proof.
  intro Hc. induction p as [|x p IH]; simpl.
  - rewrite Hc. exists []. split; [reflexivity | apply incl_refl].
  - destruct (isWhiteSpace x).
    + destruct IH as (p' & E & I). exists p'. split; [exact E|].
      apply incl_tl. exact I.
    + exists (x :: p). split; [reflexivity | apply incl_refl].
Qed.

Lemma braceFree_incl p p' : incl p' p -> braceFree p -> braceFree p'.
Proof. intros I [H1 H2]. split; intro X; [apply H1 | apply H2]; apply I, X. Qed.

Lemma braceFree_rev p : braceFree p -> braceFree (rev p).
Proof. intros [H1 H2]. split; intro X; apply in_rev in X; auto. Qed.

Lemma braceFree_app p q : braceFree p -> braceFree q -> braceFree (p ++ q).
Proof.
  intros [H1 H2] [H3 H4]. split; intro X; apply in_app_or in X; tauto.
Qed.

Lemma around_trimStart inner x :
  around (lbrace :: inner ++ [rbrace]) x ->
  around (lbrace :: inner ++ [rbrace]) (trimStart x).
Proof.
  intros (p & q & -> & Hp & Hq).
  destruct (trimStart_before p lbrace ((inner ++ [rbrace]) ++ q) eq_refl) as (p' & E & I).
  exists p', q. split; [|split; [eapply braceFree_incl; eassumption | exact Hq]].
  simpl. simpl in E. exact E.
Qed.

Lemma rev_object inner q p :
  rev (p ++ (lbrace :: inner ++ [rbrace]) ++ q)
  = rev q ++ rbrace :: (rev inner ++ lbrace :: rev p).
Proof.
  rewrite !rev_app_distr. simpl. rewrite !rev_app_distr. simpl.
  repeat (rewrite <- app_assoc; simpl). reflexivity.
Qed.

Lemma around_trimEnd inner x :
  around (lbrace :: inner ++ [rbrace]) x ->
  around (lbrace :: inner ++ [rbrace]) (trimEnd x).
Proof.
  intros (p & q & -> & Hp & Hq). unfold trimEnd.
  rewrite rev_object.
  destruct (trimStart_before (rev q) rbrace (rev inner ++ lbrace :: rev p) eq_refl)
    as (q' & E & I).
  rewrite E. exists p, (rev q'). split; [|split; [exact Hp|]].
  - rewrite <- (rev_involutive (p ++ _ ++ rev q')). f_equal.
    rewrite rev_object, rev_involutive. reflexivity.
  - apply braceFree_rev. eapply braceFree_incl; [exact I|].
    apply braceFree_rev. exact Hq.
Qed.

Lemma around_trim inner x :
  around (lbrace :: inner ++ [rbrace]) x ->
  around (lbrace :: inner ++ [rbrace]) (trim x).
Proof. intro H. unfold trim. apply around_trimEnd, around_trimStart, H. Qed.

(** A prefix without the character [c] of a text ends before the first
    [c] of the text. *)
Lemma startsWith_before (pre p : jsstring) (c : code_unit) (rest : jsstring) :
  startsWith pre (p ++ c :: rest) = true -> ~ In c pre ->
  skipn (List.length pre) (p ++ c :: rest)
  = skipn (List.length pre) p ++ c :: rest
  /\ (List.length pre <= List.length p)%nat.
Proof.
  revert p. induction pre as [|x pre IH]; intros p Hs Hn.
  - simpl. split; [reflexivity | lia].
  - destruct p as [|y p].
    + simpl in Hs. apply andb_prop in Hs. destruct Hs as [Hx _].
      apply unit_eqb_eq in Hx. subst x. exfalso. apply Hn. left. reflexivity.
    + simpl in Hs. apply andb_prop in Hs. destruct Hs as [_ Hs].
      destruct (IH p Hs) as [E L]; [intro X; apply Hn; right; exact X|].
      simpl. split; [exact E | lia].
Qed.

Lemma incl_skipn {A} n (l : list A) : incl (skipn n l) l.
Proof.
  revert l. induction n as [|n IH]; intro l; [apply incl_refl|].
  destruct l as [|a l]; [apply incl_refl|]. simpl. apply incl_tl, IH.
Qed.

Lemma around_strip_prefix inner pre x :
  ~ In lbrace pre ->
  around (lbrace :: inner ++ [rbrace]) x ->
  around (lbrace :: inner ++ [rbrace])
    (if startsWith pre x then substring_from (List.length pre) x else x).
Proof.
  intros Hn Hx. destruct (startsWith pre x) eqn:Hs; [|exact Hx].
  destruct Hx as (p & q & -> & Hp & Hq).
  simpl in Hs.
  destruct (startsWith_before pre p lbrace ((inner ++ [rbrace]) ++ q) Hs Hn) as [E _].
  exists (skipn (List.length pre) p), q. split; [|split; [|exact Hq]].
  - unfold substring_from. simpl. exact E.
  - eapply braceFree_incl; [apply incl_skipn | exact Hp].
Qed.

Lemma around_strip_suffix inner suf x :
  ~ In rbrace suf ->
  around (lbrace :: inner ++ [rbrace]) x ->
  around (lbrace :: inner ++ [rbrace])
    (if endsWith suf x
     then substring_to (List.length x - List.length suf) x else x).
Proof.
  intros Hn Hx. destruct (endsWith suf x) eqn:Hs; [|exact Hx].
  destruct Hx as (p & q & -> & Hp & Hq).
  unfold endsWith in Hs. rewrite rev_object in Hs.
  assert (Hn' : ~ In rbrace (rev suf)) by (intro X; apply in_rev in X; auto).
  destruct (startsWith_before (rev suf) (rev q) rbrace (rev inner ++ lbrace :: rev p) Hs Hn')
    as [E L].
  rewrite length_rev in E.
  unfold substring_to.
  rewrite <- (rev_involutive (firstn _ _)).
  rewrite <- skipn_rev. rewrite rev_object, E.
  exists p, (rev (skipn (List.length suf) (rev q))). split; [|split; [exact Hp|]].
  - rewrite <- (rev_involutive (p ++ _ ++ rev (skipn _ _))). f_equal.
    rewrite rev_object, rev_involutive. reflexivity.
  - apply braceFree_rev. eapply braceFree_incl; [apply incl_skipn|].
    apply braceFree_rev. exact Hq.
Qed.

Lemma up_to_last_absent c s : ~ In c s -> up_to_last c s = None.
Proof.
  induction s as [|x s IH]; intro H; [reflexivity|]. simpl.
  rewrite IH by (intro X; apply H; right; exact X).
  rewrite unit_eqb_neq; [reflexivity|]. intro X. apply H. left. exact X.
Qed.

Lemma up_to_last_closing c inner q :
  ~ In c q -> up_to_last c (inner ++ c :: q) = Some (inner ++ [c]).
Proof.
  intro H. induction inner as [|x inner IH]; simpl.
  - rewrite (up_to_last_absent c q H), unit_eqb_refl. reflexivity.
  - rewrite IH. reflexivity.
Qed.

Lemma leftmost_skip {A} (f : jsstring -> option A) p s :
  (forall c rest, In c p -> f (c :: rest) = None) ->
  leftmost f (p ++ s) = leftmost f s.
Proof.
  intro H. induction p as [|x p IH]; [reflexivity|]. simpl.
  rewrite (H x (p ++ s)) by (left; reflexivity).
  apply IH. intros c rest Hc. apply H. right. exact Hc.
Qed.

Lemma jsonMatch_around inner x :
  around (lbrace :: inner ++ [rbrace]) x ->
  jsonMatch x = Some (lbrace :: inner ++ [rbrace]).
Proof.
  intros (p & q & -> & [Hp _] & [_ Hq]). unfold jsonMatch.
  rewrite leftmost_skip.
  - simpl. rewrite <- app_assoc. simpl.
    rewrite (up_to_last_closing rbrace inner q Hq). reflexivity.
  - intros c rest Hc. unfold span_at.
    rewrite unit_eqb_neq; [reflexivity|]. intro X. subst c. exact (Hp Hc).
Qed.

Lemma fence_has_no_brace :
  ~ In lbrace (js "```json") /\ ~ In lbrace fence /\ ~ In rbrace fence.
Proof.
  repeat split; vm_compute; intro H;
    repeat (destruct H as [H|H]; [discriminate|]); exact H.
Qed.

(** The cleaning pass on an object text that stands between proses
    without braces: the object span is extracted, and then replaced by the
    array span inside it when there is one. *)
Lemma cleanGeminiResponse_object_span inner x :
  around (lbrace :: inner ++ [rbrace]) x ->
  cleanGeminiResponse x
  = match arrayMatch (lbrace :: inner ++ [rbrace]) with
    | Some array => array
    | None => lbrace :: inner ++ [rbrace]
    end.
Proof.
  intros Hx.
  destruct fence_has_no_brace as (F1 & F2 & F3).
  unfold cleanGeminiResponse.
  pose proof (around_trim inner x Hx) as H1.
  set (c1 := trim x) in *.
  assert (H2 : around (lbrace :: inner ++ [rbrace])
                 (if startsWith (js "```json") c1 then substring_from 7 c1
                  else if startsWith fence c1 then substring_from 3 c1 else c1)).
  { destruct (startsWith (js "```json") c1) eqn:S7.
    - pose proof (around_strip_prefix inner (js "```json") c1 F1 H1) as X.
      rewrite S7 in X. exact X.
    - pose proof (around_strip_prefix inner fence c1 F2 H1) as X. exact X. }
  set (c2 := if startsWith (js "```json") c1 then _ else _) in *.
  pose proof (around_strip_suffix inner fence c2 F3 H2) as H3.
  change (List.length fence) with 3%nat in H3.
  set (c3 := if endsWith fence c2 then _ else _) in *.
  pose proof (around_trim inner c3 H3) as H4.
  rewrite (jsonMatch_around inner (trim c3) H4).
  reflexivity.
Qed.

Lemma cleanGeminiResponse_around inner x :
  around (lbrace :: inner ++ [rbrace]) x ->
  arrayMatch (lbrace :: inner ++ [rbrace]) = None ->
  cleanGeminiResponse x = lbrace :: inner ++ [rbrace].
Proof.
  intros Hx Ha. rewrite (cleanGeminiResponse_object_span inner x Hx), Ha. reflexivity.
Qed.

(** C3: stage 2 does not prefer the object. For every object text between
    proses without braces the cleaning pass extracts the object span and
    then replaces it by the array span inside it, when the object has one,
    so that the text parsed is that array span. On the text of
    [Scenario.textArrayInObject], an object with one member whose value is
    the array of 1 and 2, after the word Result, stage 2 parses, and
    [safeJsonParse] returns, the inner array; stage 3, on the same text,
    does take the object. *)
Theorem cleanGeminiResponse_array_replaces_object :
  (forall inner x array,
      around (lbrace :: inner ++ [rbrace]) x ->
      arrayMatch (lbrace :: inner ++ [rbrace]) = Some array ->
      jsonMatch x = Some (lbrace :: inner ++ [rbrace])
      /\ cleanGeminiResponse x = array
      /\ stage2 x = JSON_parse array)
  /\ jsonMatch Scenario.textArrayInObject = Some (js_q "{'a':[1,2]}")
  /\ cleanGeminiResponse Scenario.textArrayInObject = js_q "[1,2]"
  /\ stage1 (JString Scenario.textArrayInObject) = None
  /\ stage2 Scenario.textArrayInObject = Some (JArray [JNumber 1 0; JNumber 2 0])
  /\ stage3 Scenario.textArrayInObject
     = Some (JObject [(js "a", JArray [JNumber 1 0; JNumber 2 0])])
  /\ safeJsonParse (JString Scenario.textArrayInObject)
     = JArray [JNumber 1 0; JNumber 2 0].
Proof.
  split.
  - intros inner x array Hx Ha.
    pose proof (cleanGeminiResponse_object_span inner x Hx) as E.
    rewrite Ha in E. split; [apply jsonMatch_around; exact Hx|].
    split; [exact E|]. unfold stage2. rewrite E. reflexivity.
  - vm_compute. repeat split.
Qed.

Lemma braceFree_check s :
  forallb (fun c => negb (unit_eqb c lbrace || unit_eqb c rbrace)) s = true ->
  braceFree s.
Proof.
  intro H. rewrite forallb_forall in H.
  split; intro X; apply H in X;
    [rewrite unit_eqb_refl in X | rewrite unit_eqb_refl, orb_true_r in X];
    discriminate.
Qed.

Lemma around_fenced inner before after :
  braceFree before -> braceFree after ->
  around (lbrace :: inner ++ [rbrace]) (fenced before (lbrace :: inner ++ [rbrace]) after).
Proof.
  intros Hb Ha. unfold fenced.
  exists (before ++ js "```json" ++ [10%N]), ([10%N] ++ js "```" ++ after).
  split; [rewrite <- !app_assoc; reflexivity|]. split.
  - apply braceFree_app; [exact Hb|]. apply braceFree_check. vm_compute. reflexivity.
  - apply braceFree_app; [apply braceFree_check; vm_compute; reflexivity|].
    apply braceFree_app; [apply braceFree_check; vm_compute; reflexivity | exact Ha].
Qed.

Lemma jsonPattern_around inner before after :
  ~ In lbrace before -> ~ In lbracket before -> ~ In rbrace after ->
  jsonPattern (before ++ (lbrace :: inner ++ [rbrace]) ++ after)
  = Some (lbrace :: inner ++ [rbrace]).
Proof.
  intros H1 H2 H3. unfold jsonPattern. rewrite leftmost_skip.
  - simpl. rewrite <- app_assoc. simpl.
    rewrite (up_to_last_closing rbrace inner after H3). reflexivity.
  - intros c rest Hc. unfold span_at.
    rewrite !unit_eqb_neq; [reflexivity| |]; intro X; subst c; auto.
Qed.

Lemma literal_needs_letter (x : code_unit) (rest word : jsstring) c r :
  word = x :: rest -> (c =? x)%N = false -> startsWith word (c :: r) = false.
Proof.
  intros -> H. cbn [startsWith]. unfold unit_eqb. rewrite N.eqb_sym, H. reflexivity.
Qed.

(** A text that does not begin as a JSON text can is not parsed. *)
Lemma JSON_parse_needs_opening text :
  opensLikeJson text = false -> JSON_parse text = None.
Proof.
  unfold opensLikeJson, JSON_parse. intro H.
  assert (E : forall fuel, parse_value fuel text = None).
  { intros [|fuel]; [reflexivity|]. cbn [parse_value].
    destruct (skip_ws text) as [|c r]; [reflexivity|].
    unfold startsValue in H.
    apply orb_false_iff in H. destruct H as [H Hn].
    apply orb_false_iff in H. destruct H as [H Hf].
    apply orb_false_iff in H. destruct H as [H Ht].
    apply orb_false_iff in H. destruct H as [H Hd].
    apply orb_false_iff in H. destruct H as [H Hm].
    apply orb_false_iff in H. destruct H as [H Hq].
    apply orb_false_iff in H. destruct H as [Ho Ha].
    rewrite Ho, Ha, Hq.
    unfold parse_literal.
    repeat match goal with
      | |- context [startsWith (js ?word) ?l] =>
          replace (startsWith (js word) l) with false
            by (symmetry;
                first [ apply (literal_needs_letter 116%N (js "rue"));
                        [vm_compute; reflexivity | exact Ht]
                      | apply (literal_needs_letter 102%N (js "alse"));
                        [vm_compute; reflexivity | exact Hf]
                      | apply (literal_needs_letter 110%N (js "ull"));
                        [vm_compute; reflexivity | exact Hn] ])
      end.
    unfold parse_number. rewrite Hm. unfold parse_int_part.
    replace (c =? 48)%N with false.
    - rewrite Hd. reflexivity.
    - symmetry. apply N.eqb_neq. intro X. subst c. discriminate Hd. }
  rewrite E. reflexivity.
Qed.

Lemma safeJsonParse_stages text v :
  stage2 text = Some v ->
  safeJsonParse (JString text)
  = match stage1 (JString text) with Some u => u | None => v end.
Proof. intro H2. unfold safeJsonParse. rewrite H2. reflexivity. Qed.

(** C4, amended: let [s] be a text that [JSON.parse] reads as the value
    [v], as a serialization of [v] is, of the form of an object (from an
    opening to a closing brace) and without an opening bracket followed by
    a closing one; let the prose around it have no brace. Then the bare
    text is recovered by stage 1, and [safeJsonParse] returns [v]; in a
    fenced block between the proses it is recovered by stage 2; embedded
    in prose without a fence it is recovered by stage 2 as well, and stage
    3 recovers the same value when the prose before it has no opening
    bracket. Of a wrapped text [safeJsonParse] returns what stage 1 reads
    when the whole text is a JSON text itself, and [v] when it is not, as
    is every text that begins, after white space, with a character with
    which no JSON text begins. *)
Theorem recovery_of_object_between_prose
  (s before after : jsstring) (v : json) :
  JSON_parse s = Some v ->
  objectText s ->
  arrayMatch s = None ->
  braceFree before -> braceFree after ->
  (stage1 (JString s) = Some v /\ safeJsonParse (JString s) = v)
  /\ (stage2 (fenced before s after) = Some v
      /\ safeJsonParse (JString (fenced before s after))
         = match stage1 (JString (fenced before s after)) with
           | Some u => u
           | None => v
           end
      /\ (opensLikeJson (fenced before s after) = false ->
          stage1 (JString (fenced before s after)) = None
          /\ safeJsonParse (JString (fenced before s after)) = v))
  /\ (stage2 (before ++ s ++ after) = Some v
      /\ (~ In lbracket before -> stage3 (before ++ s ++ after) = Some v)
      /\ safeJsonParse (JString (before ++ s ++ after))
         = match stage1 (JString (before ++ s ++ after)) with
           | Some u => u
           | None => v
           end
      /\ (opensLikeJson (before ++ s ++ after) = false ->
          stage1 (JString (before ++ s ++ after)) = None
          /\ safeJsonParse (JString (before ++ s ++ after)) = v)).
Proof.
  intros Hparse (inner & ->) Harr Hb Ha.
  assert (S1 : stage1 (JString (lbrace :: inner ++ [rbrace])) = Some v) by exact Hparse.
  assert (S2f : stage2 (fenced before (lbrace :: inner ++ [rbrace]) after) = Some v).
  { unfold stage2.
    rewrite (cleanGeminiResponse_around inner _ (around_fenced inner before after Hb Ha) Harr).
    exact Hparse. }
  assert (S2p : stage2 (before ++ (lbrace :: inner ++ [rbrace]) ++ after) = Some v).
  { unfold stage2. rewrite (cleanGeminiResponse_around inner); [exact Hparse | | exact Harr].
    exists before, after. repeat split; try apply Hb; try apply Ha. }
  assert (N1 : forall text, opensLikeJson text = false -> stage2 text = Some v ->
                 stage1 (JString text) = None /\ safeJsonParse (JString text) = v).
  { intros text Ho H2.
    assert (E : stage1 (JString text) = None) by exact (JSON_parse_needs_opening text Ho).
    split; [exact E|]. rewrite (safeJsonParse_stages text v H2), E. reflexivity. }
  split; [|split].
  - split; [exact S1|]. unfold safeJsonParse. rewrite S1. reflexivity.
  - split; [exact S2f|]. split; [exact (safeJsonParse_stages _ v S2f)|].
    intro Ho. exact (N1 _ Ho S2f).
  - split; [exact S2p|]. split; [|split; [exact (safeJsonParse_stages _ v S2p)|]].
    + intro Hk. unfold stage3.
      rewrite (jsonPattern_around inner before after);
        [exact Hparse | apply Hb | exact Hk | apply Ha].
    + intro Ho. exact (N1 _ Ho S2p).
Qed.

Lemma recovery_of_object_between_prose_witness :
  let before := js "Here is the JSON:" ++ [10%N] in
  let after := [10%N] ++ js "Hope this helps." in
  let v := JObject [(js "a", JNumber 1 0)] in
  JSON_parse Scenario.serialization = Some v
  /\ braceFree before /\ braceFree after
  /\ stage1 (JString Scenario.serialization) = Some v
  /\ stage2 (fenced before Scenario.serialization after) = Some v
  /\ safeJsonParse (JString (fenced before Scenario.serialization after)) = v
  /\ stage3 (before ++ Scenario.serialization ++ after) = Some v
  /\ safeJsonParse (JString (before ++ Scenario.serialization ++ after)) = v.
Proof.
  intros before after v.
  assert (Hp : JSON_parse Scenario.serialization = Some v) by (vm_compute; reflexivity).
  assert (Hb : braceFree before) by (apply braceFree_check; vm_compute; reflexivity).
  assert (Ha : braceFree after) by (apply braceFree_check; vm_compute; reflexivity).
  assert (Ho : objectText Scenario.serialization).
  { exists (js_q "'a':1"). vm_compute. reflexivity. }
  assert (Hn : arrayMatch Scenario.serialization = None) by (vm_compute; reflexivity).
  destruct (recovery_of_object_between_prose Scenario.serialization before after v
              Hp Ho Hn Hb Ha)
    as ((S1 & _) & (S2 & _ & P2) & (_ & S3 & _ & P3)).
  split; [exact Hp|]. split; [exact Hb|]. split; [exact Ha|].
  split; [exact S1|]. split; [exact S2|]. split; [|split].
  - apply P2. vm_compute. reflexivity.
  - apply S3. vm_compute. intro H. repeat (destruct H as [H|H]; [discriminate|]). exact H.
  - apply P3. vm_compute. reflexivity.
Defined.

(** Between an opening and a closing bracket the object is an element of
    an array, which stage 1 reads: the array is returned, not the
    object. *)
Example object_between_brackets_is_an_array :
  let v := JObject [(js "a", JNumber 1 0)] in
  braceFree [lbracket] /\ braceFree [rbracket]
  /\ stage2 ([lbracket] ++ Scenario.serialization ++ [rbracket]) = Some v
  /\ safeJsonParse (JString ([lbracket] ++ Scenario.serialization ++ [rbracket]))
     = JArray [v].
Proof.
  split; [apply braceFree_check; vm_compute; reflexivity|].
  split; [apply braceFree_check; vm_compute; reflexivity|].
  vm_compute. split; reflexivity.
Qed.

(* ================================================================= *)
(** ** The orchestrator on concrete environments *)

(** C5, as stated, fails: with the default budget of 2 the loop makes
    three attempts, so after two answers 429 the third attempt is made,
    its success is returned and mock mode is not entered. *)
Lemma two_rate_limits_then_success_is_returned :
  let w := Scenario.twoRateLimited in
  let out := makeRequestWithRetry w endpoint1 (js "Hello") timeoutMs
               defaultMaxRetries (construct w) in
  fst out = Ok (Some (mkResponse 200 (js "OK") (Scenario.envelope (js "fine"))))
  /\ fst out <> Ok None
  /\ useMockData (snd out) = false
  /\ List.length (fetchLog (snd out)) = 3%nat.
Proof. vm_compute. repeat split. discriminate. Qed.

(** C6: when the timer fires during a back-off sleep, the next attempt
    throws a plain Error, which no handler takes for a cancellation: the
    loop goes on to the two other endpoints (sleeping there too) and the
    request ends, three seconds after the signal, in the error for
    exhausted endpoints, not in the timeout error. A signal that fires
    during a call in flight does end in the timeout error. *)
Theorem abort_during_backoff_is_not_a_timeout :
  let prompt := js "Hello" in
  let w := Scenario.slowRateLimited in
  let out := makeApiRequest w prompt (construct w) in
  fst (makeRequestWithRetry w endpoint1 prompt timeoutMs
         defaultMaxRetries (construct w))
    = Throw (Error (js "Request was aborted"))
  /\ fst out
     = Throw (Error (js "All Gemini API endpoints failed. Last error: Endpoint "
                       ++ endpoint3 ++ js ": Request was aborted"))
  /\ fst out <> Throw (Error (js "Request timed out. Please try again."))
  /\ clock (snd out) = 33000%N
  /\ List.length (fetchLog (snd out)) = 1%nat
  /\ fst (makeApiRequest Scenario.silent prompt (construct Scenario.silent))
     = Throw (Error (js "Request timed out. Please try again.")).
Proof. vm_compute. repeat split. discriminate. Qed.

(* ================================================================= *)
(** ** Stepping through the orchestrator *)

Lemma bind_Ok {A B} (m : M A) (k : A -> M B) st a st' :
  m st = (Ok a, st') -> bind m k st = k a st'.
Proof. intro E. unfold bind. rewrite E. reflexivity. Qed.

Lemma bind_Throw {A B} (m : M A) (k : A -> M B) st e st' :
  m st = (Throw e, st') -> bind m k st = (Throw e, st').
Proof. intro E. unfold bind. rewrite E. reflexivity. Qed.

Lemma try_catch_Ok {A} (m : M A) h st a st' :
  m st = (Ok a, st') -> try_catch m h st = (Ok a, st').
Proof. intro E. unfold try_catch. rewrite E. reflexivity. Qed.

Lemma try_catch_Throw {A} (m : M A) h st e st' :
  m st = (Throw e, st') -> try_catch m h st = h e st'.
Proof. intro E. unfold try_catch. rewrite E. reflexivity. Qed.

Lemma round53_below (k n : N) :
  (k < two53)%N -> (0 < n)%N -> (round53 (k * n) / two53 < n)%N.
Proof.
  intros Hk Hn. apply N.Div0.div_lt_upper_bound.
  unfold round53.
  destruct (N.ltb_spec (N.log2 (k * n)) 53) as [Hb | Hb].
  { unfold two53 in *. nia. }
  set (p := (k * n)%N) in *.
  assert (Hp : (0 < p)%N).
  { destruct (N.eq_dec p 0) as [E|E]; [|lia]. rewrite E in Hb. simpl in Hb. lia. }
  destruct (N.log2_spec p Hp) as [Hlo _].
  set (b := N.log2 p) in *.
  set (d := (b - 52)%N).
  assert (Hd : (2 ^ d = 2 * 2 ^ (d - 1))%N).
  { replace d with (N.succ (d - 1)) at 1 by (unfold d; lia). apply N.pow_succ_r'. }
  assert (Hb53 : (2 ^ b = 2 ^ (d - 1) * two53)%N).
  { replace b with ((d - 1) + 53)%N at 1 by (unfold d; lia).
    rewrite N.pow_add_r. reflexivity. }
  assert (Hpos : (0 < 2 ^ (d - 1))%N)
    by (apply N.neq_0_lt_0, N.pow_nonzero; discriminate).
  assert (Hhalf : (2 ^ (d - 1) < n)%N).
  { unfold two53 in *. nia. }
  assert (Hdiv : (p = 2 ^ d * (p / 2 ^ d) + p mod 2 ^ d)%N).
  { apply N.div_mod. rewrite Hd. lia. }
  assert (Hmod : (p mod 2 ^ d < 2 ^ d)%N).
  { apply N.mod_lt. rewrite Hd. lia. }
  set (q := (p / 2 ^ d)%N) in *. set (r := (p mod 2 ^ d)%N) in *.
  assert (Hle : ((if (r <? 2 ^ (d - 1))%N then q
                  else if (2 ^ (d - 1) <? r)%N then q + 1
                  else if N.even q then q else q + 1) * 2 ^ d
                 <= p + 2 ^ (d - 1))%N).
  { destruct (N.ltb_spec r (2 ^ (d - 1))); [nia|].
    destruct (N.ltb_spec (2 ^ (d - 1)) r); [nia|].
    destruct (N.even q); nia. }
  unfold two53 in *. nia.
Qed.

Lemma random_below_returns w n st :
  exists j, random_below w n st = (Ok j, withRandomDrawn st)
            /\ ((0 < n)%N -> (j < n)%N).
Proof.
  eexists. split; [reflexivity|]. intro Hn.
  apply round53_below; [|exact Hn].
  apply N.mod_lt. discriminate.
Qed.

(** The product is rounded before the floor is taken: the draw
    0.6666666666666666 of three gives the index 2, where the exact product
    lies below 2. *)
Example random_below_rounds_the_product :
  let r := 6004799503160661%N in
  (r * 3 / two53 = 1)%N /\ (round53 (r * 3) / two53 = 2)%N.
Proof. vm_compute. split; reflexivity. Qed.

Lemma fetch_answered w url prompt signal st r :
  (clock st + latency (network w url (List.length (fetchLog st))) < signal)%N ->
  result (network w url (List.length (fetchLog st))) = Responds r ->
  fetch w url prompt signal st
  = (Ok r, logged url prompt
             (clock st + latency (network w url (List.length (fetchLog st)))) st).
Proof.
  intros Ht Hr. unfold fetch.
  destruct (N.leb_spec signal (clock st)); [lia|].
  destruct (N.ltb_spec (clock st + latency (network w url (List.length (fetchLog st)))) signal); [|lia].
  rewrite Hr. reflexivity.
Qed.

Lemma attemptOnce_answered w endpoint prompt signal maxRetries attempt last st r :
  (clock st + latency (network w (urlOf endpoint st) (List.length (fetchLog st))) < signal)%N ->
  result (network w (urlOf endpoint st) (List.length (fetchLog st))) = Responds r ->
  exists jitter st1, (jitter < 1000)%N /\
  st1 = logged (urlOf endpoint st) prompt
             (clock st + latency (network w (urlOf endpoint st) (List.length (fetchLog st)))) st /\
  attemptOnce w endpoint prompt signal maxRetries attempt last st =
    if ok r then (Ok (Return (Some r)), st1)
    else if (status r =? 429)%Z then
      if (attempt <? maxRetries)%nat
      then (Ok (Continue (Some r)),
            withClock (clock st1 + (2 ^ N.of_nat attempt * 2000 + jitter))
              (withRandomDrawn st1))
      else (Ok (Return None), if PROD w then st1 else withMockData true st1)
    else (Ok (Return (Some r)), st1).
Proof.
  intros Ht Hr.
  pose proof (@fetch_answered w (urlOf endpoint st) prompt signal st r Ht Hr) as Hf.
  set (st1 := logged _ _ _ st) in *.
  destruct (random_below_returns w 1000 st1) as (j & Hj & Hlt).
  exists j, st1. split; [apply Hlt; reflexivity|]. split; [reflexivity|].
  unfold attemptOnce. unfold try_catch, bind at 1. unfold aborted.
  destruct (N.leb_spec signal (clock st)); [lia|].
  unfold bind at 1. unfold bind at 1. fold (urlOf endpoint st). rewrite Hf.
  destruct (ok r).
  - reflexivity.
  - destruct (status r =? 429)%Z.
    + destruct (attempt <? maxRetries)%nat.
      * unfold bind. rewrite Hj. reflexivity.
      * unfold bind, forceMockMode. destruct (PROD w); reflexivity.
    + reflexivity.
Qed.

Lemma rate_limited_not_ok r : status r = 429%Z -> ok r = false.
Proof. intro H. unfold ok. rewrite H. reflexivity. Qed.

Lemma attemptOnce_rate_limited_retry w endpoint prompt signal maxRetries attempt last st l r :
  network w (urlOf endpoint st) (List.length (fetchLog st)) = mkOutcome l (Responds r) ->
  status r = 429%Z ->
  (clock st + l < signal)%N ->
  (attempt < maxRetries)%nat ->
  exists st',
    attemptOnce w endpoint prompt signal maxRetries attempt last st
    = (Ok (Continue (Some r)), st')
    /\ answeredAt endpoint prompt st st'
    /\ useMockData st' = useMockData st
    /\ (clock st' < clock st + l + 2 ^ N.of_nat attempt * 2000 + 1000)%N.
Proof.
  intros Hnet Hs Ht Ha.
  destruct (@attemptOnce_answered w endpoint prompt signal maxRetries attempt last st r)
    as (j & st1 & Hj & Hst1 & E).
  { rewrite Hnet. exact Ht. }
  { rewrite Hnet. reflexivity. }
  rewrite (rate_limited_not_ok r Hs), Hs in E. simpl in E.
  apply Nat.ltb_lt in Ha. rewrite Ha in E.
  eexists. split; [exact E|].
  subst st1. rewrite Hnet. simpl.
  repeat split. lia.
Qed.

Lemma attemptOnce_rate_limited_last w endpoint prompt signal maxRetries attempt last st l r :
  network w (urlOf endpoint st) (List.length (fetchLog st)) = mkOutcome l (Responds r) ->
  status r = 429%Z ->
  (clock st + l < signal)%N ->
  (maxRetries <= attempt)%nat ->
  exists st',
    attemptOnce w endpoint prompt signal maxRetries attempt last st
    = (Ok (Return None), st')
    /\ answeredAt endpoint prompt st st'
    /\ useMockData st' = (if PROD w then useMockData st else true)
    /\ clock st' = (clock st + l)%N.
Proof.
  intros Hnet Hs Ht Ha.
  destruct (@attemptOnce_answered w endpoint prompt signal maxRetries attempt last st r)
    as (j & st1 & Hj & Hst1 & E).
  { rewrite Hnet. exact Ht. }
  { rewrite Hnet. reflexivity. }
  rewrite (rate_limited_not_ok r Hs), Hs in E. simpl in E.
  apply Nat.ltb_ge in Ha. rewrite Ha in E.
  eexists. split; [exact E|].
  subst st1. rewrite Hnet.
  destruct (PROD w); simpl; repeat split.
Qed.

Lemma attemptOnce_response w endpoint prompt signal maxRetries attempt last st l r :
  network w (urlOf endpoint st) (List.length (fetchLog st)) = mkOutcome l (Responds r) ->
  status r <> 429%Z \/ ok r = true ->
  (clock st + l < signal)%N ->
  attemptOnce w endpoint prompt signal maxRetries attempt last st
  = (Ok (Return (Some r)), logged (urlOf endpoint st) prompt (clock st + l) st).
Proof.
  intros Hnet Hs Ht.
  destruct (@attemptOnce_answered w endpoint prompt signal maxRetries attempt last st r)
    as (j & st1 & Hj & Hst1 & E).
  { rewrite Hnet. exact Ht. }
  { rewrite Hnet. reflexivity. }
  rewrite Hnet in Hst1. simpl in Hst1. subst st1. rewrite E.
  destruct (ok r) eqn:Hok; [reflexivity|].
  destruct Hs as [Hs|Hs]; [|discriminate].
  apply Z.eqb_neq in Hs. rewrite Hs. reflexivity.
Qed.

Lemma answeredAt_next endpoint prompt st st' :
  answeredAt endpoint prompt st st' ->
  urlOf endpoint st' = urlOf endpoint st
  /\ List.length (fetchLog st') = S (List.length (fetchLog st)).
Proof.
  intros [Hk Hl]. unfold urlOf. rewrite Hk, Hl, length_app. simpl.
  split; [reflexivity | lia].
Qed.

(** Three answers 429 in a row, all before the signal fires: the routine
    gives up after the third and enters mock mode. *)
Lemma makeRequestWithRetry_exhausted w endpoint prompt signal st r0 r1 r2 l0 l1 l2 :
  PROD w = false ->
  network w (urlOf endpoint st) (List.length (fetchLog st))
    = mkOutcome l0 (Responds r0) -> status r0 = 429%Z ->
  network w (urlOf endpoint st) (S (List.length (fetchLog st)))
    = mkOutcome l1 (Responds r1) -> status r1 = 429%Z ->
  network w (urlOf endpoint st) (S (S (List.length (fetchLog st))))
    = mkOutcome l2 (Responds r2) -> status r2 = 429%Z ->
  (clock st + l0 + l1 + l2 + 8000 <= signal)%N ->
  exists st',
    makeRequestWithRetry w endpoint prompt signal defaultMaxRetries st = (Ok None, st')
    /\ useMockData st' = true
    /\ apiKey st' = apiKey st
    /\ map fetchUrl (fetchLog st')
       = map fetchUrl (fetchLog st)
           ++ [urlOf endpoint st; urlOf endpoint st; urlOf endpoint st].
Proof.
  intros HP N0 S0 N1 S1 N2 S2 Ht.
  unfold makeRequestWithRetry, defaultMaxRetries. rewrite HP.
  assert (T0 : (clock st + l0 < signal)%N) by lia.
  assert (B0 : (0 < 2)%nat) by lia.
  destruct (@attemptOnce_rate_limited_retry w endpoint prompt signal 2 0 None st l0 r0
              N0 S0 T0 B0) as (st1 & E1 & A1 & M1 & C1).
  change (2 ^ N.of_nat 0 * 2000)%N with 2000%N in C1.
  destruct (answeredAt_next _ _ _ _ A1) as [U1 L1].
  rewrite <- U1, <- L1 in N1, N2.
  assert (T1 : (clock st1 + l1 < signal)%N) by lia.
  assert (B1 : (1 < 2)%nat) by lia.
  destruct (@attemptOnce_rate_limited_retry w endpoint prompt signal 2 1 (Some r0) st1 l1 r1
              N1 S1 T1 B1) as (st2 & E2 & A2 & M2 & C2).
  change (2 ^ N.of_nat 1 * 2000)%N with 4000%N in C2.
  destruct (answeredAt_next _ _ _ _ A2) as [U2 L2].
  rewrite <- U2, <- L2 in N2.
  assert (T2 : (clock st2 + l2 < signal)%N) by lia.
  assert (B2 : (2 <= 2)%nat) by lia.
  destruct (@attemptOnce_rate_limited_last w endpoint prompt signal 2 2 (Some r1) st2 l2 r2
              N2 S2 T2 B2) as (st3 & E3 & A3 & M3 & C3).
  exists st3. split.
  - simpl attempts.
    rewrite (bind_Ok _ _ _ _ _ E1). simpl.
    rewrite (bind_Ok _ _ _ _ _ E2). simpl.
    rewrite (bind_Ok _ _ _ _ _ E3). reflexivity.
  - rewrite HP in M3.
    destruct A1 as [K1 F1], A2 as [K2 F2], A3 as [K3 F3].
    repeat split; [exact M3 | congruence |].
    rewrite F3, F2, F1, U2, U1. rewrite !map_app. simpl.
    rewrite <- !app_assoc. reflexivity.
Qed.

Lemma makeRequestWithRetry_response w endpoint prompt signal maxRetries st l r :
  PROD w = false ->
  network w (urlOf endpoint st) (List.length (fetchLog st)) = mkOutcome l (Responds r) ->
  status r <> 429%Z \/ ok r = true ->
  (clock st + l < signal)%N ->
  makeRequestWithRetry w endpoint prompt signal maxRetries st
  = (Ok (Some r), logged (urlOf endpoint st) prompt (clock st + l) st).
Proof.
  intros HP Hnet Hs Ht. unfold makeRequestWithRetry. rewrite HP. simpl attempts.
  rewrite (bind_Ok _ _ _ _ _
             (attemptOnce_response w endpoint prompt signal maxRetries 0 None st l r Hnet Hs Ht)).
  reflexivity.
Qed.

(** The three ways in which the loop over the endpoints takes a step. *)
Lemma tryEndpoints_sentinel w endpoint rest prompt signal response lastError st st1 text st2 :
  makeRequestWithRetry w endpoint prompt signal defaultMaxRetries st = (Ok None, st1) ->
  generateMockResponse w prompt st1 = (Ok text, st2) ->
  tryEndpoints w (endpoint :: rest) prompt signal response lastError st
  = (Ok (MockReply text), st2).
Proof.
  intros E G. simpl tryEndpoints. unfold try_catch, bind at 1. unfold bind at 1.
  rewrite E. unfold bind at 1. rewrite G. reflexivity.
Qed.

Lemma tryEndpoints_success w endpoint rest prompt signal response lastError st r st1 :
  makeRequestWithRetry w endpoint prompt signal defaultMaxRetries st = (Ok (Some r), st1) ->
  ok r = true ->
  tryEndpoints w (endpoint :: rest) prompt signal response lastError st
  = (Ok (LoopDone (Some r) lastError), st1).
Proof.
  intros E Hok. simpl tryEndpoints. unfold try_catch, bind at 1. unfold bind at 1.
  rewrite E, Hok. reflexivity.
Qed.

Lemma tryEndpoints_failure w endpoint rest prompt signal response lastError st r st1 :
  makeRequestWithRetry w endpoint prompt signal defaultMaxRetries st = (Ok (Some r), st1) ->
  ok r = false ->
  tryEndpoints w (endpoint :: rest) prompt signal response lastError st
  = tryEndpoints w rest prompt signal (Some r)
      (js "Endpoint " ++ endpoint ++ js ": " ++ string_of_Z (status r)
         ++ js " " ++ statusText r) st1.
Proof.
  intros E Hok. simpl tryEndpoints. unfold try_catch, bind at 1. unfold bind at 1.
  rewrite E, Hok. reflexivity.
Qed.

Lemma tryEndpoints_error w endpoint rest prompt signal response lastError st e st1 :
  makeRequestWithRetry w endpoint prompt signal defaultMaxRetries st = (Throw e, st1) ->
  str_eqb (name e) (js "AbortError") = false ->
  tryEndpoints w (endpoint :: rest) prompt signal response lastError st
  = tryEndpoints w rest prompt signal response
      (js "Endpoint " ++ endpoint ++ js ": " ++ message e) st1.
Proof.
  intros E Hname. simpl tryEndpoints. unfold try_catch, bind at 1. unfold bind at 1.
  rewrite E, Hname. reflexivity.
Qed.

Lemma extractText_envelope w data text st :
  envelopeWithText data text ->
  extractText w data st = (Ok (JString text), st).
Proof.
  intros (m & cm & pm & tm & o1 & o2 & -> & H1 & H2 & H3 & H4).
  unfold extractText, bind, lift, get, get0, ret. simpl.
  rewrite H1. simpl. rewrite H2. simpl. rewrite H3. simpl. rewrite H4.
  destruct text; reflexivity.
Qed.

Lemma makeApiRequest_live w prompt st :
  live w st ->
  makeApiRequest w prompt st =
    try_catch
      (exit <- tryEndpoints w endpoints prompt (clock st + timeoutMs)%N None [] ;;
       match exit with
       | MockReply text => ret (Plain (JString text))
       | LoopDone (Some response) lastError =>
           if ok response then
             data <- response_json w response ;;
             text <- extractText w data ;;
             ret (Plain text)
           else
             (if includes (js "429") lastError then forceMockMode w else ret tt) ;;;
             throw (Error (js "All Gemini API endpoints failed. Last error: "
                             ++ lastError))
       | LoopDone None lastError =>
           (if includes (js "429") lastError then forceMockMode w else ret tt) ;;;
           throw (Error (js "All Gemini API endpoints failed. Last error: "
                           ++ lastError))
       end)
      (fun error =>
         if str_eqb (name error) (js "AbortError")
            || includes (js "timed out") (message error)
         then throw (Error (js "Request timed out. Please try again."))
         else if includes (js "Failed to fetch") (message error)
         then throw (Error (js "Network error. Please check your internet connection."))
         else if includes (js "No internet connection") (message error)
         then throw (Error (js "No internet connection. Please check your network."))
         else throw error) st.
Proof.
  intros (HP & HM & HO). unfold makeApiRequest. rewrite HP.
  unfold bind at 1. unfold get_useMockData. rewrite HM.
  unfold bind at 1. unfold get_clock.
  unfold try_catch. unfold bind at 1. rewrite HO. reflexivity.
Qed.

(** C7: when the first endpoint answers with an HTTP failure other than
    429 and the second with an HTTP success (both before the timer of the
    request fires) whose body is a well-formed envelope, [makeApiRequest]
    returns the model text of the second answer, and the two calls are the
    only ones issued: no request goes to the third endpoint. *)
Theorem makeApiRequest_falls_back_to_second_endpoint
  (w : World) (prompt : jsstring) (st : State) (r1 r2 : Response) (l1 l2 : N)
  (data : json) (text : jsstring) :
  live w st ->
  network w (urlOf endpoint1 st) (List.length (fetchLog st))
    = mkOutcome l1 (Responds r1) ->
  ok r1 = false -> status r1 <> 429%Z ->
  network w (urlOf endpoint2 st) (S (List.length (fetchLog st)))
    = mkOutcome l2 (Responds r2) ->
  ok r2 = true ->
  (l1 + l2 < timeoutMs)%N ->
  JSON_parse (body r2) = Some data ->
  envelopeWithText data text ->
  exists st',
    makeApiRequest w prompt st = (Ok (Plain (JString text)), st')
    /\ map fetchUrl (fetchLog st')
       = map fetchUrl (fetchLog st) ++ [urlOf endpoint1 st; urlOf endpoint2 st]
    /\ useMockData st' = false.
Proof.
  intros Hlive N1 K1 S1 N2 K2 Ht Hparse Henv.
  pose proof Hlive as (HP & HM & HO).
  set (signal := (clock st + timeoutMs)%N).
  set (st1 := logged (urlOf endpoint1 st) prompt (clock st + l1) st).
  set (st2 := logged (urlOf endpoint2 st1) prompt (clock st1 + l2) st1).
  assert (E1 : makeRequestWithRetry w endpoint1 prompt signal defaultMaxRetries st
               = (Ok (Some r1), st1)).
  { apply makeRequestWithRetry_response; auto. unfold signal. lia. }
  assert (E2 : makeRequestWithRetry w endpoint2 prompt signal defaultMaxRetries st1
               = (Ok (Some r2), st2)).
  { apply makeRequestWithRetry_response; auto.
    - unfold st1. cbn [logged fetchLog]. rewrite length_app. cbn [List.length].
      rewrite Nat.add_1_r. exact N2.
    - unfold st1, signal. simpl. lia. }
  exists st2. split; [|split].
  - rewrite (makeApiRequest_live w prompt st Hlive). fold signal.
    apply try_catch_Ok.
    assert (L : tryEndpoints w endpoints prompt signal None [] st
                = (Ok (LoopDone (Some r2)
                         (js "Endpoint " ++ endpoint1 ++ js ": "
                            ++ string_of_Z (status r1) ++ js " " ++ statusText r1)),
                   st2)).
    { unfold endpoints.
      rewrite (tryEndpoints_failure _ _ _ _ _ _ _ _ _ _ E1 K1).
      apply (tryEndpoints_success _ _ _ _ _ _ _ _ _ _ E2 K2). }
    rewrite (bind_Ok _ _ _ _ _ L). rewrite K2.
    unfold bind at 1. unfold response_json. rewrite Hparse. unfold ret at 1.
    unfold bind. rewrite (extractText_envelope w data text st2 Henv). reflexivity.
  - unfold st2, st1. cbn [logged fetchLog]. rewrite !map_app. cbn [map fetchUrl].
    rewrite <- app_assoc. reflexivity.
  - exact HM.
Qed.

Lemma tryEndpoints_reaches w prompt signal eps st st1 :
  reachesSentinel w prompt signal eps st st1 ->
  forall response lastError text st2,
    generateMockResponse w prompt st1 = (Ok text, st2) ->
    tryEndpoints w eps prompt signal response lastError st = (Ok (MockReply text), st2).
Proof.
  induction 1 as [endpoint rest st st1 E
                 | endpoint rest st r st1 st2 E Hok _ IH
                 | endpoint rest st e st1 st2 E Hname _ IH];
    intros response lastError text st' G.
  - exact (tryEndpoints_sentinel _ _ _ _ _ _ _ _ _ _ _ E G).
  - rewrite (tryEndpoints_failure _ _ _ _ _ _ _ _ _ _ E Hok). apply IH. exact G.
  - rewrite (tryEndpoints_error _ _ _ _ _ _ _ _ _ _ E Hname). apply IH. exact G.
Qed.

Lemma makeApiRequest_mock_structured w prompt st :
  PROD w || useMockData st = true ->
  isStructuredPrompt prompt = true ->
  exists r st', makeApiRequest w prompt st = (Ok (Structured r), st').
Proof.
  intros Hmock Hs.
  destruct (generateMockSmartSearchResult_returns w (extractQueryFromPrompt prompt) st)
    as (r & st' & E & _).
  exists r, st'.
  assert (Hm : mockFor w prompt st = (Ok (Structured r), st')).
  { unfold mockFor. rewrite Hs. unfold bind. rewrite E. reflexivity. }
  unfold makeApiRequest. destruct (PROD w); [exact Hm|].
  simpl in Hmock. unfold bind, get_useMockData. rewrite Hmock. exact Hm.
Qed.

(** C10: when the retry routine gives the sentinel on some endpoint, the
    request returns the conversational reply of [generateMockResponse] for
    the prompt, a string, whatever the prompt is; for a prompt with the
    markers of a structured request the short-circuit of mock mode returns
    the structured mock object instead. *)
Theorem makeApiRequest_sentinel_gives_conversational_reply
  (w : World) (prompt : jsstring) (st st1 : State) :
  live w st ->
  reachesSentinel w prompt (clock st + timeoutMs)%N endpoints st st1 ->
  (exists text st2,
      generateMockResponse w prompt st1 = (Ok text, st2)
      /\ makeApiRequest w prompt st = (Ok (Plain (JString text)), st2))
  /\ (isStructuredPrompt prompt = true ->
      exists r st2, makeApiRequest w prompt (withMockData true st) = (Ok (Structured r), st2)).
Proof.
  intros Hlive Hreach. split.
  - destruct (quiet_generateMockResponse w prompt st1) as (text & st2 & G & _).
    exists text, st2. split; [exact G|].
    rewrite (makeApiRequest_live w prompt st Hlive).
    apply try_catch_Ok.
    rewrite (bind_Ok _ _ _ _ _ (tryEndpoints_reaches _ _ _ _ _ _ Hreach None [] text st2 G)).
    reflexivity.
  - intro Hs. apply makeApiRequest_mock_structured; [|exact Hs].
    simpl. apply orb_true_r.
Qed.

Lemma makeApiRequest_falls_back_to_second_endpoint_witness :
  live Scenario.fallback (construct Scenario.fallback)
  /\ exists st',
      makeApiRequest Scenario.fallback (js "Hello") (construct Scenario.fallback)
      = (Ok (Plain (JString (js "fine"))), st')
      /\ map fetchUrl (fetchLog st')
         = [urlOf endpoint1 (construct Scenario.fallback);
            urlOf endpoint2 (construct Scenario.fallback)].
Proof.
  split; [repeat split|].
  destruct (makeApiRequest_falls_back_to_second_endpoint Scenario.fallback (js "Hello")
              (construct Scenario.fallback)
              (mkResponse 500 (js "Internal Server Error") [])
              (mkResponse 200 (js "OK") (Scenario.envelope (js "fine")))
              100 100
              (JObject [(js "candidates",
                         JArray [JObject [(js "content",
                           JObject [(js "parts",
                             JArray [JObject [(js "text", JString (js "fine"))]])])]])])
              (js "fine"))
    as (st' & E & L & _).
  - repeat split.
  - vm_compute. reflexivity.
  - reflexivity.
  - discriminate.
  - vm_compute. reflexivity.
  - reflexivity.
  - reflexivity.
  - vm_compute. reflexivity.
  - do 6 eexists. repeat split; vm_compute; reflexivity.
  - exists st'. split; [exact E | exact L].
Defined.

Lemma makeApiRequest_sentinel_gives_conversational_reply_witness :
  let w := Scenario.threeRateLimited in
  let prompt := enhancePrompt (js "iphone") in
  live w (construct w)
  /\ isStructuredPrompt prompt = true
  /\ exists st1 text st2,
      reachesSentinel w prompt (clock (construct w) + timeoutMs)%N endpoints
        (construct w) st1
      /\ generateMockResponse w prompt st1 = (Ok text, st2)
      /\ makeApiRequest w prompt (construct w) = (Ok (Plain (JString text)), st2).
Proof.
  intros w prompt.
  split; [repeat split|]. split; [vm_compute; reflexivity|].
  set (out := makeRequestWithRetry w endpoint1 prompt
                (clock (construct w) + timeoutMs)%N defaultMaxRetries (construct w)).
  assert (R : reachesSentinel w prompt (clock (construct w) + timeoutMs)%N endpoints
                (construct w) (snd out)).
  { apply sentinel_here. vm_compute. reflexivity. }
  destruct (makeApiRequest_sentinel_gives_conversational_reply w prompt (construct w)
              (snd out)) as [(text & st2 & G & E) _].
  - repeat split.
  - exact R.
  - exists (snd out), text, st2. repeat split; assumption.
Defined.

(* ================================================================= *)
(** ** Mock mode is final, and fetches are issued only outside it *)

Lemma fetchedLive_refl st : fetchedLive st st.
Proof. exists []. split; [symmetry; apply app_nil_r | constructor]. Qed.

Lemma fetchedLive_trans st1 st2 st3 :
  fetchedLive st1 st2 -> fetchedLive st2 st3 -> fetchedLive st1 st3.
Proof.
  intros (n1 & E1 & F1) (n2 & E2 & F2). exists (n1 ++ n2). split.
  - rewrite E2, E1, app_assoc. reflexivity.
  - apply Forall_app. split; assumption.
Qed.

Lemma fetchedLive_same_log st st' : fetchLog st' = fetchLog st -> fetchedLive st st'.
Proof. intro E. exists []. split; [rewrite app_nil_r; exact E | constructor]. Qed.

Lemma noFetch_ret {A} (a : A) : noFetch (ret a).
Proof. intro st. split; [reflexivity | auto]. Qed.

Lemma noFetch_throw {A} e : noFetch (@throw A e).
Proof. intro st. split; [reflexivity | auto]. Qed.

Lemma noFetch_bind {A B} (m : M A) (k : A -> M B) :
  noFetch m -> (forall a, noFetch (k a)) -> noFetch (bind m k).
Proof.
  intros Hm Hk st. unfold bind. destruct (Hm st) as [L1 F1].
  destruct (m st) as [[a|e] st1]; simpl in *.
  - destruct (Hk a st1) as [L2 F2]. split; [congruence | auto].
  - split; assumption.
Qed.

Lemma noFetch_try_catch {A} (m : M A) (h : Exn -> M A) :
  noFetch m -> (forall e, noFetch (h e)) -> noFetch (try_catch m h).
Proof.
  intros Hm Hh st. unfold try_catch. destruct (Hm st) as [L1 F1].
  destruct (m st) as [[a|e] st1]; simpl in *.
  - split; assumption.
  - destruct (Hh e st1) as [L2 F2]. split; [congruence | auto].
Qed.

Lemma noFetch_quiet {A} (m : M A) : quiet m -> noFetch m.
Proof.
  intros Hq st. destruct (Hq st) as (a & st' & E & _ & HM & _ & HL).
  rewrite E. simpl. split; [exact HL | congruence].
Qed.

Lemma noFetch_forceMockMode w : noFetch (forceMockMode w).
Proof.
  intro st. unfold forceMockMode. destruct (PROD w); simpl; split; auto.
Qed.

Lemma noFetch_set_true : noFetch (set_useMockData true).
Proof. intro st. split; reflexivity. Qed.

Lemma noFetch_sleep ms : noFetch (sleep ms).
Proof. intro st. split; [reflexivity | auto]. Qed.

Lemma noFetch_random_below w n : noFetch (random_below w n).
Proof. intro st. split; [reflexivity | auto]. Qed.

Lemma noFetch_lift w {A} (x : option A) : noFetch (lift w x).
Proof. destruct x; [apply noFetch_ret | apply noFetch_throw]. Qed.

Lemma noFetch_response_json w r : noFetch (response_json w r).
Proof.
  unfold response_json. destruct (JSON_parse (body r));
    [apply noFetch_ret | apply noFetch_throw].
Qed.

Ltac no_fetch :=
  repeat first
    [ apply noFetch_ret | apply noFetch_throw | apply noFetch_forceMockMode
    | apply noFetch_sleep | apply noFetch_random_below | apply noFetch_lift
    | apply noFetch_response_json | apply noFetch_set_true
    | apply noFetch_bind; [|intros]
    | apply noFetch_try_catch; [|intros]
    | match goal with
      | |- noFetch (if ?c then _ else _) => destruct c
      | |- noFetch (match ?x with _ => _ end) => destruct x
      end ].

Lemma noFetch_extractText w data : noFetch (extractText w data).
Proof. unfold extractText. no_fetch. Qed.

Lemma disciplined_noFetch {A} (m : M A) : noFetch m -> disciplined m.
Proof.
  intros H st. destruct (H st) as [L F]. split.
  - intro HM. split; [auto | exact L].
  - apply fetchedLive_same_log. exact L.
Qed.

Lemma disciplined_bind {A B} (m : M A) (k : A -> M B) :
  disciplined m -> (forall a, disciplined (k a)) -> disciplined (bind m k).
Proof.
  intros Hm Hk st. unfold bind. destruct (Hm st) as [M1 F1].
  destruct (m st) as [[a|e] st1]; simpl in *.
  - destruct (Hk a st1) as [M2 F2]. split.
    + intro HM. destruct (M1 HM) as [X1 Y1]. destruct (M2 X1) as [X2 Y2].
      split; congruence.
    + eapply fetchedLive_trans; eassumption.
  - split; assumption.
Qed.

Lemma disciplined_try_catch {A} (m : M A) (h : Exn -> M A) :
  disciplined m -> (forall e, disciplined (h e)) -> disciplined (try_catch m h).
Proof.
  intros Hm Hh st. unfold try_catch. destruct (Hm st) as [M1 F1].
  destruct (m st) as [[a|e] st1]; simpl in *.
  - split; assumption.
  - destruct (Hh e st1) as [M2 F2]. split.
    + intro HM. destruct (M1 HM) as [X1 Y1]. destruct (M2 X1) as [X2 Y2].
      split; congruence.
    + eapply fetchedLive_trans; eassumption.
Qed.

Lemma steady_liveStep {A} (flips : A -> Prop) (m : M A) : steady m -> liveStep flips m.
Proof.
  intros H st HM. destruct (H st HM) as [F M']. split; [exact F|].
  intro X. congruence.
Qed.

Lemma steady_calm {A} (m : M A) :
  (forall st, fetchLog (snd (m st)) = fetchLog st
              /\ useMockData (snd (m st)) = useMockData st) ->
  steady m.
Proof.
  intros H st HM. destruct (H st) as [L F]. split.
  - apply fetchedLive_same_log. exact L.
  - congruence.
Qed.

Lemma steady_ret {A} (a : A) : steady (ret a).
Proof. apply steady_calm. intro st. split; reflexivity. Qed.

Lemma steady_throw {A} e : steady (@throw A e).
Proof. apply steady_calm. intro st. split; reflexivity. Qed.

Lemma steady_bind {A B} (m : M A) (k : A -> M B) :
  steady m -> (forall a, steady (k a)) -> steady (bind m k).
Proof.
  intros Hm Hk st HM. unfold bind. destruct (Hm st HM) as [F1 M1].
  destruct (m st) as [[a|e] st1]; simpl in *.
  - destruct (Hk a st1 M1) as [F2 M2]. split; [|exact M2].
    eapply fetchedLive_trans; eassumption.
  - split; assumption.
Qed.

Lemma steady_sleep ms : steady (sleep ms).
Proof. apply steady_calm. intro st. split; reflexivity. Qed.

Lemma steady_random_below w n : steady (random_below w n).
Proof. apply steady_calm. intro st. split; reflexivity. Qed.

Lemma steady_aborted signal : steady (aborted signal).
Proof. apply steady_calm. intro st. split; reflexivity. Qed.

Lemma steady_fetch w url prompt signal : steady (fetch w url prompt signal).
Proof.
  intros st HM.
  assert (Hlog : forall t, fetchedLive st (logged url prompt t st)).
  { intro t. exists [mkFetch url prompt (useMockData st)].
    split; [reflexivity|]. constructor; [exact HM | constructor]. }
  unfold fetch.
  destruct (signal <=? clock st)%N; [split; [apply Hlog | exact HM]|].
  destruct (clock st + latency _ <? signal)%N; split; try apply Hlog; exact HM.
Qed.

Lemma steady_quiet {A} (m : M A) : quiet m -> steady m.
Proof.
  intros Hq. apply steady_calm. intro st.
  destruct (Hq st) as (a & st' & E & _ & HM & _ & HL). rewrite E. split; assumption.
Qed.

Lemma liveStep_bind {A B} (fa : A -> Prop) (fb : B -> Prop) (m : M A) (k : A -> M B) :
  liveStep fa m ->
  (forall a, liveStep fb (k a)) ->
  (forall a, fa a -> closes fb (k a)) ->
  liveStep fb (bind m k).
Proof.
  intros Hm Hk Hc st HM. unfold bind. destruct (Hm st HM) as [F1 X1].
  destruct (m st) as [[a|e] st1]; simpl in *.
  - destruct (useMockData st1) eqn:M1.
    + destruct (X1 eq_refl) as (a' & Ea & Fa). injection Ea as <-.
      destruct (Hc a Fa st1) as [L2 (b & Eb & Fb)]. split.
      * eapply fetchedLive_trans; [exact F1|]. apply fetchedLive_same_log. exact L2.
      * intros _. exists b. split; assumption.
    + destruct (Hk a st1 M1) as [F2 X2]. split; [|exact X2].
      eapply fetchedLive_trans; eassumption.
  - split; [exact F1|]. intro X. destruct (X1 X) as (a & Ea & _). discriminate.
Qed.

Lemma liveStep_bind_steady {A B} (fb : B -> Prop) (m : M A) (k : A -> M B) :
  steady m -> (forall a, liveStep fb (k a)) -> liveStep fb (bind m k).
Proof.
  intros Hm Hk. apply (liveStep_bind (fun _ => False) fb).
  - apply steady_liveStep. exact Hm.
  - exact Hk.
  - intros a [].
Qed.

Lemma liveStep_try_catch {A} (flips : A -> Prop) (m : M A) (h : Exn -> M A) :
  liveStep flips m -> (forall e, liveStep flips (h e)) -> liveStep flips (try_catch m h).
Proof.
  intros Hm Hh st HM. unfold try_catch. destruct (Hm st HM) as [F1 X1].
  destruct (m st) as [[a|e] st1]; simpl in *.
  - split; assumption.
  - destruct (useMockData st1) eqn:M1.
    + destruct (X1 eq_refl) as (a & Ea & _). discriminate.
    + destruct (Hh e st1 M1) as [F2 X2]. split; [|exact X2].
      eapply fetchedLive_trans; eassumption.
Qed.

Lemma liveStep_flip w {A} (flips : A -> Prop) (a : A) :
  flips a -> liveStep flips (forceMockMode w ;;; ret a).
Proof.
  intros Fa st HM. unfold bind, forceMockMode, ret.
  destruct (PROD w); simpl.
  - split; [apply fetchedLive_refl|]. congruence.
  - split; [apply fetchedLive_same_log; reflexivity|].
    intros _. exists a. split; [reflexivity | exact Fa].
Qed.

Ltac steady_step :=
  first
    [ apply steady_ret | apply steady_throw | apply steady_sleep
    | apply steady_random_below | apply steady_aborted | apply steady_fetch
    | apply steady_bind; [|intros] ].

Ltac live_step :=
  first
    [ apply liveStep_flip
    | apply steady_liveStep; solve [repeat steady_step]
    | apply liveStep_try_catch; [|intros]
    | apply liveStep_bind_steady; [solve [repeat steady_step]|intros]
    | match goal with
      | |- liveStep _ (if ?c then _ else _) => destruct c
      end ].

(** One attempt, started while [useMockData] is false: its fetch is
    logged as live, and the flag is set only with the sentinel. *)
Lemma attemptOnce_live w endpoint prompt signal maxRetries attempt last :
  liveStep (fun step => step = Return None)
    (attemptOnce w endpoint prompt signal maxRetries attempt last).
Proof.
  unfold attemptOnce.
  apply liveStep_try_catch; [|intros].
  - apply liveStep_bind_steady; [apply steady_aborted|intros isAborted].
    destruct isAborted; [apply steady_liveStep, steady_throw|].
    apply liveStep_bind_steady; [apply steady_calm; intro; split; reflexivity|intros key].
    apply liveStep_bind_steady; [apply steady_fetch|intros response].
    repeat live_step. reflexivity.
  - repeat live_step.
Qed.

Lemma attempts_live w remaining endpoint prompt signal maxRetries :
  forall attempt last,
    liveStep (fun r => r = None)
      (attempts w remaining endpoint prompt signal maxRetries attempt last).
Proof.
  induction remaining as [|remaining IH]; intros attempt last; simpl attempts.
  - apply steady_liveStep, steady_ret.
  - apply (liveStep_bind (fun step => step = Return None)).
    + apply attemptOnce_live.
    + intros [r|l]; [apply steady_liveStep, steady_ret | apply IH].
    + intros step ->. intro st. split; [reflexivity|]. exists None. split; reflexivity.
Qed.

Lemma makeRequestWithRetry_live w endpoint prompt signal maxRetries :
  liveStep (fun r => r = None)
    (makeRequestWithRetry w endpoint prompt signal maxRetries).
Proof.
  unfold makeRequestWithRetry. destruct (PROD w).
  - apply steady_liveStep, steady_ret.
  - apply attempts_live.
Qed.

Lemma tryEndpoints_live w eps prompt signal :
  forall response lastError,
    liveStep isMockReply (tryEndpoints w eps prompt signal response lastError).
Proof.
  induction eps as [|endpoint rest IH]; intros response lastError; simpl tryEndpoints.
  - apply steady_liveStep, steady_ret.
  - apply (liveStep_bind
             (fun step => exists text, step = inl (MockReply text))).
    + apply liveStep_try_catch; [|intros; repeat live_step].
      apply (liveStep_bind (fun r => r = None)).
      * apply makeRequestWithRetry_live.
      * intros [r|].
        -- repeat live_step.
        -- apply steady_liveStep. apply steady_bind; [|intros; apply steady_ret].
           apply steady_quiet, quiet_generateMockResponse.
      * intros r ->. intro st.
        destruct (quiet_generateMockResponse w prompt st) as (text & st' & E & _ & _ & _ & L).
        unfold bind. rewrite E. simpl. split; [exact L|].
        eexists. split; [reflexivity|]. exists text. reflexivity.
    + intros [exit|[response' lastError']]; [apply steady_liveStep, steady_ret | apply IH].
    + intros step (text & ->). intro st. split; [reflexivity|].
      eexists. split; [reflexivity|]. exists text. reflexivity.
Qed.

Lemma stateless_ret {A} (a : A) : stateless (ret a).
Proof. intro st. reflexivity. Qed.

Lemma stateless_throw {A} e : stateless (@throw A e).
Proof. intro st. reflexivity. Qed.

Lemma stateless_bind {A B} (m : M A) (k : A -> M B) :
  stateless m -> (forall a, stateless (k a)) -> stateless (bind m k).
Proof.
  intros Hm Hk st. unfold bind. pose proof (Hm st) as E.
  destruct (m st) as [[a|e] st1]; simpl in E; subst st1; [apply Hk | reflexivity].
Qed.

Lemma stateless_lift w {A} (x : option A) : stateless (lift w x).
Proof. destruct x; [apply stateless_ret | apply stateless_throw]. Qed.

Lemma stateless_response_json w r : stateless (response_json w r).
Proof.
  unfold response_json. destruct (JSON_parse (body r));
    [apply stateless_ret | apply stateless_throw].
Qed.

Ltac stateless_step :=
  first
    [ apply stateless_ret | apply stateless_throw | apply stateless_lift
    | apply stateless_response_json
    | apply stateless_bind; [|intros]
    | match goal with
      | |- stateless (if ?c then _ else _) => destruct c
      | |- stateless (match ?x with _ => _ end) => destruct x
      end ].

Lemma stateless_extractText w data : stateless (extractText w data).
Proof. unfold extractText. repeat stateless_step. Qed.

Lemma noFetch_stateless {A} (m : M A) : stateless m -> noFetch m.
Proof. intros H st. rewrite (H st). split; [reflexivity | auto]. Qed.

Lemma liveFetch_noFetch {A} (m : M A) : noFetch m -> liveFetch m.
Proof. intros H st _. apply fetchedLive_same_log. apply H. Qed.

Lemma liveFetch_bind {A B} (fa : A -> Prop) (m : M A) (k : A -> M B) :
  liveStep fa m -> (forall a, noFetch (k a)) -> liveFetch (bind m k).
Proof.
  intros Hm Hk st HM. unfold bind. destruct (Hm st HM) as [F1 _].
  destruct (m st) as [[a|e] st1]; simpl in *; [|exact F1].
  eapply fetchedLive_trans; [exact F1|].
  apply fetchedLive_same_log. apply Hk.
Qed.

Lemma liveFetch_try_catch {A} (m : M A) (h : Exn -> M A) :
  liveFetch m -> (forall e, noFetch (h e)) -> liveFetch (try_catch m h).
Proof.
  intros Hm Hh st HM. unfold try_catch. pose proof (Hm st HM) as F1.
  destruct (m st) as [[a|e] st1]; simpl in *; [exact F1|].
  eapply fetchedLive_trans; [exact F1|].
  apply fetchedLive_same_log. apply Hh.
Qed.

Ltac no_fetch_mock :=
  repeat first
    [ apply noFetch_quiet; first
        [ apply quiet_mockFor | apply quiet_generateMockResponse
        | apply quiet_mockSmartSearchResult | apply quiet_generateMockSmartSearchResult
        | apply quiet_generateDynamicMarketAnalysis | apply quiet_ret ]
    | apply noFetch_extractText
    | apply noFetch_ret | apply noFetch_throw | apply noFetch_forceMockMode
    | apply noFetch_sleep | apply noFetch_random_below | apply noFetch_lift
    | apply noFetch_response_json | apply noFetch_set_true
    | apply noFetch_bind; [|intros]
    | apply noFetch_try_catch; [|intros]
    | match goal with
      | |- noFetch (if ?c then _ else _) => destruct c
      | |- noFetch (match ?x with _ => _ end) => destruct x
      end ].

Lemma liveFetch_bind_steady {A B} (m : M A) (k : A -> M B) :
  steady m -> (forall a, liveFetch (k a)) -> liveFetch (bind m k).
Proof.
  intros Hm Hk st HM. unfold bind. destruct (Hm st HM) as [F1 M1].
  destruct (m st) as [[a|e] st1]; simpl in *; [|exact F1].
  eapply fetchedLive_trans; [exact F1|]. apply Hk. exact M1.
Qed.

Lemma steady_stateless {A} (m : M A) : stateless m -> steady m.
Proof. intros H. apply steady_calm. intro st. rewrite (H st). split; reflexivity. Qed.

(** The guard of the public operations: in mock mode the mock branch,
    else the live branch. *)
Lemma disciplined_guard {A} (whenMock whenLive : M A) :
  noFetch whenMock -> liveFetch whenLive ->
  disciplined (mock <- get_useMockData ;; if mock then whenMock else whenLive).
Proof.
  intros Hm Hl st. unfold bind, get_useMockData.
  destruct (useMockData st) eqn:HM.
  - destruct (Hm st) as [L F]. split.
    + intros _. split; [apply F; exact HM | exact L].
    + apply fetchedLive_same_log. exact L.
  - split; [congruence|]. apply Hl. exact HM.
Qed.

Lemma liveFetch_disciplined {A} (m : M A) : disciplined m -> liveFetch m.
Proof. intros H st _. apply H. Qed.

(** [makeApiRequest]: in mock mode no fetch, and every fetch it issues is
    issued while [useMockData] is false. *)
Lemma makeApiRequest_disciplined w prompt : disciplined (makeApiRequest w prompt).
Proof.
  unfold makeApiRequest.
  destruct (PROD w).
  { apply disciplined_noFetch, noFetch_quiet, quiet_mockFor. }
  apply disciplined_guard; [apply noFetch_quiet, quiet_mockFor|].
  apply liveFetch_bind_steady; [apply steady_stateless; intro; reflexivity|intros now].
  apply liveFetch_try_catch; [|intros; no_fetch_mock].
  apply liveFetch_bind_steady; [apply steady_stateless; intro; reflexivity|intros online].
  destruct (negb online); [apply liveFetch_noFetch, noFetch_throw|].
  apply (liveFetch_bind isMockReply).
  - apply tryEndpoints_live.
  - intros exit. no_fetch_mock.
Qed.

Lemma noFetch_recoverOr {T} (mock : M T) response :
  noFetch mock -> noFetch (recoverOr mock response).
Proof.
  intro H. unfold recoverOr.
  destruct (truthy _); [apply noFetch_ret|].
  apply noFetch_bind; [exact H | intros; apply noFetch_ret].
Qed.

Lemma disciplined_facade {A} (whenMock live : M A) (handler : Exn -> M A) w :
  noFetch whenMock -> disciplined live -> (forall e, noFetch (handler e)) ->
  disciplined
    (try_catch
       (inMock <- get_useMockData ;; if PROD w || inMock then whenMock else live)
       handler).
Proof.
  intros Hm Hl Hh.
  apply disciplined_try_catch; [|intro e; apply disciplined_noFetch, Hh].
  destruct (PROD w); simpl.
  - apply disciplined_noFetch. apply noFetch_bind; [|intros; exact Hm].
    apply noFetch_stateless. intro; reflexivity.
  - apply disciplined_guard; [exact Hm | apply liveFetch_disciplined, Hl].
Qed.

Lemma enhanceSearchQuery_disciplined w query : disciplined (enhanceSearchQuery w query).
Proof.
  unfold enhanceSearchQuery.
  apply disciplined_try_catch;
    [|intro e; apply disciplined_noFetch, noFetch_quiet, quiet_mockSmartSearchResult].
  destruct (PROD w).
  { apply disciplined_noFetch, noFetch_quiet, quiet_mockSmartSearchResult. }
  apply disciplined_guard; [apply noFetch_quiet, quiet_mockSmartSearchResult|].
  apply liveFetch_disciplined.
  apply disciplined_bind; [apply makeApiRequest_disciplined|].
  intros response. apply disciplined_noFetch. no_fetch_mock.
Qed.

Lemma categorizeProducts_disciplined w products :
  disciplined (categorizeProducts w products).
Proof.
  unfold categorizeProducts. apply disciplined_facade.
  - no_fetch_mock.
  - apply disciplined_bind; [apply makeApiRequest_disciplined|].
    intros response. apply disciplined_noFetch, noFetch_recoverOr, noFetch_ret.
  - intros e. no_fetch_mock.
Qed.

Lemma analyzeMarketTrends_disciplined w query products :
  disciplined (analyzeMarketTrends w query products).
Proof.
  assert (Hmock : noFetch (generateMockMarketAnalysis w)).
  { apply noFetch_quiet, quiet_generateDynamicMarketAnalysis. }
  unfold analyzeMarketTrends. apply disciplined_facade.
  - apply noFetch_bind; [exact Hmock | intros; apply noFetch_ret].
  - apply disciplined_bind; [apply makeApiRequest_disciplined|].
    intros response. apply disciplined_noFetch, noFetch_recoverOr, Hmock.
  - intros e. apply noFetch_bind; [exact Hmock | intros; apply noFetch_ret].
Qed.

Lemma getPersonalizedRecommendations_disciplined w userQuery searchHistory :
  disciplined (getPersonalizedRecommendations w userQuery searchHistory).
Proof.
  unfold getPersonalizedRecommendations. apply disciplined_facade.
  - no_fetch_mock.
  - apply disciplined_bind; [apply makeApiRequest_disciplined|].
    intros response. apply disciplined_noFetch, noFetch_recoverOr, noFetch_ret.
  - intros e. no_fetch_mock.
Qed.

Lemma testApiConnection_disciplined w : disciplined (testApiConnection w).
Proof.
  unfold testApiConnection. destruct (PROD w).
  { apply disciplined_noFetch, noFetch_ret. }
  apply disciplined_guard; [apply noFetch_ret|].
  apply liveFetch_disciplined.
  apply disciplined_try_catch; [|intros; apply disciplined_noFetch, noFetch_ret].
  apply disciplined_bind; [apply makeApiRequest_disciplined|].
  intros response. apply disciplined_noFetch. no_fetch_mock.
Qed.

Lemma connectionProbe_disciplined w : disciplined (connectionProbe w).
Proof.
  unfold connectionProbe.
  apply disciplined_guard; [apply noFetch_ret|].
  apply liveFetch_disciplined.
  apply disciplined_bind; [apply testApiConnection_disciplined|].
  intros success. apply disciplined_noFetch. no_fetch_mock.
Qed.

Lemma perform_disciplined w op st :
  (useMockData st = true ->
   useMockData (perform w op st) = true /\ fetchLog (perform w op st) = fetchLog st)
  /\ fetchedLive st (perform w op st).
Proof.
  destruct op; unfold perform.
  - apply (disciplined_noFetch _ (noFetch_forceMockMode w)).
  - split; [auto | apply fetchedLive_refl].
  - assert (E : snd (validateApiKey st) = st).
    { unfold validateApiKey. destruct (_ || _); [reflexivity|].
      destruct (negb _); reflexivity. }
    rewrite E. split; [auto | apply fetchedLive_refl].
  - apply testApiConnection_disciplined.
  - apply makeApiRequest_disciplined.
  - apply enhanceSearchQuery_disciplined.
  - apply categorizeProducts_disciplined.
  - apply analyzeMarketTrends_disciplined.
  - apply getPersonalizedRecommendations_disciplined.
  - apply connectionProbe_disciplined.
Qed.

Lemma performAll_disciplined w ops :
  forall st,
    (useMockData st = true ->
     useMockData (performAll w ops st) = true
     /\ fetchLog (performAll w ops st) = fetchLog st)
    /\ fetchedLive st (performAll w ops st).
Proof.
  induction ops as [|op ops IH]; intro st; simpl.
  - split; [auto | apply fetchedLive_refl].
  - destruct (perform_disciplined w op st) as [M1 F1].
    destruct (IH (perform w op st)) as [M2 F2]. split.
    + intro HM. destruct (M1 HM) as [X1 Y1]. destruct (M2 X1) as [X2 Y2].
      split; congruence.
    + eapply fetchedLive_trans; eassumption.
Qed.

(* ================================================================= *)
(** ** The retry budget on rate limiting *)

(** C5, amended: with the default budget of 2 the routine makes three
    attempts; when the endpoint answers 429 to all three (each before the
    signal fires, outside production) it returns the sentinel, without a
    fourth call, whatever a fourth call would have been answered, and
    [useMockData] is true from then on, over any later operations. *)
Theorem makeRequestWithRetry_gives_up_after_three_rate_limits
  (w : World) (endpoint prompt : jsstring) (signal : AbortSignal) (st : State)
  (r0 r1 r2 : Response) (l0 l1 l2 : N) :
  PROD w = false ->
  network w (urlOf endpoint st) (List.length (fetchLog st))
    = mkOutcome l0 (Responds r0) -> status r0 = 429%Z ->
  network w (urlOf endpoint st) (S (List.length (fetchLog st)))
    = mkOutcome l1 (Responds r1) -> status r1 = 429%Z ->
  network w (urlOf endpoint st) (S (S (List.length (fetchLog st))))
    = mkOutcome l2 (Responds r2) -> status r2 = 429%Z ->
  (clock st + l0 + l1 + l2 + 8000 <= signal)%N ->
  exists st',
    makeRequestWithRetry w endpoint prompt signal defaultMaxRetries st = (Ok None, st')
    /\ map fetchUrl (fetchLog st')
       = map fetchUrl (fetchLog st)
           ++ [urlOf endpoint st; urlOf endpoint st; urlOf endpoint st]
    /\ useMockData st' = true
    /\ forall ops,
        useMockData (performAll w ops st') = true
        /\ fetchLog (performAll w ops st') = fetchLog st'.
Proof.
  intros HP N0 S0 N1 S1 N2 S2 Ht.
  destruct (makeRequestWithRetry_exhausted w endpoint prompt signal st r0 r1 r2 l0 l1 l2
              HP N0 S0 N1 S1 N2 S2 Ht) as (st' & E & HM & _ & HL).
  exists st'. repeat split; try assumption;
    destruct (performAll_disciplined w ops st') as [H _]; apply H; exact HM.
Qed.

Lemma makeRequestWithRetry_gives_up_after_three_rate_limits_witness :
  let w := Scenario.threeRateLimited in
  PROD w = false
  /\ exists st',
      makeRequestWithRetry w endpoint1 (js "Hello") timeoutMs defaultMaxRetries
        (construct w) = (Ok None, st')
      /\ List.length (fetchLog st') = 3%nat
      /\ useMockData st' = true.
Proof.
  intro w. split; [reflexivity|].
  destruct (makeRequestWithRetry_gives_up_after_three_rate_limits w endpoint1 (js "Hello")
              timeoutMs (construct w)
              (mkResponse 429 (js "Too Many Requests") [])
              (mkResponse 429 (js "Too Many Requests") [])
              (mkResponse 429 (js "Too Many Requests") [])
              100 100 100)
    as (st' & E & L & M & _);
    try reflexivity.
  - vm_compute. discriminate.
  - exists st'. repeat split; [exact E | | exact M].
    rewrite <- (length_map fetchUrl), L. reflexivity.
Defined.

(* ================================================================= *)
(** ** The facade never raises *)

Lemma post_ret {A} (P : A -> Prop) a : P a -> post P (ret a).
Proof. intros H st a' st' E. injection E as <- _. exact H. Qed.

Lemma post_throw {A} (P : A -> Prop) e : post P (@throw A e).
Proof. intros st a st' E. discriminate. Qed.

Lemma post_bind {A B} (Q : A -> Prop) (P : B -> Prop) (m : M A) (k : A -> M B) :
  post Q m -> (forall a, Q a -> post P (k a)) -> post P (bind m k).
Proof.
  intros Hm Hk st b st' E. unfold bind in E.
  destruct (m st) as [[a|e] st1] eqn:Em; [|discriminate].
  exact (Hk a (Hm st a st1 Em) st1 b st' E).
Qed.

Lemma post_any {A} (m : M A) : post (fun _ => True) m.
Proof. intros st a st' _. exact I. Qed.

Lemma post_try_catch {A} (P : A -> Prop) (m : M A) (h : Exn -> M A) :
  post P m -> (forall e, post P (h e)) -> post P (try_catch m h).
Proof.
  intros Hm Hh st a st' E. unfold try_catch in E.
  destruct (m st) as [[a0|e] st1] eqn:Em.
  - injection E as <- <-. exact (Hm st a0 st1 Em).
  - exact (Hh e st1 a st' E).
Qed.

(** A handler that always returns makes the whole always return. *)
Lemma try_catch_returns {A} (P : A -> Prop) (m : M A) (h : Exn -> M A) :
  post P m -> (forall e, quiet (h e)) -> (forall e, post P (h e)) ->
  forall st, exists a st', try_catch m h st = (Ok a, st') /\ P a.
Proof.
  intros Hm Hq Hh st. unfold try_catch.
  destruct (m st) as [[a|e] st1] eqn:Em.
  - exists a, st1. split; [reflexivity | exact (Hm st a st1 Em)].
  - destruct (Hq e st1) as (a & st' & E & _).
    exists a, st'. split; [exact E | exact (Hh e st1 a st' E)].
Qed.

Lemma post_mockSmartSearchResult w query :
  post (mockOrRecovered (isMockSmartSearchResult w)) (mockSmartSearchResult w query).
Proof.
  intros st r st' E. unfold mockSmartSearchResult, bind in E.
  destruct (generateMockSmartSearchResult w query st) as [[t|e] st1] eqn:G; [|discriminate].
  injection E as <- <-. exists query, st, st1. exact G.
Qed.

Lemma post_mockFor w prompt :
  post (fun v => match v with
                 | Structured r => isMockSmartSearchResult w r
                 | Plain _ => True
                 end) (mockFor w prompt).
Proof.
  intros st v st' E. unfold mockFor in E.
  destruct (isStructuredPrompt prompt).
  - unfold bind in E.
    destruct (generateMockSmartSearchResult w _ st) as [[t|e] st1] eqn:G; [|discriminate].
    injection E as <- <-. eexists. exists st, st1. exact G.
  - unfold bind in E.
    destruct (generateMockResponse w prompt st) as [[t|e] st1]; [|discriminate].
    injection E as <- <-. exact I.
Qed.

Ltac post_step :=
  first
    [ apply post_throw
    | apply post_ret; exact I
    | match goal with
      | |- post _ (if ?c then _ else _) => destruct c
      | |- post _ (match ?x with _ => _ end) => destruct x
      end ].

(** A structured object that [makeApiRequest] returns is one of Mock
    Synthesis. *)
Lemma post_makeApiRequest w prompt :
  post (fun v => match v with
                 | Structured r => isMockSmartSearchResult w r
                 | Plain _ => True
                 end) (makeApiRequest w prompt).
Proof.
  unfold makeApiRequest.
  destruct (PROD w); [apply post_mockFor|].
  apply (post_bind (fun _ => True)); [apply post_any|intros mock _].
  destruct mock; [apply post_mockFor|].
  apply (post_bind (fun _ => True)); [apply post_any|intros now _].
  apply post_try_catch; [|intros; repeat post_step].
  apply (post_bind (fun _ => True)); [apply post_any|intros online _].
  destruct (negb online); [apply post_throw|].
  apply (post_bind (fun _ => True)); [apply post_any|intros exit _].
  destruct exit as [text|[response|] lastError].
  - apply post_ret. exact I.
  - destruct (ok response).
    + apply (post_bind (fun _ => True)); [apply post_any|intros data _].
      apply (post_bind (fun _ => True)); [apply post_any|intros text _].
      apply post_ret. exact I.
    + apply (post_bind (fun _ => True)); [apply post_any|intros]. apply post_throw.
  - apply (post_bind (fun _ => True)); [apply post_any|intros]. apply post_throw.
Qed.

Lemma post_enhanceSearchQuery w query :
  post (mockOrRecovered (isMockSmartSearchResult w)) (enhanceSearchQuery w query).
Proof.
  unfold enhanceSearchQuery.
  apply post_try_catch; [|intros; apply post_mockSmartSearchResult].
  destruct (PROD w); [apply post_mockSmartSearchResult|].
  apply (post_bind (fun _ => True)); [apply post_any|intros mock _].
  destruct mock; [apply post_mockSmartSearchResult|].
  eapply post_bind; [apply post_makeApiRequest|].
  intros [r|v] Hv.
  - destruct (SmartSearchResult.enhancedQuery r);
      [apply post_mockSmartSearchResult | apply post_ret; exact Hv].
  - apply (post_bind (fun b : bool => b = true -> truthy (Some v) = true)).
    + destruct v; try (apply post_ret; discriminate).
      * intros st0 a0 st0' E0. unfold bind, lift, get, throw in E0. discriminate.
      * apply (post_bind (fun _ => True)); [apply post_any|intros].
        apply post_ret. reflexivity.
    + intros isMock Hm. destruct isMock.
      * apply post_ret. exact (Hm eq_refl).
      * destruct (truthy (Some (safeJsonParse v))) eqn:T;
          [apply post_ret; exact T | apply post_mockSmartSearchResult].
Qed.

Lemma post_recoverOr {T} (isMock : T -> Prop) (mock : M T) response :
  post isMock mock -> post (mockOrRecovered isMock) (recoverOr mock response).
Proof.
  intro Hm. unfold recoverOr.
  destruct (truthy (Some _)) eqn:Ht; [apply post_ret; exact Ht|].
  apply (post_bind isMock); [exact Hm|]. intros t Ht'. apply post_ret. exact Ht'.
Qed.

Lemma post_mockTyped {T} (isMock : T -> Prop) (mock : M T) :
  post isMock mock -> post (mockOrRecovered isMock) (t <- mock ;; ret (Typed t)).
Proof.
  intro Hm. apply (post_bind isMock); [exact Hm|].
  intros t Ht. apply post_ret. exact Ht.
Qed.

(** The three operations of the shared shape never raise: they return an
    object of Mock Synthesis or a truthy recovered value. *)
Lemma facadeOperation_returns {T} (isMock : T -> Prop) w (mock : M T) prompt :
  quiet mock -> post isMock mock ->
  forall st, exists r st',
    facadeOperation w mock prompt st = (Ok r, st') /\ mockOrRecovered isMock r.
Proof.
  intros Hq Hm. unfold facadeOperation.
  apply try_catch_returns.
  - apply (post_bind (fun _ => True)); [apply post_any|intros inMock _].
    destruct (PROD w || inMock); [apply post_mockTyped; exact Hm|].
    apply (post_bind (fun _ => True)); [apply post_any|intros response _].
    apply post_recoverOr. exact Hm.
  - intros e. apply quiet_bind; [exact Hq | intros; apply quiet_ret].
  - intros e. apply post_mockTyped. exact Hm.
Qed.

Lemma enhanceSearchQuery_returns w query st :
  exists r st',
    enhanceSearchQuery w query st = (Ok r, st')
    /\ mockOrRecovered (isMockSmartSearchResult w) r.
Proof.
  pose proof (post_enhanceSearchQuery w query) as Hp.
  assert (Hq : forall st0, exists r st', enhanceSearchQuery w query st0 = (Ok r, st')).
  { intro st0. unfold enhanceSearchQuery, try_catch.
    match goal with |- context [match ?body st0 with _ => _ end] =>
      destruct (body st0) as [[a|e] st1] end.
    - exists a, st1. reflexivity.
    - destruct (quiet_mockSmartSearchResult w query st1) as (a & st' & E & _).
      exists a, st'. exact E. }
  destruct (Hq st) as (r & st' & E).
  exists r, st'. split; [exact E | exact (Hp st r st' E)].
Qed.

(** When the request fails, the facade substitutes the mock. *)
Lemma facadeOperation_failure {T} w (mock : M T) prompt st st1 :
  PROD w = false -> useMockData st = false ->
  requestFails w prompt st st1 ->
  forall t st', mock st1 = (Ok t, st') ->
    facadeOperation w mock prompt st = (Ok (Typed t), st').
Proof.
  intros HP HM Hfail t st' Emock.
  unfold facadeOperation, try_catch.
  unfold bind at 1. unfold get_useMockData. rewrite HP, HM. change (false || false) with false. cbv iota.
  destruct Hfail as [(e & E)|(text & E & Hfalsy)].
  - rewrite (bind_Throw _ _ _ _ _ E). unfold bind. rewrite Emock. reflexivity.
  - rewrite (bind_Ok _ _ _ _ _ E). unfold recoverOr. rewrite Hfalsy.
    unfold bind. rewrite Emock. reflexivity.
Qed.

Lemma enhanceSearchQuery_failure w query st st1 :
  PROD w = false -> useMockData st = false ->
  requestFails w (enhancePrompt query) st st1 ->
  forall t st', generateMockSmartSearchResult w query st1 = (Ok t, st') ->
    enhanceSearchQuery w query st = (Ok (Typed t), st').
Proof.
  intros HP HM Hfail t st' Emock.
  assert (Em : mockSmartSearchResult w query st1 = (Ok (Typed t), st')).
  { unfold mockSmartSearchResult, bind. rewrite Emock. reflexivity. }
  unfold enhanceSearchQuery, try_catch. rewrite HP.
  unfold bind at 1. unfold get_useMockData. rewrite HM.
  destruct Hfail as [(e & E)|(text & E & Hfalsy)].
  - rewrite (bind_Throw _ _ _ _ _ E). exact Em.
  - rewrite (bind_Ok _ _ _ _ _ E). unfold bind at 1. unfold ret at 1.
    cbv iota beta. rewrite Hfalsy. rewrite Em. reflexivity.
Qed.

Lemma post_generateMockMarketAnalysis w :
  post (isMockMarketAnalysis w) (generateMockMarketAnalysis w).
Proof. intros st t st' E. exists st, st'. exact E. Qed.

Lemma post_ret_eq {A} (a : A) : post (eq a) (ret a).
Proof. apply post_ret. reflexivity. Qed.

(** C1, amended: none of the four facade operations ever raises, whatever
    the environment does: each returns an object built by Mock Synthesis,
    of the declared type, or else a truthy JSON value recovered from the
    model output, which is returned without a check of its shape; when the
    request fails (it throws: no connection, timeout, exhausted endpoints,
    malformed envelope; or no truthy value is recovered from the model
    text) the result is the Mock Synthesis object. *)
Theorem facade_never_raises (w : World) (st : State) :
  (forall query, exists r st',
      enhanceSearchQuery w query st = (Ok r, st')
      /\ mockOrRecovered (isMockSmartSearchResult w) r)
  /\ (forall products, exists r st',
        categorizeProducts w products st = (Ok r, st')
        /\ mockOrRecovered (eq generateMockCategories) r)
  /\ (forall query products, exists r st',
        analyzeMarketTrends w query products st = (Ok r, st')
        /\ mockOrRecovered (isMockMarketAnalysis w) r)
  /\ (forall userQuery searchHistory, exists r st',
        getPersonalizedRecommendations w userQuery searchHistory st = (Ok r, st')
        /\ mockOrRecovered (eq generateMockRecommendations) r)
  /\ (PROD w = false -> useMockData st = false ->
      (forall query st1,
          requestFails w (enhancePrompt query) st st1 ->
          exists t st',
            enhanceSearchQuery w query st = (Ok (Typed t), st')
            /\ generateMockSmartSearchResult w query st1 = (Ok t, st'))
      /\ (forall products st1,
            requestFails w (categorizePrompt (joinValues (map title products))) st st1 ->
            categorizeProducts w products st = (Ok (Typed generateMockCategories), st1))
      /\ (forall query products st1,
            requestFails w (marketPrompt query (joinValues (map price products))) st st1 ->
            exists t st',
              analyzeMarketTrends w query products st = (Ok (Typed t), st')
              /\ generateMockMarketAnalysis w st1 = (Ok t, st'))
      /\ (forall userQuery searchHistory st1,
            requestFails w (recommendPrompt userQuery (join (js ", ") searchHistory)) st st1 ->
            getPersonalizedRecommendations w userQuery searchHistory st
            = (Ok (Typed generateMockRecommendations), st1))).
Proof.
  split; [intro query; apply enhanceSearchQuery_returns|].
  split; [intro products|].
  { apply (facadeOperation_returns (eq generateMockCategories) w
             (ret generateMockCategories)); [apply quiet_ret | apply post_ret_eq]. }
  split; [intros query products|].
  { apply (facadeOperation_returns (isMockMarketAnalysis w) w
             (generateMockMarketAnalysis w));
      [apply quiet_generateDynamicMarketAnalysis | apply post_generateMockMarketAnalysis]. }
  split; [intros userQuery searchHistory|].
  { apply (facadeOperation_returns (eq generateMockRecommendations) w
             (ret generateMockRecommendations)); [apply quiet_ret | apply post_ret_eq]. }
  intros HP HM. split; [intros query st1 Hfail|].
  { destruct (quiet_generateMockSmartSearchResult w query st1) as (t & st' & E & _).
    exists t, st'. split; [|exact E].
    exact (enhanceSearchQuery_failure w query st st1 HP HM Hfail t st' E). }
  split; [intros products st1 Hfail|].
  { exact (facadeOperation_failure w (ret generateMockCategories) _ st st1 HP HM Hfail
             generateMockCategories st1 eq_refl). }
  split; [intros query products st1 Hfail|intros userQuery searchHistory st1 Hfail].
  { destruct (quiet_generateDynamicMarketAnalysis w (js "general product") st1)
      as (t & st' & E & _).
    exists t, st'. split; [|exact E].
    exact (facadeOperation_failure w (generateMockMarketAnalysis w) _ st st1 HP HM Hfail
             t st' E). }
  { exact (facadeOperation_failure w (ret generateMockRecommendations) _ st st1 HP HM Hfail
             generateMockRecommendations st1 eq_refl). }
Qed.

(* ================================================================= *)
(** ** The facade on a concrete environment *)

(** C1, as stated, fails: a model answer that parses to a truthy JSON
    value is returned as it is, whatever its shape: here an object without
    any of the fields of a SmartSearchResult, and the same object where an
    array of categories is declared. *)
Lemma enhanceSearchQuery_returns_unvalidated_json :
  let w := Scenario.offShape in
  let answer := JObject [(js "error", JString (js "quota"))] in
  fst (enhanceSearchQuery w (js "iphone") (construct w)) = Ok (Untyped answer)
  /\ fullyShaped isSmartSearchResultJson
       (Untyped answer : Returned SmartSearchResult.t) = false
  /\ fst (categorizeProducts w [] (construct w)) = Ok (Untyped answer)
  /\ fullyShaped (isArrayOf isProductCategoryJson)
       (Untyped answer : Returned (list ProductCategory.t)) = false.
Proof. vm_compute. repeat split. Qed.

(** A request that runs into the timeout is answered by the mock. *)
Example enhanceSearchQuery_timeout_gives_mock :
  exists t st',
    enhanceSearchQuery Scenario.silent (js "iphone") (construct Scenario.silent)
    = (Ok (Typed t), st')
    /\ SmartSearchResult.enhancedQuery t = js "iphone best deals 2024".
Proof. vm_compute. eexists. eexists. split; reflexivity. Qed.
(* ================================================================= *)
(** ** Calls that overlap *)

(** *** A call left alone *)

Lemma alone_bindRun {A B} (r : Run A) (k : A -> Async B) :
  alone (bindRun r k)
  = match alone r with
    | (Ok a, st') => alone (k a st')
    | (Throw e, st') => (Throw e, st')
    end.
Proof.
  induction r as [[a|e] st | st wake resume IH]; simpl; try reflexivity. apply IH.
Qed.

Lemma alone_catchRun {A} (r : Run A) (h : Exn -> Async A) :
  alone (catchRun r h)
  = match alone r with
    | (Ok a, st') => (Ok a, st')
    | (Throw e, st') => alone (h e st')
    end.
Proof.
  induction r as [[a|e] st | st wake resume IH]; simpl; try reflexivity. apply IH.
Qed.

Lemma alone_settled {A} (r : Run A) : alone (settled r) = alone r.
Proof. induction r as [res st | st wake resume IH]; simpl; [reflexivity | apply IH]. Qed.

Lemma alone_dropRun {A} (r : Run A) : snd (alone (dropRun r)) = snd (alone r).
Proof.
  induction r as [[a|e] st | st wake resume IH]; simpl; try reflexivity. apply IH.
Qed.

Lemma refines_ret {A} (a : A) : refines (retA a) (ret a).
Proof. intro st. reflexivity. Qed.

Lemma refines_throw {A} e : refines (@throwA A e) (throw e).
Proof. intro st. reflexivity. Qed.

Lemma refines_lift {A} (m : M A) : refines (liftA m) m.
Proof. intro st. unfold liftA. simpl. destruct (m st); reflexivity. Qed.

Lemma refines_bind {A B} (mA : Async A) (m : M A) (kA : A -> Async B) (k : A -> M B) :
  refines mA m -> (forall a, refines (kA a) (k a)) -> refines (bindA mA kA) (bind m k).
Proof.
  intros Hm Hk st. unfold bindA, bind. rewrite alone_bindRun, Hm.
  destruct (m st) as [[a|e] st']; [apply Hk | reflexivity].
Qed.

Lemma refines_try_catch {A} (mA : Async A) (m : M A) (hA : Exn -> Async A) h :
  refines mA m -> (forall e, refines (hA e) (h e)) ->
  refines (try_catchA mA hA) (try_catch m h).
Proof.
  intros Hm Hh st. unfold try_catchA, try_catch. rewrite alone_catchRun, Hm.
  destruct (m st) as [[a|e] st']; [reflexivity | apply Hh].
Qed.

Lemma refines_await {A} (mA : Async A) (m : M A) : refines mA m -> refines (awaitA mA) m.
Proof. intros Hm st. unfold awaitA. rewrite alone_settled. apply Hm. Qed.

Lemma withClock_issued url prompt t st :
  withClock t (issued url prompt st) = logged url prompt t st.
Proof. reflexivity. Qed.

Lemma refines_fetch w url prompt signal :
  refines (fetchA w url prompt signal) (fetch w url prompt signal).
Proof.
  intro st. unfold fetchA, fetch.
  destruct (signal <=? clock st)%N eqn:E1.
  - simpl. rewrite N.max_id. destruct st; reflexivity.
  - destruct (_ <? signal)%N eqn:E2; simpl.
    + rewrite N.max_l by lia. reflexivity.
    + apply N.leb_gt in E1. rewrite N.max_l by lia. reflexivity.
Qed.

Lemma refines_sleep ms : refines (sleepA ms) (sleep ms).
Proof.
  intro st. unfold sleepA, sleep, set_clock. simpl. rewrite N.max_l by lia. reflexivity.
Qed.

Ltac refines_step :=
  repeat first
    [ apply refines_ret | apply refines_throw | apply refines_lift
    | apply refines_fetch | apply refines_sleep
    | apply refines_await
    | apply refines_bind; [|intros ?]
    | apply refines_try_catch; [|intros ?]
    | match goal with
      | |- refines (if ?c then _ else _) (if ?c then _ else _) => destruct c
      | |- refines (match ?x with _ => _ end) (match ?x with _ => _ end) => destruct x
      end ].

Lemma refines_attemptOnce w endpoint prompt signal maxRetries attempt last :
  refines (attemptOnceA w endpoint prompt signal maxRetries attempt last)
    (attemptOnce w endpoint prompt signal maxRetries attempt last).
Proof. unfold attemptOnceA, attemptOnce. refines_step. Qed.

Lemma refines_attempts w remaining endpoint prompt signal maxRetries :
  forall attempt last,
    refines (attemptsA w remaining endpoint prompt signal maxRetries attempt last)
      (attempts w remaining endpoint prompt signal maxRetries attempt last).
Proof.
  induction remaining as [|n IH]; intros attempt last; cbn [attemptsA attempts].
  - apply refines_ret.
  - apply refines_bind; [apply refines_attemptOnce|].
    intros [r|last']; [apply refines_ret | apply IH].
Qed.

Lemma refines_makeRequestWithRetry w endpoint prompt signal maxRetries :
  refines (makeRequestWithRetryA w endpoint prompt signal maxRetries)
    (makeRequestWithRetry w endpoint prompt signal maxRetries).
Proof.
  unfold makeRequestWithRetryA, makeRequestWithRetry.
  destruct (PROD w); [apply refines_ret | apply refines_attempts].
Qed.

Lemma refines_tryEndpoints w eps prompt signal :
  forall response lastError,
    refines (tryEndpointsA w eps prompt signal response lastError)
      (tryEndpoints w eps prompt signal response lastError).
Proof.
  induction eps as [|endpoint rest IH]; intros response lastError;
    cbn [tryEndpointsA tryEndpoints].
  - apply refines_ret.
  - apply refines_bind.
    + apply refines_try_catch; [|intros ?; refines_step].
      apply refines_bind; [apply refines_await, refines_makeRequestWithRetry|].
      intros [r|]; refines_step.
    + intros [exit|[response' lastError']]; [apply refines_ret | apply IH].
Qed.

Lemma refines_makeApiRequest w prompt :
  refines (makeApiRequestA w prompt) (makeApiRequest w prompt).
Proof.
  unfold makeApiRequestA, makeApiRequest.
  destruct (PROD w); [apply refines_lift|].
  apply refines_bind; [apply refines_lift|]. intros [|]; [apply refines_lift|].
  apply refines_bind; [apply refines_lift|]. intro now.
  apply refines_try_catch; [|intros ?; refines_step].
  apply refines_bind; [apply refines_lift|]. intros [|]; cbn [negb];
    [|apply refines_throw].
  apply refines_bind; [apply refines_tryEndpoints|].
  intros [text|[response|] lastError]; refines_step.
Qed.

Lemma refines_testApiConnection w :
  refines (testApiConnectionA w) (testApiConnection w).
Proof.
  unfold testApiConnectionA, testApiConnection.
  destruct (PROD w); [apply refines_ret|].
  apply refines_bind; [apply refines_lift|]. intros [|]; [apply refines_ret|].
  apply refines_try_catch; [|intros ?; apply refines_ret].
  apply refines_bind; [apply refines_await, refines_makeApiRequest|].
  intros [r|v]; [apply refines_throw|]. destruct v; refines_step.
Qed.

Lemma refines_connectionProbe w :
  refines (mock <~ liftA get_useMockData ;;
           if mock then retA tt else connectionProbeA w)
    (connectionProbe w).
Proof.
  unfold connectionProbeA, connectionProbe.
  apply refines_bind; [apply refines_lift|]. intros [|]; [apply refines_ret|].
  apply refines_bind; [apply refines_await, refines_testApiConnection|].
  intros [|]; [apply refines_ret | apply refines_lift].
Qed.

Lemma refines_enhanceSearchQuery w query :
  refines (enhanceSearchQueryA w query) (enhanceSearchQuery w query).
Proof.
  unfold enhanceSearchQueryA, enhanceSearchQuery.
  apply refines_try_catch; [|intros ?; apply refines_lift].
  destruct (PROD w); [apply refines_lift|].
  apply refines_bind; [apply refines_lift|]. intros [|]; [apply refines_lift|].
  apply refines_bind; [apply refines_await, refines_makeApiRequest|].
  intros [r|v].
  - destruct (SmartSearchResult.enhancedQuery r); [apply refines_lift | apply refines_ret].
  - apply refines_bind.
    + destruct v; refines_step.
    + intros [|]; [apply refines_ret|].
      destruct (truthy _); [apply refines_ret | apply refines_lift].
Qed.

Lemma refines_facadeOperation {T} w (mock : M T) prompt :
  refines (facadeOperationA w mock prompt) (facadeOperation w mock prompt).
Proof.
  unfold facadeOperationA, facadeOperation.
  apply refines_try_catch; [|intros ?; apply refines_lift].
  apply refines_bind; [apply refines_lift|]. intro inMock.
  destruct (PROD w || inMock); [apply refines_lift|].
  apply refines_bind; [apply refines_await, refines_makeApiRequest|].
  intro response. apply refines_lift.
Qed.

(** The sequential step of an operation is its call left alone. *)
Lemma performA_alone w op st : snd (alone (performA w op st)) = perform w op st.
Proof.
  destruct op; unfold performA, perform; rewrite alone_dropRun.
  - rewrite refines_lift. reflexivity.
  - rewrite refines_lift. reflexivity.
  - rewrite refines_lift. reflexivity.
  - rewrite refines_testApiConnection. reflexivity.
  - rewrite refines_makeApiRequest. reflexivity.
  - rewrite refines_enhanceSearchQuery. reflexivity.
  - unfold categorizeProductsA. rewrite refines_facadeOperation. reflexivity.
  - unfold analyzeMarketTrendsA. rewrite refines_facadeOperation. reflexivity.
  - unfold getPersonalizedRecommendationsA. rewrite refines_facadeOperation. reflexivity.
  - rewrite refines_connectionProbe. reflexivity.
Qed.

Lemma constructor_alone w :
  snd (alone (constructor w)) = snd (connectionProbe w (construct w)).
Proof.
  rewrite <- refines_connectionProbe.
  unfold constructor, bindA, liftA, get_useMockData. cbn [fst snd bindRun].
  destruct (useMockData (construct w)); reflexivity.
Qed.

(** *** The flag under calls that overlap *)

Lemma flagKept_refl st : flagKept st st.
Proof. intro H. exact H. Qed.

Lemma flagKept_trans a b c : flagKept a b -> flagKept b c -> flagKept a c.
Proof. intros H1 H2 H. apply H2, H1, H. Qed.

Lemma keepsFlag_noFetch {A} (m : M A) : noFetch m -> keepsFlag m.
Proof. intros H st. exact (proj2 (H st)). Qed.

Lemma good_bindRun {A B} (r : Run A) (k : A -> Async B) st0 :
  good r st0 -> (forall a, oneWay (k a)) -> good (bindRun r k) st0.
Proof.
  intros Hr Hk. revert st0 Hr.
  induction r as [[a|e] st | st wake resume IH]; intros st0 [F R]; cbn [bindRun].
  - destruct (Hk a st) as [F' R']. split; [|exact R'].
    exact (flagKept_trans _ _ _ F F').
  - split; [exact F | exact I].
  - split; [exact F|]. cbn [respects]. intro st'.
    apply (IH st' st'). exact (R st').
Qed.

Lemma good_catchRun {A} (r : Run A) (h : Exn -> Async A) st0 :
  good r st0 -> (forall e, oneWay (h e)) -> good (catchRun r h) st0.
Proof.
  intros Hr Hh. revert st0 Hr.
  induction r as [[a|e] st | st wake resume IH]; intros st0 [F R]; cbn [catchRun].
  - split; [exact F | exact I].
  - destruct (Hh e st) as [F' R']. split; [|exact R'].
    exact (flagKept_trans _ _ _ F F').
  - split; [exact F|]. cbn [respects]. intro st'.
    apply (IH st' st'). exact (R st').
Qed.

Lemma good_settled {A} (r : Run A) st0 : good r st0 -> good (settled r) st0.
Proof.
  revert st0. induction r as [res st | st wake resume IH]; intros st0 [F R]; cbn [settled].
  - split; [exact F|]. cbn [respects]. intro st'. split; [apply flagKept_refl | exact I].
  - split; [exact F|]. cbn [respects]. intro st'. apply (IH st' st'). exact (R st').
Qed.

Lemma good_dropRun {A} (r : Run A) st0 : good r st0 -> good (dropRun r) st0.
Proof.
  revert st0. induction r as [[a|e] st | st wake resume IH]; intros st0 [F R];
    cbn [dropRun].
  - split; [exact F | exact I].
  - split; [exact F | exact I].
  - split; [exact F|]. cbn [respects]. intro st'. apply (IH st' st'). exact (R st').
Qed.

Lemma oneWay_ret {A} (a : A) : oneWay (retA a).
Proof. intro st. split; [apply flagKept_refl | exact I]. Qed.

Lemma oneWay_throw {A} e : oneWay (@throwA A e).
Proof. intro st. split; [apply flagKept_refl | exact I]. Qed.

Lemma oneWay_lift {A} (m : M A) : keepsFlag m -> oneWay (liftA m).
Proof. intros H st. split; [apply H | exact I]. Qed.

Lemma oneWay_bind {A B} (m : Async A) (k : A -> Async B) :
  oneWay m -> (forall a, oneWay (k a)) -> oneWay (bindA m k).
Proof. intros Hm Hk st. apply good_bindRun; [apply Hm | exact Hk]. Qed.

Lemma oneWay_try_catch {A} (m : Async A) (h : Exn -> Async A) :
  oneWay m -> (forall e, oneWay (h e)) -> oneWay (try_catchA m h).
Proof. intros Hm Hh st. apply good_catchRun; [apply Hm | exact Hh]. Qed.

Lemma oneWay_await {A} (m : Async A) : oneWay m -> oneWay (awaitA m).
Proof. intros Hm st. apply good_settled, Hm. Qed.

Lemma oneWay_fetch w url prompt signal : oneWay (fetchA w url prompt signal).
Proof.
  intro st. unfold fetchA.
  destruct (signal <=? clock st)%N; [|destruct (_ <? signal)%N];
    (split; [intro H; exact H | intro st'; split; [intro H; exact H | exact I]]).
Qed.

Lemma oneWay_sleep ms : oneWay (sleepA ms).
Proof.
  intro st. split; [apply flagKept_refl|].
  intro st'. split; [intro H; exact H | exact I].
Qed.

Lemma keepsFlag_stateless {A} (m : M A) : stateless m -> keepsFlag m.
Proof. intros H st. rewrite H. apply flagKept_refl. Qed.

Ltac keeps_flag :=
  first
    [ apply keepsFlag_stateless; intro; reflexivity
    | apply keepsFlag_noFetch; no_fetch_mock ].

Ltac one_way :=
  repeat first
    [ apply oneWay_ret | apply oneWay_throw
    | apply oneWay_fetch | apply oneWay_sleep
    | apply oneWay_lift; keeps_flag
    | apply oneWay_bind; [|intros ?]
    | apply oneWay_try_catch; [|intros ?]
    | match goal with
      | |- oneWay (if ?c then _ else _) => destruct c
      | |- oneWay (match ?x with _ => _ end) => destruct x
      end ].

Lemma oneWay_attemptOnce w endpoint prompt signal maxRetries attempt last :
  oneWay (attemptOnceA w endpoint prompt signal maxRetries attempt last).
Proof. unfold attemptOnceA. one_way. Qed.

Lemma oneWay_attempts w remaining endpoint prompt signal maxRetries :
  forall attempt last,
    oneWay (attemptsA w remaining endpoint prompt signal maxRetries attempt last).
Proof.
  induction remaining as [|n IH]; intros attempt last; cbn [attemptsA].
  - apply oneWay_ret.
  - apply oneWay_bind; [apply oneWay_attemptOnce|].
    intros [r|last']; [apply oneWay_ret | apply IH].
Qed.

Lemma oneWay_makeRequestWithRetry w endpoint prompt signal maxRetries :
  oneWay (makeRequestWithRetryA w endpoint prompt signal maxRetries).
Proof.
  unfold makeRequestWithRetryA.
  destruct (PROD w); [apply oneWay_ret | apply oneWay_attempts].
Qed.

Lemma oneWay_tryEndpoints w eps prompt signal :
  forall response lastError,
    oneWay (tryEndpointsA w eps prompt signal response lastError).
Proof.
  induction eps as [|endpoint rest IH]; intros response lastError; cbn [tryEndpointsA].
  - apply oneWay_ret.
  - apply oneWay_bind.
    + apply oneWay_try_catch; [|intros ?; one_way].
      apply oneWay_bind; [apply oneWay_await, oneWay_makeRequestWithRetry|].
      intros [r|]; one_way.
    + intros [exit|[response' lastError']]; [apply oneWay_ret | apply IH].
Qed.

Lemma oneWay_makeApiRequest w prompt : oneWay (makeApiRequestA w prompt).
Proof.
  unfold makeApiRequestA.
  destruct (PROD w); [one_way|].
  apply oneWay_bind; [one_way|]. intros [|]; [one_way|].
  apply oneWay_bind; [one_way|]. intro now.
  apply oneWay_try_catch; [|intros ?; one_way].
  apply oneWay_bind; [one_way|]. intros [|]; cbn [negb]; [|apply oneWay_throw].
  apply oneWay_bind; [apply oneWay_tryEndpoints|].
  intros [text|[response|] lastError].
  - one_way.
  - destruct (ok response).
    + apply oneWay_bind; [apply oneWay_await; one_way|]. intro data. one_way.
    + apply oneWay_bind; [|intros ?; apply oneWay_throw].
      apply oneWay_lift. destruct (includes _ _); keeps_flag.
  - apply oneWay_bind; [|intros ?; apply oneWay_throw].
    apply oneWay_lift. destruct (includes _ _); keeps_flag.
Qed.

Lemma oneWay_testApiConnection w : oneWay (testApiConnectionA w).
Proof.
  unfold testApiConnectionA.
  destruct (PROD w); [apply oneWay_ret|].
  apply oneWay_bind; [one_way|]. intros [|]; [apply oneWay_ret|].
  apply oneWay_try_catch; [|intros ?; apply oneWay_ret].
  apply oneWay_bind; [apply oneWay_await, oneWay_makeApiRequest|].
  intros [r|v]; [apply oneWay_throw|]. destruct v; one_way.
Qed.

Lemma keepsFlag_set_true : keepsFlag (set_useMockData true).
Proof. intros st _. reflexivity. Qed.

Lemma oneWay_connectionProbe w : oneWay (connectionProbeA w).
Proof.
  unfold connectionProbeA.
  apply oneWay_bind; [apply oneWay_await, oneWay_testApiConnection|].
  intros [|]; [apply oneWay_ret | apply oneWay_lift, keepsFlag_set_true].
Qed.

Lemma keepsFlag_mockSmartSearchResult w query : keepsFlag (mockSmartSearchResult w query).
Proof. apply keepsFlag_noFetch, noFetch_quiet, quiet_mockSmartSearchResult. Qed.

Lemma oneWay_enhanceSearchQuery w query : oneWay (enhanceSearchQueryA w query).
Proof.
  assert (Hm := keepsFlag_mockSmartSearchResult w query).
  unfold enhanceSearchQueryA.
  apply oneWay_try_catch; [|intros ?; apply oneWay_lift, Hm].
  destruct (PROD w); [apply oneWay_lift, Hm|].
  apply oneWay_bind; [one_way|]. intros [|]; [apply oneWay_lift, Hm|].
  apply oneWay_bind; [apply oneWay_await, oneWay_makeApiRequest|].
  intros [r|v].
  - destruct (SmartSearchResult.enhancedQuery r);
      [apply oneWay_lift, Hm | apply oneWay_ret].
  - apply oneWay_bind.
    + destruct v; one_way.
    + intros [|]; [apply oneWay_ret|].
      destruct (truthy _); [apply oneWay_ret | apply oneWay_lift, Hm].
Qed.

Lemma oneWay_facadeOperation {T} w (mock : M T) prompt :
  noFetch mock -> oneWay (facadeOperationA w mock prompt).
Proof.
  intro Hmock.
  assert (Hm : keepsFlag (t <- mock ;; ret (Typed t))).
  { apply keepsFlag_noFetch, noFetch_bind; [exact Hmock | intros; apply noFetch_ret]. }
  unfold facadeOperationA.
  apply oneWay_try_catch; [|intros ?; apply oneWay_lift, Hm].
  apply oneWay_bind; [one_way|]. intro inMock.
  destruct (PROD w || inMock); [apply oneWay_lift, Hm|].
  apply oneWay_bind; [apply oneWay_await, oneWay_makeApiRequest|].
  intro response. apply oneWay_lift, keepsFlag_noFetch, noFetch_recoverOr, Hmock.
Qed.

Lemma oneWay_drop {A} (m : Async A) : oneWay m -> oneWay (fun st => dropRun (m st)).
Proof. intros H st. apply good_dropRun, H. Qed.

Lemma oneWay_perform w op : oneWay (performA w op).
Proof.
  destruct op; unfold performA; apply oneWay_drop.
  - apply oneWay_lift, keepsFlag_noFetch, noFetch_forceMockMode.
  - apply oneWay_lift, keepsFlag_stateless. intro; reflexivity.
  - apply oneWay_lift, keepsFlag_stateless. intro st. unfold validateApiKey.
    destruct (_ || _); [reflexivity|]. destruct (negb _); reflexivity.
  - apply oneWay_testApiConnection.
  - apply oneWay_makeApiRequest.
  - apply oneWay_enhanceSearchQuery.
  - apply oneWay_facadeOperation, noFetch_ret.
  - apply oneWay_facadeOperation, noFetch_quiet, quiet_generateDynamicMarketAnalysis.
  - apply oneWay_facadeOperation, noFetch_ret.
  - apply oneWay_bind; [one_way|]. intros [|];
      [apply oneWay_ret | apply oneWay_connectionProbe].
Qed.

Lemma respects_constructor w : respects (constructor w).
Proof.
  unfold constructor. destruct (useMockData (construct w)); [exact I|].
  apply oneWay_connectionProbe.
Qed.

(** *** Schedules *)

Lemma Forall_firstn {A} (P : A -> Prop) n (l : list A) :
  Forall P l -> Forall P (firstn n l).
Proof.
  intro H. revert n. induction H; intros [|n]; simpl; constructor; auto.
Qed.

Lemma Forall_skipn {A} (P : A -> Prop) n (l : list A) :
  Forall P l -> Forall P (skipn n l).
Proof.
  intro H. revert n. induction H; intros [|n]; simpl; auto.
Qed.

Lemma Forall_replaceTask i r tasks :
  Forall respects tasks -> respects r -> Forall respects (replaceTask i r tasks).
Proof.
  intros Ht Hr. unfold replaceTask. apply Forall_app. split.
  - apply Forall_firstn, Ht.
  - constructor; [exact Hr|]. apply Forall_skipn, Ht.
Qed.

Lemma Forall_nth_error {A} (P : A -> Prop) (l : list A) i x :
  Forall P l -> nth_error l i = Some x -> P x.
Proof.
  intros H E. rewrite Forall_forall in H. apply H. eapply nth_error_In, E.
Qed.

(** One action keeps the flag, and leaves every call in flight such that
    it keeps the flag however it is resumed. *)
Lemma act_oneWay w cfg a :
  Forall respects (fst cfg) ->
  flagKept (snd cfg) (snd (act w cfg a)) /\ Forall respects (fst (act w cfg a)).
Proof.
  destruct cfg as [tasks st]. simpl. intro Ht. destruct a as [op|i|t]; simpl.
  - destruct (oneWay_perform w op st) as [Hk Hr]. split; [exact Hk|].
    apply Forall_app. split; [exact Ht|]. constructor; [exact Hr|constructor].
  - destruct (nth_error tasks i) as [[r st0|st0 wake resume]|] eqn:E; simpl;
      try (split; [intro H; exact H | exact Ht]).
    assert (Hres := Forall_nth_error _ _ _ _ Ht E). simpl in Hres.
    destruct (Hres st) as [Hk Hr]. split; [exact Hk|].
    apply Forall_replaceTask; assumption.
  - split; [intro H; exact H | exact Ht].
Qed.

Lemma schedule_oneWay w actions cfg :
  Forall respects (fst cfg) ->
  flagKept (snd cfg) (snd (schedule w actions cfg)) /\
  Forall respects (fst (schedule w actions cfg)).
Proof.
  unfold schedule. revert cfg. induction actions as [|a actions IH]; intros cfg Ht.
  - split; [intro H; exact H | exact Ht].
  - simpl. destruct (act_oneWay w cfg a Ht) as [Hk Ht'].
    destruct (IH _ Ht') as [Hk' Ht''].
    split; [|exact Ht'']. intro H. apply Hk', Hk, H.
Qed.

Lemma schedule_app w xs ys cfg :
  schedule w (xs ++ ys) cfg = schedule w ys (schedule w xs cfg).
Proof. unfold schedule. apply fold_left_app. Qed.

Lemma created_respects w : Forall respects (fst (created w)).
Proof. constructor; [apply respects_constructor | constructor]. Qed.

(** *** Calls made in mock mode *)

Lemma atOnce_lift {A} (m : M A) st : atOnce (liftA m st).
Proof. eexists _, _. reflexivity. Qed.

Lemma atOnce_ret {A} (a : A) st : atOnce (retA a st).
Proof. eexists _, _. reflexivity. Qed.

Lemma atOnce_drop {A} (r : Run A) : atOnce r -> atOnce (dropRun r).
Proof. intros ([x|e] & st & ->); eexists _, _; reflexivity. Qed.

Lemma atOnce_catch {A} (r : Run A) (h : Exn -> Async A) :
  atOnce r -> (forall e st, atOnce (h e st)) -> atOnce (catchRun r h).
Proof.
  intros ([x|e] & st & ->) Hh; simpl; [eexists _, _; reflexivity | apply Hh].
Qed.

Lemma atOnce_flag {A} (k : bool -> Async A) st :
  useMockData st = true -> atOnce (k true st) ->
  atOnce (bindA (liftA get_useMockData) k st).
Proof.
  intros H Hk. unfold bindA, liftA, get_useMockData. simpl. rewrite H. exact Hk.
Qed.

Lemma atOnce_makeApiRequest w prompt st :
  useMockData st = true -> atOnce (makeApiRequestA w prompt st).
Proof.
  intro H. unfold makeApiRequestA. destruct (PROD w); [apply atOnce_lift|].
  apply atOnce_flag; [exact H | apply atOnce_lift].
Qed.

Lemma atOnce_testApiConnection w st :
  useMockData st = true -> atOnce (testApiConnectionA w st).
Proof.
  intro H. unfold testApiConnectionA. destruct (PROD w); [apply atOnce_ret|].
  apply atOnce_flag; [exact H | apply atOnce_ret].
Qed.

Lemma atOnce_enhanceSearchQuery w query st :
  useMockData st = true -> atOnce (enhanceSearchQueryA w query st).
Proof.
  intro H. unfold enhanceSearchQueryA, try_catchA.
  apply atOnce_catch; [|intros; apply atOnce_lift].
  destruct (PROD w); [apply atOnce_lift|].
  apply atOnce_flag; [exact H | apply atOnce_lift].
Qed.

Lemma atOnce_facadeOperation {T} w (mock : M T) prompt st :
  useMockData st = true -> atOnce (facadeOperationA w mock prompt st).
Proof.
  intro H. unfold facadeOperationA, try_catchA.
  apply atOnce_catch; [|intros; apply atOnce_lift].
  apply atOnce_flag; [exact H|]. rewrite orb_true_r. apply atOnce_lift.
Qed.

(** Called while the flag is set, an operation finishes at once. *)
Lemma performA_atOnce w op st :
  useMockData st = true -> atOnce (performA w op st).
Proof.
  intro H. destruct op; unfold performA; apply atOnce_drop;
    try apply atOnce_lift.
  - apply atOnce_testApiConnection, H.
  - apply atOnce_makeApiRequest, H.
  - apply atOnce_enhanceSearchQuery, H.
  - apply atOnce_facadeOperation, H.
  - apply atOnce_facadeOperation, H.
  - apply atOnce_facadeOperation, H.
  - apply atOnce_flag; [exact H | apply atOnce_ret].
Qed.

(** *** The flag and the fetches of an instance *)

Lemma construct_fetchLog w : fetchLog (construct w) = [].
Proof.
  unfold construct. destruct (PROD w); [reflexivity|].
  destruct (validateApiKey _) as [[valid|e] st']; reflexivity.
Qed.

(** The instance whose connection test has come to its end before the
    first call is made has fetched only while the flag was false. *)
Lemma constructor_alone_fetchedLive w :
  Forall (fun e => fetchInMockMode e = false)
    (fetchLog (snd (alone (constructor w)))).
Proof.
  rewrite constructor_alone.
  destruct (connectionProbe_disciplined w (construct w)) as [_ (new & E & F)].
  rewrite E, construct_fetchLog. exact F.
Qed.

(** C2, as stated: the probe that the constructor starts is waiting for
    the answer of the first endpoint, a 500, when [forceMockMode] is
    called; resumed, it goes on to the second endpoint and fetches, with
    [useMockData] true. *)
Lemma probe_fetches_after_forceMockMode :
  let w := Scenario.fallback in
  let forced := schedule w [Call CallForceMockMode; Resume 0] (created w) in
  let later := schedule w [Resume 0] forced in
  useMockData (snd (created w)) = false
  /\ useMockData (snd forced) = true
  /\ map fetchInMockMode (fetchLog (snd forced)) = [false]
  /\ useMockData (snd later) = true
  /\ map fetchInMockMode (fetchLog (snd later)) = [false; true]
  /\ map fetchUrl (fetchLog (snd later))
     = [urlOf endpoint1 (snd forced); urlOf endpoint2 (snd forced)].
Proof. vm_compute. repeat split. Qed.

(** C2, amended: the flag is one-directional however calls overlap: from
    the construction of the instance on, over any succession of calls of
    the public operations, resumptions of suspended calls (the connection
    test of the constructor among them) and passing of time, once
    [useMockData] is true it is true ever after. An operation that is
    called while the flag is true comes to its end before it returns to
    its caller, issues no fetch and leaves the flag true. And when calls
    do not overlap, each one left alone until its end before the next is
    made ([perform] is the call left alone), no fetch is issued while the
    flag is true: from any state, and so in the whole log of an instance
    whose connection test has come to its end before the first call. A
    call that was suspended while the flag was false is not bound by
    this. *)
Theorem mock_mode_is_one_way (w : World) :
  (forall actions more : list Action,
     useMockData (snd (schedule w actions (created w))) = true ->
     useMockData (snd (schedule w (actions ++ more) (created w))) = true)
  /\ (forall (op : Operation) (st : State),
        useMockData st = true ->
        (exists r, performA w op st = Finished r (perform w op st))
        /\ useMockData (perform w op st) = true
        /\ fetchLog (perform w op st) = fetchLog st)
  /\ (forall (op : Operation) (st : State),
        snd (alone (performA w op st)) = perform w op st)
  /\ (forall (ops : list Operation) (st : State),
        (useMockData st = true ->
         useMockData (performAll w ops st) = true
         /\ fetchLog (performAll w ops st) = fetchLog st)
        /\ fetchedLive st (performAll w ops st))
  /\ (forall ops : list Operation,
        Forall (fun e => fetchInMockMode e = false)
          (fetchLog (performAll w ops (snd (alone (constructor w)))))).
Proof.
  split; [|split; [|split; [|split]]].
  - intros actions more H. rewrite schedule_app.
    refine (proj1 (schedule_oneWay w more _ _) H).
    apply (schedule_oneWay w actions (created w)), created_respects.
  - intros op st H. destruct (perform_disciplined w op st) as [HM _].
    split; [|exact (HM H)].
    destruct (performA_atOnce w op st H) as (r & st' & E).
    exists r. rewrite E. f_equal.
    rewrite <- performA_alone, E. reflexivity.
  - intros op st. apply performA_alone.
  - intros ops st. apply performAll_disciplined.
  - intro ops.
    destruct (performAll_disciplined w ops (snd (alone (constructor w))))
      as [_ (new & E & F)].
    rewrite E. apply Forall_app. split; [apply constructor_alone_fetchedLive | exact F].
Qed.

(* ================================================================= *)
(** * Further properties *)

(* ================================================================= *)
(** ** Construction of the service *)

(** The fields that the constructor assigns. *)
Lemma construct_fields (w : World) :
  (useMockData (construct w) = false
   <-> PROD w = false
       /\ (10 <= List.length (GEMINI_API_KEY w))%nat
       /\ startsWith (js "AIza") (GEMINI_API_KEY w) = true)
  /\ apiKey (construct w) = (if PROD w then [] else GEMINI_API_KEY w)
  /\ clock (construct w) = 0%N.
Proof.
  unfold construct, validateApiKey. cbn [apiKey].
  destruct (PROD w); cbn [useMockData apiKey clock].
  { split; [split; [discriminate | intros [H _]; discriminate H] | split; reflexivity]. }
  destruct (GEMINI_API_KEY w) as [|c key] eqn:K.
  { cbn. split; [split; [discriminate | intros (_ & H & _); lia] | split; reflexivity]. }
  cbn [orb].
  destruct (Nat.ltb_spec (List.length (c :: key)) 10).
  { cbn. split; [split; [discriminate | intros (_ & H' & _); cbn in H'; cbn in H; lia]
                | split; reflexivity]. }
  destruct (startsWith (js "AIza") (c :: key)) eqn:S; cbn.
  - split; [split; [intros _; repeat split; assumption | reflexivity] | split; reflexivity].
  - split; [split; [discriminate | intros (_ & _ & H'); discriminate H']
           | split; reflexivity].
Qed.

Lemma leaves_bindRun {A B} (r : Run A) (k : A -> Async B) st :
  leaves r st -> leaves (bindRun r k) st.
Proof. destruct r; intros [P S]; [discriminate P | split; [reflexivity | exact S]]. Qed.

Lemma leaves_catchRun {A} (r : Run A) (h : Exn -> Async A) st :
  leaves r st -> leaves (catchRun r h) st.
Proof. destruct r; intros [P S]; [discriminate P | split; [reflexivity | exact S]]. Qed.

Lemma leaves_settled {A} (r : Run A) : leaves (settled r) (stateOf r).
Proof. destruct r; split; reflexivity. Qed.

Lemma leaves_fetch w url prompt signal st :
  leaves (fetchA w url prompt signal st) (issued url prompt st).
Proof.
  unfold fetchA. destruct (_ <=? _)%N; [split; reflexivity|].
  destruct (_ <? _)%N; split; reflexivity.
Qed.

(** A live request that finds the browser on line is suspended in the
    fetch of the first endpoint. *)
Lemma makeApiRequestA_first_fetch w prompt st :
  PROD w = false -> useMockData st = false -> onLine w (clock st) = true ->
  leaves (makeApiRequestA w prompt st) (issued (urlOf endpoint1 st) prompt st).
Proof.
  intros P F O. unfold makeApiRequestA. rewrite P.
  unfold bindA at 1, liftA at 1, get_useMockData. cbn [fst snd bindRun]. rewrite F.
  unfold bindA at 1, liftA at 1, get_clock. cbn [fst snd bindRun].
  unfold try_catchA. apply leaves_catchRun.
  unfold bindA at 1, liftA at 1. cbn [fst snd bindRun]. rewrite O. cbn [negb].
  unfold bindA at 1. apply leaves_bindRun.
  unfold endpoints. cbn [tryEndpointsA].
  unfold bindA at 1. apply leaves_bindRun.
  unfold try_catchA. apply leaves_catchRun.
  unfold bindA at 1. apply leaves_bindRun.
  unfold awaitA.
  replace (issued (urlOf endpoint1 st) prompt st)
    with (stateOf (makeRequestWithRetryA w endpoint1 prompt (clock st + timeoutMs)%N
                     defaultMaxRetries st)); [apply leaves_settled|].
  unfold makeRequestWithRetryA. rewrite P. unfold defaultMaxRetries.
  cbn [attemptsA]. unfold bindA at 1.
  apply leaves_bindRun. unfold attemptOnceA, try_catchA. apply leaves_catchRun.
  unfold bindA at 1, liftA at 1, aborted. cbn [fst snd bindRun].
  replace (clock st + timeoutMs <=? clock st)%N with false
    by (symmetry; apply N.leb_gt; unfold timeoutMs; lia).
  unfold bindA at 1, liftA at 1. cbn [fst snd bindRun].
  unfold bindA at 1. apply leaves_bindRun. apply leaves_fetch.
Qed.

(** Off line it fails before it has suspended. *)
Lemma makeApiRequestA_offline w prompt st :
  PROD w = false -> useMockData st = false -> onLine w (clock st) = false ->
  stateOf (makeApiRequestA w prompt st) = st.
Proof.
  intros P F O. unfold makeApiRequestA. rewrite P.
  unfold bindA at 1, liftA at 1, get_useMockData. cbn [fst snd bindRun]. rewrite F.
  unfold bindA at 1, liftA at 1, get_clock. cbn [fst snd bindRun].
  unfold try_catchA.
  unfold bindA at 1, liftA at 1. cbn [fst snd bindRun]. rewrite O. cbn [negb].
  unfold throwA at 1. cbn [catchRun].
  destruct (_ || _); [reflexivity|].
  destruct (includes _ _); [reflexivity|].
  destruct (includes _ _); reflexivity.
Qed.

(** The connection test of a live instance is waiting when the
    constructor returns. *)
Lemma connectionProbeA_leaves w st :
  PROD w = false -> useMockData st = false ->
  leaves (connectionProbeA w st) (stateOf (makeApiRequestA w testPrompt st)).
Proof.
  intros P F. unfold connectionProbeA, bindA at 1. apply leaves_bindRun.
  unfold awaitA.
  replace (stateOf (makeApiRequestA w testPrompt st))
    with (stateOf (testApiConnectionA w st)); [apply leaves_settled|].
  unfold testApiConnectionA. rewrite P.
  unfold bindA at 1, liftA at 1, get_useMockData. cbn [fst snd bindRun]. rewrite F.
  unfold try_catchA, bindA, awaitA. fold testPrompt.
  apply (leaves_catchRun _ _ _ (leaves_bindRun _ _ _ (leaves_settled _))).
Qed.

(** X1: a new instance starts live, that is with [useMockData] false,
    exactly when it is not a production build and the configured key has
    at least ten characters and starts with AIza; the key is stored only
    outside production. The connection test of a live instance is in
    progress when the constructor returns, and has issued its first fetch,
    to the first endpoint, if the browser is on line; no other instance
    has fetched anything. *)
Theorem constructor_live_iff_key_plausible (w : World) :
  let st := stateOf (constructor w) in
  (useMockData st = false
   <-> PROD w = false
       /\ (10 <= List.length (GEMINI_API_KEY w))%nat
       /\ startsWith (js "AIza") (GEMINI_API_KEY w) = true)
  /\ apiKey st = (if PROD w then [] else GEMINI_API_KEY w)
  /\ pending (constructor w) = negb (useMockData st)
  /\ fetchLog st
     = (if negb (useMockData st) && onLine w 0
        then [mkFetch (endpoint1 ++ js "?key=" ++ GEMINI_API_KEY w) testPrompt false]
        else [])
  /\ clock st = 0%N.
Proof.
  destruct (construct_fields w) as (Hiff & Hkey & Hclock).
  assert (Hlog := construct_fetchLog w).
  cbv zeta. unfold constructor.
  destruct (useMockData (construct w)) eqn:F.
  - cbn [stateOf pending]. rewrite F, Hlog. cbn [negb andb].
    split; [exact Hiff | repeat split; assumption].
  - assert (P : PROD w = false) by (apply Hiff; reflexivity).
    destruct (connectionProbeA_leaves w (construct w) P F) as [Hp Hs].
    rewrite Hp, Hs. rewrite P in Hkey, Hiff. rewrite P.
    destruct (onLine w 0) eqn:O.
    + destruct (makeApiRequestA_first_fetch w testPrompt (construct w) P F) as [_ E].
      { rewrite Hclock. exact O. }
      rewrite E. unfold issued, urlOf. cbn [useMockData apiKey fetchLog clock].
      rewrite F, Hlog, Hkey, Hclock. cbn [negb andb app].
      split; [exact Hiff | repeat split; assumption].
    + rewrite makeApiRequestA_offline; [|exact P|exact F|rewrite Hclock; exact O].
      rewrite F, Hlog, Hkey, Hclock. cbn [negb andb].
      split; [exact Hiff | repeat split; assumption].
Qed.

(* ================================================================= *)
(** ** Production builds *)

Lemma noFetch_get_useMockData : noFetch get_useMockData.
Proof. apply noFetch_stateless. intro st. reflexivity. Qed.

Lemma validateApiKey_stateless : stateless validateApiKey.
Proof.
  intro st. unfold validateApiKey. destruct (_ || _); [reflexivity|].
  destruct (negb _); reflexivity.
Qed.

Lemma noFetch_production w op :
  PROD w = true -> forall st, fetchLog (perform w op st) = fetchLog st.
Proof.
  intros HP st.
  assert (Hmarket : noFetch (generateMockMarketAnalysis w)).
  { apply noFetch_quiet, quiet_generateDynamicMarketAnalysis. }
  destruct op; unfold perform.
  - apply noFetch_forceMockMode.
  - reflexivity.
  - rewrite validateApiKey_stateless. reflexivity.
  - unfold testApiConnection. rewrite HP. reflexivity.
  - unfold makeApiRequest. rewrite HP. apply noFetch_quiet, quiet_mockFor.
  - unfold enhanceSearchQuery. rewrite HP.
    apply noFetch_try_catch; intros; apply noFetch_quiet, quiet_mockSmartSearchResult.
  - unfold categorizeProducts. rewrite HP. cbn [orb].
    apply noFetch_try_catch; [|intros; no_fetch_mock].
    apply noFetch_bind; [apply noFetch_get_useMockData | intros; no_fetch_mock].
  - unfold analyzeMarketTrends. rewrite HP. cbn [orb].
    apply noFetch_try_catch;
      [|intros; apply noFetch_bind; [exact Hmarket | intros; apply noFetch_ret]].
    apply noFetch_bind; [apply noFetch_get_useMockData | intros].
    apply noFetch_bind; [exact Hmarket | intros; apply noFetch_ret].
  - unfold getPersonalizedRecommendations. rewrite HP. cbn [orb].
    apply noFetch_try_catch; [|intros; no_fetch_mock].
    apply noFetch_bind; [apply noFetch_get_useMockData | intros; no_fetch_mock].
  - unfold connectionProbe, testApiConnection. rewrite HP.
    apply noFetch_bind; [apply noFetch_get_useMockData | intros [|]]; no_fetch.
Qed.

(** X2: in a production build no sequence of public operations issues a
    fetch, whatever the state of the instance, its flag included. *)
Theorem production_never_fetches (w : World) (ops : list Operation) (st : State) :
  PROD w = true -> fetchLog (performAll w ops st) = fetchLog st.
Proof.
  intro HP. revert st. induction ops as [|op ops IH]; intro st; simpl.
  - reflexivity.
  - change (fetchLog (performAll w ops (perform w op st)) = fetchLog st).
    rewrite IH. apply noFetch_production, HP.
Qed.

Lemma production_never_fetches_witness :
  PROD Scenario.production = true
  /\ fetchLog
       (performAll Scenario.production
          [CallEnhanceSearchQuery (js "iphone"); CallTestApiConnection;
           CallMakeApiRequest (js "Hello")]
          (mkState Scenario.key false 0 [] 0))
     = [].
Proof.
  split; [reflexivity|].
  apply (production_never_fetches Scenario.production
           [CallEnhanceSearchQuery (js "iphone"); CallTestApiConnection;
            CallMakeApiRequest (js "Hello")]
           (mkState Scenario.key false 0 [] 0)).
  reflexivity.
Defined.

(* ================================================================= *)
(** ** Failures of a live request *)

Lemma error_names :
  str_eqb (js "Error") (js "AbortError") = false
  /\ str_eqb (js "TypeError") (js "AbortError") = false
  /\ str_eqb (js "AbortError") (js "AbortError") = true.
Proof. vm_compute. repeat split. Qed.

Lemma error_messages :
  includes (js "timed out") (js "No internet connection") = false
  /\ includes (js "Failed to fetch") (js "No internet connection") = false
  /\ includes (js "No internet connection") (js "No internet connection") = true
  /\ includes (js "timed out") (js "Request timed out. Please try again.") = true
  /\ includes (js "timed out") (js "Invalid response structure from Gemini API") = false
  /\ includes (js "Failed to fetch") (js "Invalid response structure from Gemini API") = false
  /\ includes (js "No internet connection")
       (js "Invalid response structure from Gemini API") = false.
Proof. vm_compute. repeat split. Qed.

(** X3: a live request made while the browser is off line fails with the
    message that asks to check the network, and nothing is fetched or
    changed. *)
Theorem makeApiRequest_offline (w : World) (prompt : jsstring) (st : State) :
  PROD w = false -> useMockData st = false -> onLine w (clock st) = false ->
  makeApiRequest w prompt st
  = (Throw (Error (js "No internet connection. Please check your network.")), st).
Proof.
  intros HP HM HO.
  destruct error_names as (N1 & _). destruct error_messages as (M1 & M2 & M3 & _).
  unfold makeApiRequest. rewrite HP.
  unfold bind at 1. unfold get_useMockData. rewrite HM.
  unfold bind at 1. unfold get_clock.
  unfold try_catch. unfold bind at 1. rewrite HO.
  cbn [negb throw Error name message]. rewrite N1, M1, M2, M3. reflexivity.
Qed.

Lemma makeApiRequest_offline_witness :
  makeApiRequest Cases.offline (js "Hello") (construct Cases.offline)
  = (Throw (Error (js "No internet connection. Please check your network.")),
     construct Cases.offline).
Proof.
  apply (makeApiRequest_offline Cases.offline (js "Hello") (construct Cases.offline));
    reflexivity.
Defined.

Lemma fetch_cut_short w url prompt signal st :
  (clock st < signal)%N ->
  (signal <= clock st + latency (network w url (List.length (fetchLog st))))%N ->
  fetch w url prompt signal st = (Throw AbortError, logged url prompt signal st).
Proof.
  intros H1 H2. unfold fetch.
  destruct (N.leb_spec signal (clock st)); [lia|].
  destruct (N.ltb_spec (clock st + latency (network w url (List.length (fetchLog st)))) signal);
    [lia | reflexivity].
Qed.

Lemma attemptOnce_cut_short w endpoint prompt signal maxRetries attempt last st :
  (clock st < signal)%N ->
  (signal <= clock st
             + latency (network w (urlOf endpoint st) (List.length (fetchLog st))))%N ->
  attemptOnce w endpoint prompt signal maxRetries attempt last st
  = (Throw AbortError, logged (urlOf endpoint st) prompt signal st).
Proof.
  intros H1 H2. destruct error_names as (_ & _ & N3).
  unfold attemptOnce, try_catch. unfold bind at 1. unfold aborted.
  destruct (N.leb_spec signal (clock st)); [lia|].
  unfold bind at 1. unfold bind at 1. fold (urlOf endpoint st).
  rewrite (fetch_cut_short w _ prompt signal st H1 H2).
  change (name AbortError) with (js "AbortError"). rewrite N3. reflexivity.
Qed.

(** X4: when the first call of a live request is not answered within the
    thirty seconds, the request fails at that moment with the timeout
    message, after that one fetch: no retry, no other endpoint. *)
Theorem makeApiRequest_timeout_in_flight (w : World) (prompt : jsstring) (st : State) :
  live w st ->
  (timeoutMs <= latency (network w (urlOf endpoint1 st) (List.length (fetchLog st))))%N ->
  makeApiRequest w prompt st
  = (Throw (Error (js "Request timed out. Please try again.")),
     logged (urlOf endpoint1 st) prompt (clock st + timeoutMs) st).
Proof.
  intros Hlive Hl. pose proof Hlive as (HP & HM & HO).
  destruct error_names as (N1 & _ & N3). destruct error_messages as (_ & _ & _ & M4 & _).
  rewrite (makeApiRequest_live w prompt st Hlive).
  set (signal := (clock st + timeoutMs)%N).
  assert (E : makeRequestWithRetry w endpoint1 prompt signal defaultMaxRetries st
              = (Throw AbortError, logged (urlOf endpoint1 st) prompt signal st)).
  { unfold makeRequestWithRetry. rewrite HP. simpl attempts.
    apply bind_Throw. apply attemptOnce_cut_short; unfold signal, timeoutMs in *; lia. }
  assert (L : tryEndpoints w endpoints prompt signal None [] st
              = (Throw (Error (js "Request timed out. Please try again.")),
                 logged (urlOf endpoint1 st) prompt signal st)).
  { unfold endpoints. simpl tryEndpoints. apply bind_Throw.
    unfold try_catch. rewrite (bind_Throw _ _ _ _ _ E).
    change (name AbortError) with (js "AbortError"). rewrite N3. reflexivity. }
  unfold try_catch. rewrite (bind_Throw _ _ _ _ _ L).
  cbn [Error name message]. rewrite N1, M4. reflexivity.
Qed.

Lemma makeApiRequest_timeout_in_flight_witness :
  let w := Scenario.silent in
  live w (construct w)
  /\ makeApiRequest w (js "Hello") (construct w)
     = (Throw (Error (js "Request timed out. Please try again.")),
        logged (urlOf endpoint1 (construct w)) (js "Hello")
          (clock (construct w) + timeoutMs) (construct w)).
Proof.
  intro w. split; [repeat split|].
  apply (makeApiRequest_timeout_in_flight w (js "Hello") (construct w)).
  - repeat split.
  - vm_compute. discriminate.
Defined.

Lemma logged_next endpoint url prompt t st :
  urlOf endpoint (logged url prompt t st) = urlOf endpoint st
  /\ List.length (fetchLog (logged url prompt t st)) = S (List.length (fetchLog st))
  /\ clock (logged url prompt t st) = t
  /\ useMockData (logged url prompt t st) = useMockData st.
Proof.
  unfold urlOf, logged. cbn [apiKey fetchLog clock useMockData].
  rewrite length_app, Nat.add_1_r. repeat split.
Qed.

(** X5: when the three endpoints answer in time with an HTTP error other
    than 429, a live request makes exactly three fetches, one per
    endpoint and in their order, and fails with the error that names the
    last endpoint and its status, reworded when that text holds one of
    the three recognised parts; the service goes to mock mode exactly
    when the text of the last failure holds 429. *)
Theorem makeApiRequest_all_endpoints_fail (w : World) (prompt : jsstring) (st : State)
  (r1 r2 r3 : Response) (l1 l2 l3 : N) :
  live w st ->
  network w (urlOf endpoint1 st) (List.length (fetchLog st))
    = mkOutcome l1 (Responds r1) -> ok r1 = false -> status r1 <> 429%Z ->
  network w (urlOf endpoint2 st) (S (List.length (fetchLog st)))
    = mkOutcome l2 (Responds r2) -> ok r2 = false -> status r2 <> 429%Z ->
  network w (urlOf endpoint3 st) (S (S (List.length (fetchLog st))))
    = mkOutcome l3 (Responds r3) -> ok r3 = false -> status r3 <> 429%Z ->
  (l1 + l2 + l3 < timeoutMs)%N ->
  let lastError :=
    js "Endpoint " ++ endpoint3 ++ js ": " ++ string_of_Z (status r3)
      ++ js " " ++ statusText r3 in
  exists st',
    makeApiRequest w prompt st
    = (Throw (Error (classified
                       (js "All Gemini API endpoints failed. Last error: "
                          ++ lastError))), st')
    /\ map fetchUrl (fetchLog st')
       = map fetchUrl (fetchLog st)
           ++ [urlOf endpoint1 st; urlOf endpoint2 st; urlOf endpoint3 st]
    /\ useMockData st' = includes (js "429") lastError.
Proof.
  intros Hlive N1 K1 S1 N2 K2 S2 N3 K3 S3 Ht lastError.
  pose proof Hlive as (HP & HM & HO). destruct error_names as (EN & _).
  set (signal := (clock st + timeoutMs)%N).
  set (st1 := logged (urlOf endpoint1 st) prompt (clock st + l1) st).
  set (st2 := logged (urlOf endpoint2 st) prompt (clock st + l1 + l2) st1).
  set (st3 := logged (urlOf endpoint3 st) prompt (clock st + l1 + l2 + l3) st2).
  assert (E1 : makeRequestWithRetry w endpoint1 prompt signal defaultMaxRetries st
               = (Ok (Some r1), st1)).
  { apply makeRequestWithRetry_response; auto. unfold signal. lia. }
  destruct (logged_next endpoint2 (urlOf endpoint1 st) prompt (clock st + l1) st)
    as (U1 & L1 & C1 & _). fold st1 in U1, L1, C1.
  assert (E2 : makeRequestWithRetry w endpoint2 prompt signal defaultMaxRetries st1
               = (Ok (Some r2), st2)).
  { unfold st2. rewrite <- U1. rewrite <- C1.
    apply makeRequestWithRetry_response; auto.
    - rewrite U1, L1. exact N2.
    - rewrite C1. unfold signal. lia. }
  destruct (logged_next endpoint3 (urlOf endpoint2 st) prompt (clock st + l1 + l2) st1)
    as (U2 & L2 & C2 & _). fold st2 in U2, L2, C2.
  assert (U3 : urlOf endpoint3 st1 = urlOf endpoint3 st) by reflexivity.
  assert (E3 : makeRequestWithRetry w endpoint3 prompt signal defaultMaxRetries st2
               = (Ok (Some r3), st3)).
  { unfold st3. rewrite <- U3, <- U2. rewrite <- C2.
    apply makeRequestWithRetry_response; auto.
    - rewrite U2, L2, U3, L1. exact N3.
    - rewrite C2. unfold signal. lia. }
  assert (L : tryEndpoints w endpoints prompt signal None [] st
              = (Ok (LoopDone (Some r3) lastError), st3)).
  { unfold endpoints.
    rewrite (tryEndpoints_failure w _ _ _ _ _ _ _ _ _ E1 K1).
    rewrite (tryEndpoints_failure w _ _ _ _ _ _ _ _ _ E2 K2).
    rewrite (tryEndpoints_failure w _ _ _ _ _ _ _ _ _ E3 K3).
    reflexivity. }
  rewrite (makeApiRequest_live w prompt st Hlive). fold signal.
  unfold try_catch. rewrite (bind_Ok _ _ _ _ _ L). rewrite K3.
  unfold forceMockMode. rewrite HP. unfold classified.
  assert (Hlog : forall b, map fetchUrl (fetchLog (withMockData b st3))
                 = map fetchUrl (fetchLog st)
                     ++ [urlOf endpoint1 st; urlOf endpoint2 st; urlOf endpoint3 st]).
  { intro b. unfold withMockData, st3, st2, st1, logged. cbn [fetchLog].
    rewrite !map_app. cbn [map fetchUrl]. rewrite <- !app_assoc. reflexivity. }
  assert (Hsame : withMockData false st3 = st3).
  { unfold withMockData, st3, st2, st1, logged. cbn. rewrite HM. reflexivity. }
  destruct (includes (js "429") lastError) eqn:E429.
  - exists (withMockData true st3).
    unfold bind, set_useMockData, throw. cbn [Error name message]. rewrite EN. cbn [orb].
    split; [|split; [apply Hlog | reflexivity]].
    destruct (includes (js "timed out") _); [reflexivity|].
    destruct (includes (js "Failed to fetch") _); [reflexivity|].
    destruct (includes (js "No internet connection") _); reflexivity.
  - exists st3.
    unfold bind, ret, throw. cbn [Error name message]. rewrite EN. cbn [orb].
    split; [|split; [rewrite <- Hsame; apply Hlog
                    | unfold st3, st2, st1, logged; cbn; exact HM]].
    destruct (includes (js "timed out") _); [reflexivity|].
    destruct (includes (js "Failed to fetch") _); [reflexivity|].
    destruct (includes (js "No internet connection") _); reflexivity.
Qed.

Lemma makeApiRequest_all_endpoints_fail_witness :
  let w := Cases.allDown in
  live w (construct w)
  /\ exists st',
      makeApiRequest w (js "Hello") (construct w)
      = (Throw (Error (js "All Gemini API endpoints failed. Last error: "
                         ++ js "Endpoint " ++ endpoint3
                         ++ js ": 500 Internal Server Error")), st')
      /\ List.length (fetchLog st') = 3%nat
      /\ useMockData st' = false.
Proof.
  intro w.
  assert (Hlive : live w (construct w)) by (repeat split).
  split; [exact Hlive|].
  pose proof (makeApiRequest_all_endpoints_fail w (js "Hello") (construct w)
                (mkResponse 500 (js "Internal Server Error") [])
                (mkResponse 500 (js "Internal Server Error") [])
                (mkResponse 500 (js "Internal Server Error") [])
                100 100 100 Hlive
                ltac:(vm_compute; reflexivity) ltac:(reflexivity) ltac:(discriminate)
                ltac:(vm_compute; reflexivity) ltac:(reflexivity) ltac:(discriminate)
                ltac:(vm_compute; reflexivity) ltac:(reflexivity) ltac:(discriminate)
                ltac:(reflexivity)) as H.
  cbv zeta in H. destruct H as (st' & E & L & M).
  exists st'. split; [|split].
  - rewrite E. vm_compute. reflexivity.
  - rewrite <- (length_map fetchUrl), L. reflexivity.
  - rewrite M. vm_compute. reflexivity.
Defined.

Lemma fetch_refused w url prompt signal st l msg :
  network w url (List.length (fetchLog st)) = mkOutcome l (Fails msg) ->
  (clock st + l < signal)%N ->
  fetch w url prompt signal st
  = (Throw (TypeError msg), logged url prompt (clock st + l) st).
Proof.
  intros Hn Ht. unfold fetch. rewrite Hn. cbn [latency result].
  destruct (N.leb_spec signal (clock st)); [lia|].
  destruct (N.ltb_spec (clock st + l) signal); [reflexivity | lia].
Qed.

Lemma attemptOnce_refused_first w endpoint prompt signal maxRetries last st l msg :
  network w (urlOf endpoint st) (List.length (fetchLog st)) = mkOutcome l (Fails msg) ->
  (clock st + l < signal)%N ->
  exists jitter,
    (jitter < 1000)%N
    /\ attemptOnce w endpoint prompt signal maxRetries 0 last st
       = (Ok (Continue last),
          withClock (clock st + l + (1000 + jitter))
            (withRandomDrawn (logged (urlOf endpoint st) prompt (clock st + l) st))).
Proof.
  intros Hn Ht. destruct error_names as (_ & EN & _).
  set (st1 := logged (urlOf endpoint st) prompt (clock st + l) st).
  destruct (random_below_returns w 1000 st1) as (jitter & Ej & Hj).
  exists jitter. split; [apply Hj; lia|].
  unfold attemptOnce, try_catch. unfold bind at 1. unfold aborted.
  destruct (N.leb_spec signal (clock st)); [lia|].
  unfold bind at 1. unfold bind at 1. fold (urlOf endpoint st).
  rewrite (fetch_refused w _ prompt signal st l msg Hn Ht). fold st1.
  change (name (TypeError msg)) with (js "TypeError"). rewrite EN.
  cbn [Nat.ltb Nat.leb].
  rewrite (bind_Ok _ _ _ _ _ Ej). reflexivity.
Qed.

Lemma attemptOnce_refused_again w endpoint prompt signal maxRetries attempt last st l msg :
  network w (urlOf endpoint st) (List.length (fetchLog st)) = mkOutcome l (Fails msg) ->
  (clock st + l < signal)%N ->
  (1 <= attempt)%nat ->
  attemptOnce w endpoint prompt signal maxRetries attempt last st
  = (Throw (TypeError msg), logged (urlOf endpoint st) prompt (clock st + l) st).
Proof.
  intros Hn Ht Ha. destruct error_names as (_ & EN & _).
  unfold attemptOnce, try_catch. unfold bind at 1. unfold aborted.
  destruct (N.leb_spec signal (clock st)); [lia|].
  unfold bind at 1. unfold bind at 1. fold (urlOf endpoint st).
  rewrite (fetch_refused w _ prompt signal st l msg Hn Ht).
  change (name (TypeError msg)) with (js "TypeError"). rewrite EN.
  destruct (Nat.ltb_spec attempt 1); [lia | reflexivity].
Qed.

Lemma makeRequestWithRetry_refused_twice w endpoint prompt signal maxRetries st
  l0 l1 msg0 msg1 :
  PROD w = false -> (1 <= maxRetries)%nat ->
  network w (urlOf endpoint st) (List.length (fetchLog st))
    = mkOutcome l0 (Fails msg0) ->
  network w (urlOf endpoint st) (S (List.length (fetchLog st)))
    = mkOutcome l1 (Fails msg1) ->
  (clock st + l0 + 2000 + l1 <= signal)%N ->
  exists st',
    makeRequestWithRetry w endpoint prompt signal maxRetries st
    = (Throw (TypeError msg1), st')
    /\ map fetchUrl (fetchLog st')
       = map fetchUrl (fetchLog st) ++ [urlOf endpoint st; urlOf endpoint st]
    /\ useMockData st' = useMockData st
    /\ apiKey st' = apiKey st
    /\ (clock st' < clock st + l0 + 2000 + l1)%N.
Proof.
  intros HP Hm N0 N1 Ht.
  unfold makeRequestWithRetry. rewrite HP.
  destruct maxRetries as [|m]; [lia|].
  destruct (attemptOnce_refused_first w endpoint prompt signal (S m) None st l0 msg0 N0)
    as (jitter & Hj & E0); [lia|].
  set (st1 := withClock (clock st + l0 + (1000 + jitter))
                (withRandomDrawn (logged (urlOf endpoint st) prompt (clock st + l0) st)))
    in E0.
  assert (U : urlOf endpoint st1 = urlOf endpoint st) by reflexivity.
  assert (L : List.length (fetchLog st1) = S (List.length (fetchLog st))).
  { unfold st1, withClock, withRandomDrawn, logged. cbn [fetchLog].
    rewrite length_app, Nat.add_1_r. reflexivity. }
  assert (C : clock st1 = (clock st + l0 + (1000 + jitter))%N) by reflexivity.
  assert (E1 : attemptOnce w endpoint prompt signal (S m) 1 None st1
               = (Throw (TypeError msg1),
                  logged (urlOf endpoint st1) prompt (clock st1 + l1) st1)).
  { apply attemptOnce_refused_again; [rewrite U, L; exact N1 | rewrite C; lia | lia]. }
  eexists. split; [|split; [|split; [|split]]].
  - cbn [attempts]. rewrite (bind_Ok _ _ _ _ _ E0). cbn iota.
    apply bind_Throw. exact E1.
  - unfold st1, withClock, withRandomDrawn, logged. cbn [fetchLog].
    rewrite !map_app. cbn [map fetchUrl]. rewrite <- app_assoc. reflexivity.
  - reflexivity.
  - reflexivity.
  - cbn [logged clock]. rewrite C. lia.
Qed.

(** X6: a call that the transport refuses is retried once and no more,
    whatever the retry budget of at least one: after a second refusal
    the routine throws that second error, having fetched the same URL
    twice and left the flag alone. *)
Theorem makeRequestWithRetry_retries_refused_call_once (w : World)
  (endpoint prompt : jsstring) (signal : AbortSignal) (maxRetries : nat) (st : State)
  (l0 l1 : N) (msg0 msg1 : jsstring) :
  PROD w = false -> (1 <= maxRetries)%nat ->
  network w (urlOf endpoint st) (List.length (fetchLog st))
    = mkOutcome l0 (Fails msg0) ->
  network w (urlOf endpoint st) (S (List.length (fetchLog st)))
    = mkOutcome l1 (Fails msg1) ->
  (clock st + l0 + 2000 + l1 <= signal)%N ->
  exists st',
    makeRequestWithRetry w endpoint prompt signal maxRetries st
    = (Throw (TypeError msg1), st')
    /\ map fetchUrl (fetchLog st')
       = map fetchUrl (fetchLog st) ++ [urlOf endpoint st; urlOf endpoint st]
    /\ useMockData st' = useMockData st.
Proof.
  intros HP Hm N0 N1 Ht.
  destruct (makeRequestWithRetry_refused_twice w endpoint prompt signal maxRetries st
              l0 l1 msg0 msg1 HP Hm N0 N1 Ht) as (st' & E & L & M & _).
  exists st'. repeat split; assumption.
Qed.

Lemma makeRequestWithRetry_retries_refused_call_once_witness :
  let w := Cases.unreachable in
  exists st',
    makeRequestWithRetry w endpoint1 (js "Hello") timeoutMs 5 (construct w)
    = (Throw (TypeError (js "Failed to fetch")), st')
    /\ List.length (fetchLog st') = 2%nat.
Proof.
  intro w.
  destruct (makeRequestWithRetry_retries_refused_call_once w endpoint1 (js "Hello")
              timeoutMs 5 (construct w) 0 0 (js "Failed to fetch") (js "Failed to fetch"))
    as (st' & E & L & _).
  - reflexivity.
  - lia.
  - reflexivity.
  - reflexivity.
  - vm_compute. discriminate.
  - exists st'. split; [exact E|].
    rewrite <- (length_map fetchUrl), L. reflexivity.
Defined.

Lemma refused_messages :
  let lastError := js "Endpoint " ++ endpoint3 ++ js ": " ++ js "Failed to fetch" in
  let full := js "All Gemini API endpoints failed. Last error: " ++ lastError in
  includes (js "429") lastError = false
  /\ includes (js "timed out") full = false
  /\ includes (js "Failed to fetch") full = true.
Proof. vm_compute. repeat split. Qed.

Lemma tryEndpoints_refused w endpoint rest prompt signal response lastError st
  l0 l1 msg0 msg1 :
  PROD w = false ->
  network w (urlOf endpoint st) (List.length (fetchLog st))
    = mkOutcome l0 (Fails msg0) ->
  network w (urlOf endpoint st) (S (List.length (fetchLog st)))
    = mkOutcome l1 (Fails msg1) ->
  (clock st + l0 + 2000 + l1 <= signal)%N ->
  exists st',
    tryEndpoints w (endpoint :: rest) prompt signal response lastError st
    = tryEndpoints w rest prompt signal response
        (js "Endpoint " ++ endpoint ++ js ": " ++ msg1) st'
    /\ map fetchUrl (fetchLog st')
       = map fetchUrl (fetchLog st) ++ [urlOf endpoint st; urlOf endpoint st]
    /\ useMockData st' = useMockData st
    /\ apiKey st' = apiKey st
    /\ (clock st' < clock st + l0 + 2000 + l1)%N.
Proof.
  intros HP N0 N1 Ht. destruct error_names as (_ & EN & _).
  assert (Hm : (1 <= defaultMaxRetries)%nat) by (unfold defaultMaxRetries; lia).
  destruct (makeRequestWithRetry_refused_twice w endpoint prompt signal defaultMaxRetries
              st l0 l1 msg0 msg1 HP Hm N0 N1 Ht) as (st' & E & Hrest).
  exists st'. split; [|exact Hrest].
  apply (tryEndpoints_error w endpoint rest prompt signal response lastError st _ st' E).
  exact EN.
Qed.

(** X7: when the transport refuses every call with the browser's Failed
    to fetch, a live request tries each endpoint twice, six fetches in
    all, and fails with the network error message; the service stays
    live. *)
Theorem makeApiRequest_network_error (w : World) (prompt : jsstring) (st : State) :
  live w st ->
  (forall url n, network w url n = Scenario.refused) ->
  exists st',
    makeApiRequest w prompt st
    = (Throw (Error (js "Network error. Please check your internet connection.")), st')
    /\ map fetchUrl (fetchLog st')
       = map fetchUrl (fetchLog st)
           ++ [urlOf endpoint1 st; urlOf endpoint1 st;
               urlOf endpoint2 st; urlOf endpoint2 st;
               urlOf endpoint3 st; urlOf endpoint3 st]
    /\ useMockData st' = false.
Proof.
  intros Hlive Hnet. pose proof Hlive as (HP & HM & HO).
  destruct error_names as (EN & _). destruct refused_messages as (R1 & R2 & R3).
  set (signal := (clock st + timeoutMs)%N).
  assert (Hurl : forall endpoint s s', apiKey s' = apiKey s ->
                 urlOf endpoint s' = urlOf endpoint s).
  { intros endpoint s s' Hk. unfold urlOf. rewrite Hk. reflexivity. }
  destruct (tryEndpoints_refused w endpoint1 [endpoint2; endpoint3] prompt signal None []
              st 0 0 (js "Failed to fetch") (js "Failed to fetch") HP)
    as (st1 & E1 & L1 & M1 & K1 & C1);
    [apply Hnet | apply Hnet | unfold signal, timeoutMs; lia |].
  destruct (tryEndpoints_refused w endpoint2 [endpoint3] prompt signal None
              (js "Endpoint " ++ endpoint1 ++ js ": " ++ js "Failed to fetch")
              st1 0 0 (js "Failed to fetch") (js "Failed to fetch") HP)
    as (st2 & E2 & L2 & M2 & K2 & C2);
    [apply Hnet | apply Hnet | unfold signal, timeoutMs; lia |].
  destruct (tryEndpoints_refused w endpoint3 [] prompt signal None
              (js "Endpoint " ++ endpoint2 ++ js ": " ++ js "Failed to fetch")
              st2 0 0 (js "Failed to fetch") (js "Failed to fetch") HP)
    as (st3 & E3 & L3 & M3 & K3 & C3);
    [apply Hnet | apply Hnet | unfold signal, timeoutMs; lia |].
  exists st3. split; [|split].
  - rewrite (makeApiRequest_live w prompt st Hlive). fold signal.
    unfold endpoints. unfold try_catch, bind at 1.
    rewrite E1, E2, E3. cbn [tryEndpoints ret].
    rewrite R1. unfold bind, ret, throw. cbn [Error name message].
    rewrite EN, R2, R3. reflexivity.
  - rewrite L3, L2, L1. rewrite (Hurl endpoint3 st st2), (Hurl endpoint2 st st1);
      [|congruence|congruence].
    rewrite <- !app_assoc. reflexivity.
  - congruence.
Qed.

Lemma makeApiRequest_network_error_witness :
  let w := Cases.unreachable in
  live w (construct w)
  /\ exists st',
      makeApiRequest w (js "Hello") (construct w)
      = (Throw (Error (js "Network error. Please check your internet connection.")), st')
      /\ List.length (fetchLog st') = 6%nat.
Proof.
  intro w. split; [repeat split|].
  destruct (makeApiRequest_network_error w (js "Hello") (construct w))
    as (st' & E & L & _).
  - repeat split.
  - intros url n. destruct n; reflexivity.
  - exists st'. split; [exact E|].
    rewrite <- (length_map fetchUrl), L. reflexivity.
Defined.

(* ================================================================= *)
(** ** The envelope of an answer *)

Lemma extractText_lacksContent w data st :
  lacksContent data -> extractText w data st = (Throw invalidStructure, st).
Proof.
  intros (m & -> & H). unfold extractText.
  unfold bind at 1. cbn [get lift ret].
  destruct H as [H | (candidate & G0 & H)].
  - rewrite H. reflexivity.
  - destruct (truthy (lookup (js "candidates") m)) eqn:T; [|reflexivity].
    cbn [negb]. unfold bind at 1. rewrite G0. cbn [lift ret].
    destruct H as [H | (content & G & H)].
    + rewrite H. reflexivity.
    + destruct (truthy candidate) eqn:T'; [|reflexivity].
      cbn [negb]. unfold bind at 1. rewrite G. cbn [lift ret]. rewrite H. reflexivity.
Qed.

Lemma extractText_without_text w data st :
  envelopeWithoutText data -> extractText w data st = (Ok (JString []), st).
Proof.
  intros (m & cm & pm & tm & o1 & o2 & -> & H1 & H2 & H3 & H4).
  unfold extractText, bind, lift, get, get0, ret. simpl.
  rewrite H1. simpl. rewrite H2. simpl. rewrite H3. simpl.
  destruct (lookup (js "text") tm) as [v|]; [|reflexivity].
  rewrite H4. reflexivity.
Qed.

(** X8: the validation of the envelope does not look at the parts: on an
    answer whose first candidate has a content without parts, reading
    the text raises a [TypeError] instead of the invalid-structure
    error. *)
Theorem extractText_without_parts (w : World) (data : json) (st : State) :
  envelopeWithoutParts data ->
  extractText w data st = (Throw (TypeError (typeErrorMessage w)), st).
Proof.
  intros (m & cm & pm & o1 & -> & H1 & H2 & H3).
  unfold extractText, bind, lift, get, get0, ret, throw. simpl.
  rewrite H1. simpl. rewrite H2. simpl. rewrite H3. reflexivity.
Qed.

Lemma extractText_without_parts_witness :
  envelopeWithoutParts Cases.cutOff
  /\ extractText Cases.unreachable Cases.cutOff (construct Cases.unreachable)
     = (Throw (TypeError (js "Cannot read properties of undefined")),
        construct Cases.unreachable).
Proof.
  assert (H : envelopeWithoutParts Cases.cutOff).
  { do 4 eexists. repeat split; vm_compute; reflexivity. }
  split; [exact H|].
  apply (extractText_without_parts Cases.unreachable Cases.cutOff
           (construct Cases.unreachable) H).
Defined.

Lemma tryEndpoints_first w prompt signal st l r :
  PROD w = false ->
  network w (urlOf endpoint1 st) (List.length (fetchLog st))
    = mkOutcome l (Responds r) ->
  ok r = true -> (clock st + l < signal)%N ->
  tryEndpoints w endpoints prompt signal None [] st
  = (Ok (LoopDone (Some r) []), logged (urlOf endpoint1 st) prompt (clock st + l) st).
Proof.
  intros HP Hn Hok Ht. unfold endpoints.
  apply tryEndpoints_success; [|exact Hok].
  apply makeRequestWithRetry_response; auto.
Qed.

Lemma makeApiRequest_first_endpoint w prompt st l r data :
  live w st ->
  network w (urlOf endpoint1 st) (List.length (fetchLog st))
    = mkOutcome l (Responds r) ->
  ok r = true -> (l < timeoutMs)%N ->
  JSON_parse (body r) = Some data ->
  forall out,
    extractText w data (logged (urlOf endpoint1 st) prompt (clock st + l) st) = out ->
    makeApiRequest w prompt st
    = try_catch (text <- (fun _ => out) ;; ret (Plain text))
        (fun error =>
         if str_eqb (name error) (js "AbortError")
            || includes (js "timed out") (message error)
         then throw (Error (js "Request timed out. Please try again."))
         else if includes (js "Failed to fetch") (message error)
         then throw (Error (js "Network error. Please check your internet connection."))
         else if includes (js "No internet connection") (message error)
         then throw (Error (js "No internet connection. Please check your network."))
         else throw error)
        (logged (urlOf endpoint1 st) prompt (clock st + l) st).
Proof.
  intros Hlive Hn Hok Ht Hd out Hout. pose proof Hlive as (HP & HM & HO).
  rewrite (makeApiRequest_live w prompt st Hlive).
  assert (L := tryEndpoints_first w prompt (clock st + timeoutMs)%N st l r HP Hn Hok).
  unfold try_catch. rewrite (bind_Ok _ _ _ _ _ (L ltac:(lia))).
  rewrite Hok. unfold response_json. rewrite Hd.
  unfold bind, ret. rewrite Hout. reflexivity.
Qed.

(** X9: a successful HTTP answer whose JSON fails the validation of the
    envelope makes a live request fail with the invalid-structure error
    after that one fetch: the other endpoints are not tried and the flag
    is not touched. *)
Theorem makeApiRequest_invalid_structure (w : World) (prompt : jsstring) (st : State)
  (l : N) (r : Response) (data : json) :
  live w st ->
  network w (urlOf endpoint1 st) (List.length (fetchLog st))
    = mkOutcome l (Responds r) ->
  ok r = true -> (l < timeoutMs)%N ->
  JSON_parse (body r) = Some data ->
  lacksContent data ->
  makeApiRequest w prompt st
  = (Throw (Error (js "Invalid response structure from Gemini API")),
     logged (urlOf endpoint1 st) prompt (clock st + l) st).
Proof.
  intros Hlive Hn Hok Ht Hd Hl.
  destruct error_names as (EN & _).
  destruct error_messages as (_ & _ & _ & _ & M1 & M2 & M3).
  rewrite (makeApiRequest_first_endpoint w prompt st l r data Hlive Hn Hok Ht Hd _
             (extractText_lacksContent w data _ Hl)).
  unfold try_catch, bind, invalidStructure, throw. cbn [Error name message].
  rewrite EN, M1, M2, M3. reflexivity.
Qed.

Lemma makeApiRequest_invalid_structure_witness :
  let w := Cases.blocked in
  live w (construct w)
  /\ makeApiRequest w (js "Hello") (construct w)
     = (Throw (Error (js "Invalid response structure from Gemini API")),
        logged (urlOf endpoint1 (construct w)) (js "Hello") 100 (construct w)).
Proof.
  intro w. split; [repeat split|].
  apply (makeApiRequest_invalid_structure w (js "Hello") (construct w) 100
           (mkResponse 200 (js "OK") (js_q "{'promptFeedback':{'blockReason':'SAFETY'}}"))
           (JObject [(js "promptFeedback",
                      JObject [(js "blockReason", JString (js "SAFETY"))])])).
  - repeat split.
  - vm_compute. reflexivity.
  - reflexivity.
  - reflexivity.
  - vm_compute. reflexivity.
  - eexists. split; [reflexivity|]. left. vm_compute. reflexivity.
Defined.

(** X10: an answer that passes the validation and whose first part has
    no text, or an empty one, makes a live request return the empty
    string. *)
Theorem makeApiRequest_without_text (w : World) (prompt : jsstring) (st : State)
  (l : N) (r : Response) (data : json) :
  live w st ->
  network w (urlOf endpoint1 st) (List.length (fetchLog st))
    = mkOutcome l (Responds r) ->
  ok r = true -> (l < timeoutMs)%N ->
  JSON_parse (body r) = Some data ->
  envelopeWithoutText data ->
  makeApiRequest w prompt st
  = (Ok (Plain (JString [])), logged (urlOf endpoint1 st) prompt (clock st + l) st).
Proof.
  intros Hlive Hn Hok Ht Hd Hl.
  rewrite (makeApiRequest_first_endpoint w prompt st l r data Hlive Hn Hok Ht Hd _
             (extractText_without_text w data _ Hl)).
  reflexivity.
Qed.

Lemma makeApiRequest_without_text_witness :
  let w := Cases.emptyText in
  live w (construct w)
  /\ makeApiRequest w (js "Hello") (construct w)
     = (Ok (Plain (JString [])),
        logged (urlOf endpoint1 (construct w)) (js "Hello") 100 (construct w)).
Proof.
  intro w. split; [repeat split|].
  apply (makeApiRequest_without_text w (js "Hello") (construct w) 100
           (mkResponse 200 (js "OK") (Scenario.envelope []))
           (JObject [(js "candidates",
                      JArray [JObject [(js "content",
                        JObject [(js "parts",
                          JArray [JObject [(js "text", JString [])]])])]])])).
  - repeat split.
  - vm_compute. reflexivity.
  - reflexivity.
  - reflexivity.
  - vm_compute. reflexivity.
  - do 6 eexists. repeat split; vm_compute; reflexivity.
Defined.


(* ================================================================= *)
(** ** How many fetches an operation can issue *)

Lemma atMost_noFetch {A} n (m : M A) : noFetch m -> fetchesAtMost n m.
Proof.
  intros H st. exists []. destruct (H st) as [E _].
  rewrite E, app_nil_r. split; [reflexivity | simpl; lia].
Qed.

Lemma atMost_bind {A B} a b (m : M A) (k : A -> M B) :
  fetchesAtMost a m -> (forall x, fetchesAtMost b (k x)) ->
  fetchesAtMost (a + b) (bind m k).
Proof.
  intros Hm Hk st. destruct (Hm st) as (n1 & E1 & L1). unfold bind.
  destruct (m st) as [[x|e] st1]; simpl in *.
  - destruct (Hk x st1) as (n2 & E2 & L2). exists (n1 ++ n2).
    rewrite E2, E1, app_assoc, length_app. split; [reflexivity | lia].
  - exists n1. split; [assumption | lia].
Qed.

Lemma atMost_try_catch {A} a b (m : M A) (h : Exn -> M A) :
  fetchesAtMost a m -> (forall e, fetchesAtMost b (h e)) ->
  fetchesAtMost (a + b) (try_catch m h).
Proof.
  intros Hm Hh st. destruct (Hm st) as (n1 & E1 & L1). unfold try_catch.
  destruct (m st) as [[x|e] st1]; simpl in *.
  - exists n1. split; [assumption | lia].
  - destruct (Hh e st1) as (n2 & E2 & L2). exists (n1 ++ n2).
    rewrite E2, E1, app_assoc, length_app. split; [reflexivity | lia].
Qed.

Lemma atMost_weaken {A} a b (m : M A) :
  (a <= b)%nat -> fetchesAtMost a m -> fetchesAtMost b m.
Proof.
  intros L H st. destruct (H st) as (n & E & Ln). exists n. split; [assumption | lia].
Qed.

Lemma atMost_then {A B} n (m : M A) (k : A -> M B) :
  fetchesAtMost n m -> (forall x, noFetch (k x)) -> fetchesAtMost n (bind m k).
Proof.
  intros Hm Hk. apply (atMost_weaken (n + 0) n); [lia|].
  apply atMost_bind; [assumption | intro x; apply atMost_noFetch, Hk].
Qed.

Lemma atMost_after {A B} n (m : M A) (k : A -> M B) :
  noFetch m -> (forall x, fetchesAtMost n (k x)) -> fetchesAtMost n (bind m k).
Proof.
  intros Hm Hk. apply (atMost_bind 0 n); [apply atMost_noFetch, Hm | assumption].
Qed.

Lemma atMost_guarded {A} n (m : M A) (h : Exn -> M A) :
  fetchesAtMost n m -> (forall e, noFetch (h e)) -> fetchesAtMost n (try_catch m h).
Proof.
  intros Hm Hh. apply (atMost_weaken (n + 0) n); [lia|].
  apply atMost_try_catch; [assumption | intro e; apply atMost_noFetch, Hh].
Qed.

Lemma atMost_fetch w url prompt signal : fetchesAtMost 1 (fetch w url prompt signal).
Proof.
  intro st. exists [mkFetch url prompt (useMockData st)]. split; [|simpl; lia].
  unfold fetch.
  destruct (signal <=? clock st)%N; [reflexivity|].
  destruct (_ <? signal)%N; reflexivity.
Qed.

Lemma noFetch_aborted signal : noFetch (aborted signal).
Proof. apply noFetch_stateless. intro st. reflexivity. Qed.

Lemma atMost_attemptOnce w endpoint prompt signal maxRetries attempt last :
  fetchesAtMost 1 (attemptOnce w endpoint prompt signal maxRetries attempt last).
Proof.
  unfold attemptOnce. apply atMost_guarded.
  - apply atMost_after; [apply noFetch_aborted|]. intros [|].
    + apply atMost_noFetch, noFetch_throw.
    + apply atMost_after.
      { apply noFetch_stateless. intro st. reflexivity. }
      intro key. apply atMost_then; [apply atMost_fetch|]. intro r. no_fetch.
  - intro e. no_fetch.
Qed.

Lemma atMost_attempts w remaining endpoint prompt signal maxRetries :
  forall attempt last,
    fetchesAtMost remaining
      (attempts w remaining endpoint prompt signal maxRetries attempt last).
Proof.
  induction remaining as [|n IH]; intros attempt last; simpl attempts.
  - apply atMost_noFetch, noFetch_ret.
  - apply (atMost_bind 1 n); [apply atMost_attemptOnce|].
    intros [r|last']; [apply atMost_noFetch, noFetch_ret | apply IH].
Qed.

Lemma atMost_makeRequestWithRetry w endpoint prompt signal maxRetries :
  fetchesAtMost (S maxRetries) (makeRequestWithRetry w endpoint prompt signal maxRetries).
Proof.
  unfold makeRequestWithRetry. destruct (PROD w).
  - apply atMost_noFetch, noFetch_ret.
  - apply atMost_attempts.
Qed.

Lemma atMost_tryEndpoints w eps prompt signal :
  forall response lastError,
    fetchesAtMost (3 * List.length eps)
      (tryEndpoints w eps prompt signal response lastError).
Proof.
  induction eps as [|endpoint rest IH]; intros response lastError.
  - apply atMost_noFetch, noFetch_ret.
  - cbn [tryEndpoints].
    apply (atMost_weaken (3 + 3 * List.length rest)); [simpl; lia|].
    apply atMost_bind.
    + apply atMost_guarded.
      * apply atMost_then; [apply (atMost_makeRequestWithRetry w _ _ _ 2)|].
        intros [r|]; no_fetch_mock.
      * intro e. no_fetch.
    + intros [exit|[response' lastError']]; [apply atMost_noFetch, noFetch_ret | apply IH].
Qed.

Lemma atMost_makeApiRequest w prompt : fetchesAtMost 9 (makeApiRequest w prompt).
Proof.
  unfold makeApiRequest. destruct (PROD w).
  { apply atMost_noFetch. no_fetch_mock. }
  apply atMost_after; [apply noFetch_get_useMockData|].
  intros [|].
  { apply atMost_noFetch. no_fetch_mock. }
  apply atMost_after.
  { apply noFetch_stateless. intro st. reflexivity. }
  intro now. apply atMost_guarded.
  - apply atMost_after.
    { apply noFetch_stateless. intro st. reflexivity. }
    intros [|]; cbn [negb].
    + apply atMost_then; [apply (atMost_tryEndpoints w endpoints)|].
      intro exit. no_fetch_mock.
    + apply atMost_noFetch, noFetch_throw.
  - intro e. no_fetch.
Qed.

Lemma atMost_facade {A} (whenMock live : M A) (handler : Exn -> M A) w n :
  noFetch whenMock -> fetchesAtMost n live -> (forall e, noFetch (handler e)) ->
  fetchesAtMost n
    (try_catch
       (inMock <- get_useMockData ;; if PROD w || inMock then whenMock else live)
       handler).
Proof.
  intros Hm Hl Hh. apply atMost_guarded; [|exact Hh].
  apply atMost_after; [apply noFetch_get_useMockData|].
  intro inMock. destruct (PROD w || inMock); [apply atMost_noFetch, Hm | exact Hl].
Qed.

Lemma atMost_enhanceSearchQuery w query : fetchesAtMost 9 (enhanceSearchQuery w query).
Proof.
  unfold enhanceSearchQuery. apply atMost_guarded.
  - destruct (PROD w).
    { apply atMost_noFetch, noFetch_quiet, quiet_mockSmartSearchResult. }
    apply atMost_after; [apply noFetch_get_useMockData|].
    intros [|]; [apply atMost_noFetch, noFetch_quiet, quiet_mockSmartSearchResult|].
    apply atMost_then; [apply atMost_makeApiRequest|].
    intro response. no_fetch_mock.
  - intro e. apply noFetch_quiet, quiet_mockSmartSearchResult.
Qed.

Lemma atMost_categorizeProducts w products :
  fetchesAtMost 9 (categorizeProducts w products).
Proof.
  unfold categorizeProducts. apply atMost_facade.
  - no_fetch_mock.
  - apply atMost_then; [apply atMost_makeApiRequest|].
    intro response. apply noFetch_recoverOr, noFetch_ret.
  - intro e. no_fetch_mock.
Qed.

Lemma atMost_analyzeMarketTrends w query products :
  fetchesAtMost 9 (analyzeMarketTrends w query products).
Proof.
  assert (Hmock : noFetch (generateMockMarketAnalysis w)).
  { apply noFetch_quiet, quiet_generateDynamicMarketAnalysis. }
  unfold analyzeMarketTrends. apply atMost_facade.
  - apply noFetch_bind; [exact Hmock | intros; apply noFetch_ret].
  - apply atMost_then; [apply atMost_makeApiRequest|].
    intro response. apply noFetch_recoverOr, Hmock.
  - intro e. apply noFetch_bind; [exact Hmock | intros; apply noFetch_ret].
Qed.

Lemma atMost_getPersonalizedRecommendations w userQuery searchHistory :
  fetchesAtMost 9 (getPersonalizedRecommendations w userQuery searchHistory).
Proof.
  unfold getPersonalizedRecommendations. apply atMost_facade.
  - no_fetch_mock.
  - apply atMost_then; [apply atMost_makeApiRequest|].
    intro response. apply noFetch_recoverOr, noFetch_ret.
  - intro e. no_fetch_mock.
Qed.

Lemma atMost_testApiConnection w : fetchesAtMost 9 (testApiConnection w).
Proof.
  unfold testApiConnection. destruct (PROD w).
  { apply atMost_noFetch, noFetch_ret. }
  apply atMost_after; [apply noFetch_get_useMockData|].
  intros [|]; [apply atMost_noFetch, noFetch_ret|].
  apply atMost_guarded; [|intros; apply noFetch_ret].
  apply atMost_then; [apply atMost_makeApiRequest|].
  intro response. no_fetch_mock.
Qed.

Lemma atMost_connectionProbe w : fetchesAtMost 9 (connectionProbe w).
Proof.
  unfold connectionProbe.
  apply atMost_after; [apply noFetch_get_useMockData|].
  intros [|]; [apply atMost_noFetch, noFetch_ret|].
  apply atMost_then; [apply atMost_testApiConnection|].
  intro success. no_fetch_mock.
Qed.

(** X11: with a retry budget of [maxRetries] the retry routine issues at
    most [maxRetries + 1] fetches, whatever the transport answers and
    whenever the signal fires. *)
Theorem makeRequestWithRetry_fetch_budget (w : World) (endpoint prompt : jsstring)
  (signal : AbortSignal) (maxRetries : nat) (st : State) :
  exists new,
    fetchLog (snd (makeRequestWithRetry w endpoint prompt signal maxRetries st))
    = fetchLog st ++ new
    /\ (List.length new <= S maxRetries)%nat.
Proof. apply atMost_makeRequestWithRetry. Qed.

(** X12: no public operation issues more than nine fetches, three
    endpoints with three attempts each, whatever the transport does. *)
Theorem operation_fetch_budget (w : World) (op : Operation) (st : State) :
  exists new,
    fetchLog (perform w op st) = fetchLog st ++ new /\ (List.length new <= 9)%nat.
Proof.
  destruct op; unfold perform.
  - apply (atMost_noFetch 9 _ (noFetch_forceMockMode w)).
  - apply (atMost_noFetch 9 _ noFetch_get_useMockData).
  - apply (atMost_noFetch 9 _ (noFetch_stateless _ validateApiKey_stateless)).
  - apply atMost_testApiConnection.
  - apply atMost_makeApiRequest.
  - apply atMost_enhanceSearchQuery.
  - apply atMost_categorizeProducts.
  - apply atMost_analyzeMarketTrends.
  - apply atMost_getPersonalizedRecommendations.
  - apply atMost_connectionProbe.
Qed.

(* ================================================================= *)
(** ** The sentinel of the retry routine *)

Lemma triple_ret {A} (pre : State -> Prop) (a : A) (Q : A -> State -> Prop) :
  (forall st, pre st -> Q a st) -> triple pre (ret a) Q.
Proof. intros H st Hpre a' st' E. injection E as <- <-. apply H, Hpre. Qed.

Lemma triple_throw {A} pre e (Q : A -> State -> Prop) : triple pre (throw e) Q.
Proof. intros st _ a st' E. discriminate E. Qed.

Lemma triple_bind {A B} pre (m : M A) (k : A -> M B) mid Q :
  triple pre m mid -> (forall a, triple (mid a) (k a) Q) ->
  triple pre (bind m k) Q.
Proof.
  intros Hm Hk st Hpre b st' E. unfold bind in E.
  destruct (m st) as [[a|e] st1] eqn:Em; [|discriminate E].
  exact (Hk a st1 (Hm st Hpre a st1 Em) b st' E).
Qed.

Lemma triple_any {A} pre (m : M A) : triple pre m (fun _ => anyState).
Proof. intros st _ a st' _. exact I. Qed.

Lemma triple_try_catch {A} pre (m : M A) (h : Exn -> M A) Q :
  triple pre m Q -> (forall e, triple anyState (h e) Q) ->
  triple pre (try_catch m h) Q.
Proof.
  intros Hm Hh st Hpre a st' E. unfold try_catch in E.
  destruct (m st) as [[a0|e] st1] eqn:Em.
  - exact (Hm st Hpre a st' (eq_trans Em E)).
  - exact (Hh e st1 I a st' E).
Qed.

Lemma attemptOnce_post w endpoint prompt signal maxRetries attempt last :
  PROD w = false ->
  triple anyState (attemptOnce w endpoint prompt signal maxRetries attempt last)
    (attemptPost attempt last).
Proof.
  intro HP. unfold attemptOnce. apply triple_try_catch.
  - apply (triple_bind _ _ _ (fun _ => anyState)); [apply triple_any|].
    intros [|]; [apply triple_throw|].
    apply (triple_bind _ _ _ (fun _ => anyState)); [apply triple_any|]. intro key.
    apply (triple_bind _ _ _ (fun _ => anyState)); [apply triple_any|]. intro r.
    destruct (ok r).
    { apply triple_ret. intros st _. split; discriminate. }
    destruct (status r =? 429)%Z.
    + destruct (attempt <? maxRetries)%nat.
      * apply (triple_bind _ _ _ (fun _ => anyState)); [apply triple_any|]. intro j.
        apply (triple_bind _ _ _ (fun _ => anyState)); [apply triple_any|]. intro u.
        apply triple_ret. intros st _. split; discriminate.
      * apply (triple_bind _ _ _ (fun _ st => useMockData st = true)).
        { unfold forceMockMode. rewrite HP. intros st _ a st' E.
          injection E as _ <-. reflexivity. }
        intro u. apply triple_ret. intros st H. split; [intros _; exact H | discriminate].
    + apply triple_ret. intros st _. split; discriminate.
  - intro e. destruct (str_eqb (name e) (js "AbortError")); [apply triple_throw|].
    destruct (Nat.ltb_spec attempt 1); [|apply triple_throw].
    apply (triple_bind _ _ _ (fun _ => anyState)); [apply triple_any|]. intro j.
    apply (triple_bind _ _ _ (fun _ => anyState)); [apply triple_any|]. intro u.
    apply triple_ret. intros st _. split; [discriminate|].
    intro E. injection E as ->. split; [lia | reflexivity].
Qed.

Lemma attempts_post w remaining endpoint prompt signal maxRetries :
  PROD w = false ->
  forall attempt last,
    triple anyState (attempts w remaining endpoint prompt signal maxRetries attempt last)
      (fun r st =>
         r = None ->
         useMockData st = true
         \/ (last = None
             /\ (remaining = 0%nat \/ (remaining = 1%nat /\ attempt = 0%nat)))).
Proof.
  intro HP. induction remaining as [|n IH]; intros attempt last; cbn [attempts].
  - apply triple_ret. intros st _ ->. right. split; [reflexivity | left; reflexivity].
  - apply (triple_bind _ _ _ (attemptPost attempt last)); [apply attemptOnce_post, HP|].
    intros [r|last'].
    + apply triple_ret. intros st [H _] ->. left. apply H. reflexivity.
    + intros st [_ H] r st' E En.
      destruct (IH (S attempt) last' st I r st' E En) as [Hf | [-> [-> | [_ Ha]]]].
      * left. exact Hf.
      * destruct (H eq_refl) as [-> ->]. right.
        split; [reflexivity | right; split; reflexivity].
      * discriminate Ha.
Qed.

(** X13: outside production and with a retry budget of at least one, the
    retry routine returns its sentinel [null] only after it has switched
    the service to mock mode. *)
Theorem makeRequestWithRetry_null_means_mock_mode (w : World)
  (endpoint prompt : jsstring) (signal : AbortSignal) (maxRetries : nat)
  (st st' : State) :
  PROD w = false -> (1 <= maxRetries)%nat ->
  makeRequestWithRetry w endpoint prompt signal maxRetries st = (Ok None, st') ->
  useMockData st' = true.
Proof.
  intros HP Hm E. unfold makeRequestWithRetry in E. rewrite HP in E.
  destruct (attempts_post w (S maxRetries) endpoint prompt signal maxRetries HP
              0%nat None st I None st' E eq_refl) as [H | [_ [H | [H _]]]].
  - exact H.
  - discriminate H.
  - lia.
Qed.

Lemma makeRequestWithRetry_null_means_mock_mode_witness :
  let w := Scenario.threeRateLimited in
  let out := makeRequestWithRetry w endpoint1 (js "Hello") timeoutMs defaultMaxRetries
               (construct w) in
  fst out = Ok None /\ useMockData (snd out) = true.
Proof.
  intros w out.
  assert (E : out = (Ok None, snd out)) by (vm_compute; reflexivity).
  split; [rewrite E; reflexivity|].
  apply (makeRequestWithRetry_null_means_mock_mode w endpoint1 (js "Hello") timeoutMs
           defaultMaxRetries (construct w) (snd out)).
  - reflexivity.
  - unfold defaultMaxRetries. lia.
  - exact E.
Defined.

Lemma sentinel_sets_flag w prompt signal endpoint st st' :
  PROD w = false ->
  makeRequestWithRetry w endpoint prompt signal defaultMaxRetries st = (Ok None, st') ->
  useMockData st' = true.
Proof.
  intros HP E. unfold makeRequestWithRetry in E. rewrite HP in E.
  destruct (attempts_post w (S defaultMaxRetries) endpoint prompt signal
              defaultMaxRetries HP 0%nat None st I None st' E eq_refl)
    as [H | [_ [H | [H _]]]]; [exact H | discriminate H | discriminate H].
Qed.

Lemma reachesSentinel_flag w prompt signal eps st st1 :
  PROD w = false -> reachesSentinel w prompt signal eps st st1 ->
  useMockData st1 = true.
Proof.
  intros HP H. induction H as [endpoint rest st st1 E | | ]; auto.
  exact (sentinel_sets_flag w prompt signal endpoint st st1 HP E).
Qed.

(* ================================================================= *)
(** ** The connection test *)

(** X14: when the retry routine gives its sentinel during the connection
    test, rate limiting that is, the test still reports success: it
    returns true, on the canned reply, while the service has gone to mock
    mode; the probe of the constructor ends in that state. *)
Theorem testApiConnection_true_when_rate_limited (w : World) (st st1 : State) :
  live w st ->
  reachesSentinel w testPrompt (clock st + timeoutMs)%N endpoints st st1 ->
  exists st2,
    testApiConnection w st = (Ok true, st2)
    /\ useMockData st2 = true
    /\ fetchLog st2 = fetchLog st1
    /\ connectionProbe w st = (Ok tt, st2).
Proof.
  intros Hlive Hreach. pose proof Hlive as (HP & HM & HO).
  destruct (quiet_generateMockResponse w testPrompt st1) as (text & st2 & Eg & Hs).
  destruct Hs as (_ & Hflag & _ & Hlog).
  assert (L := tryEndpoints_reaches w testPrompt _ endpoints st st1 Hreach None [] text st2 Eg).
  assert (E : makeApiRequest w testPrompt st = (Ok (Plain (JString text)), st2)).
  { rewrite (makeApiRequest_live w testPrompt st Hlive).
    apply try_catch_Ok. rewrite (bind_Ok _ _ _ _ _ L). reflexivity. }
  assert (T : testApiConnection w st = (Ok true, st2)).
  { unfold testApiConnection. rewrite HP. unfold bind at 1, get_useMockData. rewrite HM.
    apply try_catch_Ok. fold testPrompt. rewrite (bind_Ok _ _ _ _ _ E). reflexivity. }
  exists st2. split; [exact T | split; [|split]].
  - rewrite Hflag. exact (reachesSentinel_flag w _ _ _ _ _ HP Hreach).
  - exact Hlog.
  - unfold connectionProbe. unfold bind at 1, get_useMockData. rewrite HM.
    rewrite (bind_Ok _ _ _ _ _ T). reflexivity.
Qed.

Lemma testApiConnection_true_when_rate_limited_witness :
  let w := Scenario.threeRateLimited in
  live w (construct w)
  /\ exists st2,
      testApiConnection w (construct w) = (Ok true, st2)
      /\ useMockData st2 = true
      /\ List.length (fetchLog st2) = 3%nat.
Proof.
  intro w.
  assert (Hlive : live w (construct w)) by (repeat split).
  split; [exact Hlive|].
  set (out := makeRequestWithRetry w endpoint1 testPrompt
                (clock (construct w) + timeoutMs)%N defaultMaxRetries (construct w)).
  assert (R : reachesSentinel w testPrompt (clock (construct w) + timeoutMs)%N endpoints
                (construct w) (snd out)).
  { apply sentinel_here. vm_compute. reflexivity. }
  destruct (testApiConnection_true_when_rate_limited w (construct w) (snd out) Hlive R)
    as (st2 & T & F & L & _).
  exists st2. split; [exact T | split; [exact F|]].
  rewrite L. vm_compute. reflexivity.
Defined.

(** X15: the probe that the constructor starts always completes, and it
    leaves the service live only if the test message was answered with a
    string; in every other case the service is in mock mode afterwards. *)
Theorem connectionProbe_leaves_live_only_after_answer (w : World) (st : State) :
  exists st',
    connectionProbe w st = (Ok tt, st')
    /\ (useMockData st' = false ->
        PROD w = false /\ useMockData st = false
        /\ exists text,
             makeApiRequest w testPrompt st = (Ok (Plain (JString text)), st')).
Proof.
  unfold connectionProbe. unfold bind at 1, get_useMockData.
  destruct (useMockData st) eqn:HM.
  { exists st. split; [reflexivity | congruence]. }
  unfold testApiConnection. fold testPrompt.
  destruct (PROD w) eqn:HP.
  { eexists. split; [reflexivity | discriminate]. }
  unfold bind at 1. unfold bind at 1, get_useMockData. rewrite HM.
  unfold try_catch, bind at 1.
  destruct (makeApiRequest w testPrompt st) as [[[r|v]|e] st1] eqn:E.
  - eexists. split; [reflexivity | discriminate].
  - destruct v; try (eexists; split; [reflexivity | discriminate]).
    exists st1. split; [reflexivity|].
    intros _. split; [reflexivity | split; [reflexivity|]]. exists s. reflexivity.
  - eexists. split; [reflexivity | discriminate].
Qed.

(* ================================================================= *)
(** ** The facade on a live answer *)




(** Numbers as the engine reads and prints them: a literal below the
    least subnormal is zero, and falsy; a price is printed in positional
    notation, whatever the form of its literal. *)
Example numbers_read_and_printed :
  JSON_parse (js "1e-400") = Some (JNumber 0 0)
  /\ truthy (JSON_parse (js "1e-400")) = false
  /\ JSON_parse (js "49999e-2") = JSON_parse (js "499.99")
  /\ ToString (JNumber 49999 (-2)) = js "499.99"
  /\ ToString (JNumber 799 2) = js "79900"
  /\ joinValues [JNumber 49999 (-2); JNumber 799 2] = js "499.99, 79900"
  /\ ToString (JNumber 1 21) = js "1e+21"
  /\ ToString (JNumber 1 (-7)) = js "1e-7"
  /\ ToString (JNumber 9007199254740993 0) = js "9007199254740992"
  /\ ToString (JNumber 1 400) = js "Infinity".
Proof. vm_compute. repeat split. Qed.



(* ================================================================= *)
(** ** Canned replies *)

Lemma choose_In {A} w (pool : list A) (d : A) st :
  pool <> [] ->
  exists a, choose w pool d st = (Ok a, withRandomDrawn st) /\ In a pool.
Proof.
  intro Hne. unfold choose.
  destruct (random_below_returns w (N.of_nat (List.length pool)) st) as (j & E & Hj).
  assert (Hlen : (0 < N.of_nat (List.length pool))%N).
  { destruct pool; [contradiction | simpl; lia]. }
  exists (nth (N.to_nat j) pool d). split.
  - rewrite (bind_Ok _ _ _ _ _ E). reflexivity.
  - apply nth_In. specialize (Hj Hlen). lia.
Qed.

Lemma cannedReplies_unparsable :
  forallb (fun text =>
             negb (truthy (Some (safeJsonParse (JString text))))
             && match text with [] => false | _ => true end) cannedReplies = true.
Proof. vm_compute. reflexivity. Qed.

Ltac from_pool w st pool place :=
  let a := fresh "a" in
  let E := fresh "E" in
  let Hin := fresh "Hin" in
  destruct (choose_In w pool [] st) as (a & E & Hin);
  [unfold pool; discriminate
  | exists a; split; [exact E | unfold cannedReplies; place; exact Hin]].

Ltac later_pool := apply in_or_app; right.
Ltac this_pool := apply in_or_app; left.

Lemma generateMockResponse_canned w prompt st :
  exists text,
    generateMockResponse w prompt st = (Ok text, withRandomDrawn st)
    /\ In text cannedReplies.
Proof.
  unfold generateMockResponse.
  destruct (includes_any _ _); [from_pool w st greetings this_pool|].
  destruct (includes_any _ _);
    [from_pool w st phoneResponses ltac:(do 1 later_pool; this_pool)|].
  destruct (includes_any _ _);
    [from_pool w st laptopResponses ltac:(do 2 later_pool; this_pool)|].
  destruct (includes_any _ _);
    [from_pool w st priceResponses ltac:(do 3 later_pool; this_pool)|].
  destruct (includes_any _ _);
    [from_pool w st audioResponses ltac:(do 4 later_pool; this_pool)|].
  destruct (includes_any _ _);
    [from_pool w st trendResponses ltac:(do 5 later_pool; this_pool)|].
  destruct (includes_any _ _);
    [from_pool w st compareResponses ltac:(do 6 later_pool; this_pool)|].
  destruct (includes_any _ _);
    [from_pool w st warrantyResponses ltac:(do 7 later_pool; this_pool)|].
  destruct (includes_any _ _);
    [from_pool w st adviceResponses ltac:(do 8 later_pool; this_pool)|].
  destruct (includes_any _ _);
    [from_pool w st thankResponses ltac:(do 9 later_pool; this_pool)|].
  from_pool w st defaultResponses ltac:(do 10 later_pool).
Qed.

Lemma canned_unparsable text :
  In text cannedReplies ->
  text <> [] /\ truthy (Some (safeJsonParse (JString text))) = false.
Proof.
  intro Hin. pose proof cannedReplies_unparsable as H.
  rewrite forallb_forall in H. specialize (H text Hin).
  apply andb_prop in H. destruct H as [H1 H2]. split.
  - intros ->. discriminate H2.
  - apply negb_true_iff. exact H1.
Qed.

(** X17: whatever the prompt and the random draw, [generateMockResponse]
    returns one of its canned replies after exactly one draw: the index
    is always within the pool, so the reply is never undefined, it is not
    empty, and no stage of the recovery reads a truthy JSON value out of
    it. *)
Theorem generateMockResponse_reply_from_pools (w : World) (prompt : jsstring)
  (st : State) :
  exists text,
    generateMockResponse w prompt st = (Ok text, withRandomDrawn st)
    /\ In text cannedReplies
    /\ text <> []
    /\ truthy (Some (safeJsonParse (JString text))) = false.
Proof.
  destruct (generateMockResponse_canned w prompt st) as (text & E & Hin).
  exists text. split; [exact E | split; [exact Hin|]].
  apply canned_unparsable, Hin.
Qed.

(* ================================================================= *)
(** ** The facade on a rate-limited service *)



(* ================================================================= *)
(** ** Substrings and shadowed keywords *)

Lemma startsWith_app p r : startsWith p (p ++ r) = true.
Proof.
  induction p as [|x p IH]; [destruct r; reflexivity|].
  simpl. rewrite unit_eqb_refl. exact IH.
Qed.

Lemma startsWith_prefix p s : startsWith p s = true -> exists r, s = p ++ r.
Proof.
  revert s. induction p as [|x p IH]; intros s H.
  - exists s. reflexivity.
  - destruct s as [|y s]; [discriminate H|].
    simpl in H. apply andb_prop in H. destruct H as [Hx Hp].
    apply unit_eqb_eq in Hx. subst y.
    destruct (IH s Hp) as (r & ->). exists r. reflexivity.
Qed.

Lemma includes_nil p : includes p [] = startsWith p [].
Proof. change (includes p []) with (startsWith p [] || false). apply orb_false_r. Qed.

Lemma includes_cons p c s :
  includes p (c :: s) = startsWith p (c :: s) || includes p s.
Proof. reflexivity. Qed.

Lemma includes_here p s : startsWith p s = true -> includes p s = true.
Proof.
  intro H. destruct s; [rewrite includes_nil | rewrite includes_cons]; rewrite H; reflexivity.
Qed.

Lemma includes_later p c s : includes p s = true -> includes p (c :: s) = true.
Proof. intro H. rewrite includes_cons, H. apply orb_true_r. Qed.

Lemma includes_after p l s : includes p s = true -> includes p (l ++ s) = true.
Proof.
  intro H. induction l as [|c l IH]; [exact H|]. apply includes_later, IH.
Qed.

Lemma includes_infix p l r : includes p (l ++ p ++ r) = true.
Proof. apply includes_after, includes_here, startsWith_app. Qed.

Lemma includes_split p s : includes p s = true -> exists l r, s = l ++ p ++ r.
Proof.
  induction s as [|c s IH]; intro H.
  - rewrite includes_nil in H.
    destruct (startsWith_prefix p [] H) as (r & E). exists [], r. exact E.
  - rewrite includes_cons in H. apply orb_prop in H. destruct H as [H | H].
    + destruct (startsWith_prefix p _ H) as (r & E). exists [], r. exact E.
    + destruct (IH H) as (l & r & ->). exists (c :: l), r. reflexivity.
Qed.

Lemma includes_trans a b s :
  includes a b = true -> includes b s = true -> includes a s = true.
Proof.
  intros Hab Hbs.
  destruct (includes_split a b Hab) as (l1 & r1 & ->).
  destruct (includes_split _ s Hbs) as (l2 & r2 & ->).
  rewrite <- !app_assoc. rewrite app_assoc. apply includes_infix.
Qed.

Lemma includes_i_trans a b s :
  includes_i a b = true -> includes_i b s = true -> includes_i a s = true.
Proof. unfold includes_i. apply includes_trans. Qed.

Lemma phone_in_headphone :
  includes_i (js "phone") (js "headphone") = true
  /\ includes_i (js "phone") (js "earphone") = true
  /\ includes (js "phone") (js "headphone") = true
  /\ includes (js "phone") (js "earphone") = true
  /\ includes (js "hi") (js "which is") = true.
Proof. vm_compute. repeat split. Qed.

(** X19: a query that names headphones or earphones is classified as a
    smartphone: the alternative [phone] of the first test matches inside
    both words, so the audio branch is reached only through [speaker] or
    [audio]. *)
Theorem generateDynamicCategories_headphone_is_smartphone (query : jsstring) :
  regex_test_i ["headphone"; "earphone"] query = true ->
  generateDynamicCategories query
  = [cat "Electronics" 0.95 "Smartphones"; cat "Mobile Devices" 0.88 "Communication"].
Proof.
  intro H. destruct phone_in_headphone as (P1 & P2 & _).
  assert (Hp : includes_i (js "phone") query = true).
  { cbn [regex_test_i existsb] in H. rewrite orb_false_r in H.
    apply orb_prop in H. destruct H as [H | H];
      [exact (includes_i_trans _ _ _ P1 H) | exact (includes_i_trans _ _ _ P2 H)]. }
  unfold generateDynamicCategories. cbn [regex_test_i existsb]. rewrite Hp. reflexivity.
Qed.

Lemma generateDynamicCategories_headphone_is_smartphone_witness :
  regex_test_i ["headphone"; "earphone"] (js "Wireless Headphones") = true
  /\ generateDynamicCategories (js "Wireless Headphones")
     = [cat "Electronics" 0.95 "Smartphones"; cat "Mobile Devices" 0.88 "Communication"].
Proof.
  assert (H : regex_test_i ["headphone"; "earphone"] (js "Wireless Headphones") = true)
    by (vm_compute; reflexivity).
  split; [exact H|].
  apply (generateDynamicCategories_headphone_is_smartphone (js "Wireless Headphones") H).
Defined.

(** X20: in the conversational replies, a question that holds [which is]
    gets a greeting, because [hi] of the first keyword list occurs in it,
    so that keyword of the comparison list never selects a comparison;
    and a question about headphones or earphones gets a greeting or a
    phone reply, never an audio one. *)
Theorem generateMockResponse_shadowed_keywords (w : World) (prompt : jsstring)
  (st : State) :
  let lowerQuestion := toLowerCase w (extractUserQuestion prompt) in
  (includes (js "which is") lowerQuestion = true ->
   exists text,
     generateMockResponse w prompt st = (Ok text, withRandomDrawn st)
     /\ In text greetings)
  /\ (includes_any ["headphone"; "earphone"] lowerQuestion = true ->
      exists text,
        generateMockResponse w prompt st = (Ok text, withRandomDrawn st)
        /\ In text (greetings ++ phoneResponses)).
Proof.
  intro lowerQuestion. destruct phone_in_headphone as (_ & _ & P1 & P2 & P3). split.
  - intro H.
    assert (Hhi : includes (js "hi") lowerQuestion = true)
      by exact (includes_trans _ _ _ P3 H).
    unfold generateMockResponse. fold lowerQuestion.
    cbn [includes_any existsb]. rewrite Hhi. rewrite orb_true_r. cbn [orb].
    destruct (choose_In w greetings [] st) as (a & E & Hin);
      [unfold greetings; discriminate|].
    exists a. split; assumption.
  - intro H.
    assert (Hp : includes (js "phone") lowerQuestion = true).
    { cbn [includes_any existsb] in H. rewrite orb_false_r in H.
      apply orb_prop in H. destruct H as [H | H];
        [exact (includes_trans _ _ _ P1 H) | exact (includes_trans _ _ _ P2 H)]. }
    unfold generateMockResponse. fold lowerQuestion.
    destruct (includes_any ["hello"; "hi"; "hey"; "start"; "begin"] lowerQuestion).
    + destruct (choose_In w greetings [] st) as (a & E & Hin);
        [unfold greetings; discriminate|].
      exists a. split; [exact E | apply in_or_app; left; exact Hin].
    + cbn [includes_any existsb]. rewrite Hp. cbn [orb].
      destruct (choose_In w phoneResponses [] st) as (a & E & Hin);
        [unfold phoneResponses; discriminate|].
      exists a. split; [exact E | apply in_or_app; right; exact Hin].
Qed.

Lemma generateMockResponse_shadowed_keywords_witness :
  let w := Scenario.production in
  let prompt := js "Which is better, a tablet or a laptop?" in
  includes (js "which is") (toLowerCase w (extractUserQuestion prompt)) = true
  /\ exists text,
      generateMockResponse w prompt (construct w)
      = (Ok text, withRandomDrawn (construct w))
      /\ In text greetings.
Proof.
  intros w prompt.
  assert (H : includes (js "which is") (toLowerCase w (extractUserQuestion prompt)) = true)
    by (vm_compute; reflexivity).
  split; [exact H|].
  pose proof (generateMockResponse_shadowed_keywords w prompt (construct w)) as T.
  cbv zeta in T. destruct T as [T _]. exact (T H).
Defined.

(* ================================================================= *)
(** ** Prompts and the texts read back from them *)

Lemma enhancePrompt_shape query :
  enhancePrompt query
  = promptIndent ++ promptLabel ++ [32%N; quote] ++ query
      ++ quote :: skipn 38 (enhancePrompt []).
Proof.
  unfold enhancePrompt.
  match goal with
  | |- ?P ++ query ++ ?S = _ =>
      assert (HP : P = promptIndent ++ promptLabel ++ [32%N; quote])
        by (vm_compute; reflexivity);
      assert (HS : S = quote :: skipn 38 (P ++ [] ++ S))
        by (vm_compute; reflexivity);
      rewrite <- HS; rewrite HP
  end.
  rewrite <- !app_assoc. reflexivity.
Qed.

Lemma leftmost_here {A} (f : jsstring -> option A) s x :
  f s = Some x -> leftmost f s = Some x.
Proof. intro H. destruct s; simpl; rewrite H; reflexivity. Qed.

Lemma unquoted_run_quote_free q rest :
  quoteFree q -> unquoted_run (q ++ quote :: rest) = (q, quote :: rest).
Proof.
  induction q as [|c q IH]; intro H.
  - cbn [app unquoted_run]. rewrite unit_eqb_refl. reflexivity.
  - cbn [app unquoted_run]. rewrite unit_eqb_neq by (intro E; apply H; left; exact E).
    rewrite IH by (intro E; apply H; right; exact E). reflexivity.
Qed.

Lemma match_quoted_capture q rest :
  q <> [] -> quoteFree q ->
  match_quoted (quote :: q ++ quote :: rest) = Some q.
Proof.
  intros Hne Hq. unfold match_quoted. rewrite unit_eqb_refl.
  rewrite (unquoted_run_quote_free q rest Hq).
  destruct q as [|c q]; [contradiction|]. rewrite unit_eqb_refl. reflexivity.
Qed.

Lemma promptLabel_head : exists t, promptLabel = 65%N :: t.
Proof. eexists. vm_compute. reflexivity. Qed.

Lemma skipn_label (lit rest : jsstring) : skipn (List.length lit) (lit ++ rest) = rest.
Proof. induction lit as [|c lit IH]; [reflexivity | exact IH]. Qed.

Lemma extractQueryFromPrompt_capture run tail :
  run <> [] -> quoteFree run ->
  extractQueryFromPrompt
    (promptIndent ++ promptLabel ++ [32%N; quote] ++ run ++ quote :: tail)
  = run.
Proof.
  intros Hne Hq. unfold extractQueryFromPrompt. fold promptLabel.
  rewrite leftmost_skip.
  - rewrite (leftmost_here _ _ run); [reflexivity|].
    unfold match_labelled. rewrite startsWith_app, skipn_label.
    change (trimStart ([32%N; quote] ++ run ++ quote :: tail))
      with (quote :: run ++ quote :: tail).
    apply match_quoted_capture; assumption.
  - intros c rest Hc. unfold match_labelled.
    destruct promptLabel_head as (t & ->).
    assert (Hc' : c = 10%N \/ c = 32%N).
    { unfold promptIndent in Hc. simpl in Hc. intuition. }
    assert (E : unit_eqb 65%N c = false) by (destruct Hc' as [-> | ->]; reflexivity).
    cbn [startsWith]. rewrite E. reflexivity.
Qed.

Lemma isStructuredPrompt_enhancePrompt query :
  isStructuredPrompt (enhancePrompt query) = true.
Proof.
  unfold isStructuredPrompt. rewrite enhancePrompt_shape.
  assert (H : includes (js_q "'enhancedQuery'") (skipn 38 (enhancePrompt [])) = true)
    by (vm_compute; reflexivity).
  rewrite !app_assoc. rewrite (includes_after _ _ (quote :: _)).
  - reflexivity.
  - apply includes_later, H.
Qed.

Lemma quoteFree_check s :
  forallb (fun c => negb (unit_eqb c quote)) s = true -> quoteFree s.
Proof.
  intros H X. rewrite forallb_forall in H. apply H in X.
  rewrite unit_eqb_refl in X. discriminate X.
Qed.

Lemma leftmost_none_app {A} (f : jsstring -> option A) p s :
  (forall a b, p = a ++ b -> f (b ++ s) = None) ->
  leftmost f s = None -> leftmost f (p ++ s) = None.
Proof.
  intros H Hs. induction p as [|c p IH]; [exact Hs|].
  pose proof (H [] (c :: p) eq_refl) as E0. cbn [app] in E0.
  cbn [app leftmost]. rewrite E0.
  apply IH. intros a b E. apply (H (c :: a) b). rewrite E. reflexivity.
Qed.

(** A literal without a double quote that starts a text starts the part
    of the text in front of its first double quote. *)
Lemma startsWith_before_quote lit b rest :
  quoteFree lit -> startsWith lit (b ++ quote :: rest) = true -> startsWith lit b = true.
Proof.
  revert b. induction lit as [|x lit IH]; intros b Hq H; [destruct b; reflexivity|].
  destruct b as [|y b].
  - cbn [app startsWith] in H. apply andb_prop in H. destruct H as [H _].
    apply unit_eqb_eq in H. exfalso. apply Hq. left. exact H.
  - cbn [app startsWith] in H |- *. apply andb_prop in H. destruct H as [H1 H2].
    rewrite H1. apply IH; [|exact H2]. intro X. apply Hq. right. exact X.
Qed.

Lemma unquoted_run_fst_quote_free s : quoteFree (fst (unquoted_run s)).
Proof.
  induction s as [|c s IH]; [intros []|]. cbn [unquoted_run].
  destruct (unit_eqb c quote) eqn:E; [intros []|].
  destruct (unquoted_run s) as [run rest]. cbn [fst] in *.
  intros [X|X]; [|exact (IH X)]. subst c. rewrite unit_eqb_refl in E. discriminate E.
Qed.

(** A text is its run without double quotes, then nothing or a double
    quote and the rest. *)
Lemma unquoted_run_split s :
  s = fst (unquoted_run s)
  \/ exists rest, s = fst (unquoted_run s) ++ quote :: rest.
Proof.
  induction s as [|c s IH]; [left; reflexivity|]. cbn [unquoted_run].
  destruct (unit_eqb c quote) eqn:E.
  - right. exists s. apply unit_eqb_eq in E. subst c. reflexivity.
  - destruct (unquoted_run s) as [run rest]. cbn [fst] in *.
    destruct IH as [IH | (r & IH)]; [left | right; exists r]; rewrite IH at 1; reflexivity.
Qed.

Lemma unquoted_run_of_quote_free s : quoteFree s -> fst (unquoted_run s) = s.
Proof.
  intro H. destruct (unquoted_run_split s) as [E | (rest & E)]; [symmetry; exact E|].
  exfalso. apply H. rewrite E. apply in_or_app. right. left. reflexivity.
Qed.

Lemma promptLabel_quote_free : quoteFree promptLabel.
Proof. apply quoteFree_check. vm_compute. reflexivity. Qed.

(** In the prompt of a query that is empty or begins with a double quote,
    and in which the label does not occur, the pattern matches nowhere. *)
Lemma extractQueryFromPrompt_general query :
  fst (unquoted_run query) = [] -> includes promptLabel query = false ->
  extractQueryFromPrompt (enhancePrompt query) = js "general product".
Proof.
  intros Hrun Hin. rewrite enhancePrompt_shape.
  unfold extractQueryFromPrompt. fold promptLabel.
  set (f := match_labelled false promptLabel).
  set (tail := skipn 38 (enhancePrompt [])).
  assert (Hhead : forall c rest, c <> 65%N -> f (c :: rest) = None).
  { intros c rest Hc. unfold f, match_labelled.
    destruct promptLabel_head as (t & ->). cbn [startsWith].
    rewrite unit_eqb_neq by (intro X; apply Hc; symmetry; exact X). reflexivity. }
  assert (L : leftmost f (promptIndent ++ promptLabel ++ [32%N; quote] ++ query ++ quote :: tail)
              = None); [|rewrite L; reflexivity].
  rewrite leftmost_skip.
  2:{ intros c rest Hc. apply Hhead. unfold promptIndent in Hc. simpl in Hc.
      intro X. subst c. intuition discriminate. }
  assert (Hlabel : f (promptLabel ++ [32%N; quote] ++ query ++ quote :: tail) = None).
  { unfold f, match_labelled. rewrite startsWith_app, skipn_label.
    change (trimStart ([32%N; quote] ++ query ++ quote :: tail))
      with (quote :: query ++ quote :: tail).
    unfold match_quoted. rewrite unit_eqb_refl.
    destruct (unquoted_run_split query) as [E | (rest & E)]; rewrite Hrun in E.
    - rewrite E. cbn [app unquoted_run]. rewrite unit_eqb_refl. reflexivity.
    - rewrite E. cbn [app unquoted_run]. rewrite unit_eqb_refl. reflexivity. }
  destruct promptLabel_head as (ltail & El).
  assert (Hltail : forallb (fun c => negb (c =? 65)%N) (ltail ++ [32%N; quote]) = true).
  { assert (X : ltail = tl promptLabel) by (rewrite El; reflexivity).
    rewrite X. vm_compute. reflexivity. }
  rewrite El in Hlabel |- *. cbn [app leftmost]. cbn [app] in Hlabel. rewrite Hlabel.
  change (ltail ++ 32%N :: quote :: query ++ quote :: tail)
    with (ltail ++ [32%N; quote] ++ query ++ quote :: tail).
  rewrite app_assoc. rewrite leftmost_skip.
  2:{ intros c rest Hc. apply Hhead. rewrite forallb_forall in Hltail.
      apply Hltail in Hc. intro X. subst c. discriminate Hc. }
  apply leftmost_none_app.
  - intros a b E. unfold f, match_labelled.
    destruct (startsWith promptLabel (b ++ quote :: tail)) eqn:S; [|reflexivity].
    exfalso. apply startsWith_before_quote in S; [|exact promptLabel_quote_free].
    rewrite E, (includes_after _ a b (includes_here _ _ S)) in Hin. discriminate Hin.
  - unfold f, tail. vm_compute. reflexivity.
Qed.

(** X21: what [makeApiRequest] reads back from the prompt of
    [enhanceSearchQuery]. It is the part of the query in front of its
    first double quote, the whole query if it has none, when that part is
    not empty. When it is empty, the query being empty or beginning with a
    double quote, it is the default, general product, unless the label of
    the prompt occurs in the query itself. The prompt is recognised as a
    structured one whatever the query is, so in mock mode and in
    production the request made with it returns the structured mock for
    what was read back. *)
Theorem enhancePrompt_round_trip (w : World) (query : jsstring) (st : State) :
  let read := extractQueryFromPrompt (enhancePrompt query) in
  let run := fst (unquoted_run query) in
  (quoteFree query -> run = query)
  /\ (forall q rest, query = q ++ quote :: rest -> quoteFree q -> run = q)
  /\ (run <> [] -> read = run)
  /\ (run = [] -> includes promptLabel query = false -> read = js "general product")
  /\ isStructuredPrompt (enhancePrompt query) = true
  /\ (PROD w || useMockData st = true ->
      makeApiRequest w (enhancePrompt query) st
      = (r <- generateMockSmartSearchResult w read ;; ret (Structured r)) st).
Proof.
  cbv zeta. split; [exact (unquoted_run_of_quote_free query)|].
  split; [intros q rest -> Hq; rewrite (unquoted_run_quote_free q rest Hq); reflexivity|].
  split; [|split; [exact (extractQueryFromPrompt_general query)|]].
  - intro Hne. rewrite enhancePrompt_shape.
    assert (Hq := unquoted_run_fst_quote_free query).
    destruct (unquoted_run_split query) as [E | (rest & E)];
      remember (fst (unquoted_run query)) as run eqn:R; clear R; subst query.
    + apply extractQueryFromPrompt_capture; assumption.
    + rewrite <- app_assoc. apply extractQueryFromPrompt_capture; assumption.
  - split; [apply isStructuredPrompt_enhancePrompt|].
    intro Hmock.
    assert (Hm : makeApiRequest w (enhancePrompt query) st
                 = mockFor w (enhancePrompt query) st).
    { unfold makeApiRequest. destruct (PROD w); [reflexivity|].
      cbn [orb] in Hmock. unfold bind at 1, get_useMockData. rewrite Hmock. reflexivity. }
    rewrite Hm. unfold mockFor. rewrite isStructuredPrompt_enhancePrompt. reflexivity.
Qed.

Lemma enhancePrompt_round_trip_witness :
  extractQueryFromPrompt (enhancePrompt (js "iphone 15")) = js "iphone 15"
  /\ extractQueryFromPrompt (enhancePrompt (js_q "iphone 15 'pro' case"))
     = js "iphone 15 "
  /\ extractQueryFromPrompt (enhancePrompt []) = js "general product"
  /\ extractQueryFromPrompt (enhancePrompt (js_q "'pro' case")) = js "general product".
Proof.
  pose proof (enhancePrompt_round_trip Scenario.production (js "iphone 15")
                (construct Scenario.production)) as H1.
  pose proof (enhancePrompt_round_trip Scenario.production (js_q "iphone 15 'pro' case")
                (construct Scenario.production)) as H2.
  pose proof (enhancePrompt_round_trip Scenario.production []
                (construct Scenario.production)) as H3.
  pose proof (enhancePrompt_round_trip Scenario.production (js_q "'pro' case")
                (construct Scenario.production)) as H4.
  cbv zeta in H1, H2, H3, H4.
  destruct H1 as (_ & _ & H1 & _). destruct H2 as (_ & _ & H2 & _).
  destruct H3 as (_ & _ & _ & H3 & _). destruct H4 as (_ & _ & _ & H4 & _).
  split; [|split; [|split]].
  - rewrite H1; [vm_compute; reflexivity | vm_compute; discriminate].
  - rewrite H2; [vm_compute; reflexivity | vm_compute; discriminate].
  - apply H3; vm_compute; reflexivity.
  - apply H4; vm_compute; reflexivity.
Defined.

Lemma match_quoted_needs_quote s q : match_quoted s = Some q -> In quote s.
Proof.
  destruct s as [|c s]; [discriminate|]. unfold match_quoted.
  destruct (unit_eqb c quote) eqn:E; [|discriminate].
  intros _. left. apply unit_eqb_eq in E. exact E.
Qed.

Lemma trimStart_incl s : incl (trimStart s) s.
Proof.
  induction s as [|c s IH]; [apply incl_refl|]. simpl.
  destruct (isWhiteSpace c); [apply incl_tl, IH | apply incl_refl].
Qed.

Lemma match_labelled_needs_quote ignoreCase lit s q :
  match_labelled ignoreCase lit s = Some q -> In quote s.
Proof.
  unfold match_labelled. destruct (if ignoreCase then _ else _); [|discriminate].
  intro H. apply match_quoted_needs_quote in H.
  apply trimStart_incl in H. revert H. apply incl_skipn.
Qed.

Lemma first_some_needs_quote (lits : list string) s q :
  first_some (fun lit => match_labelled true (js lit) s) lits = Some q -> In quote s.
Proof.
  induction lits as [|lit lits IH]; [discriminate|]. cbn [first_some].
  destruct (match_labelled true (js lit) s) eqn:E.
  - intros _. exact (match_labelled_needs_quote _ _ _ _ E).
  - exact IH.
Qed.

Lemma leftmost_none {A} (f : jsstring -> option A) s :
  (forall t x, f t = Some x -> In quote t) -> quoteFree s -> leftmost f s = None.
Proof.
  intros Hf. induction s as [|c s IH]; intro Hq.
  - simpl. destruct (f []) eqn:E; [|reflexivity]. destruct (Hf _ _ E).
  - simpl. destruct (f (c :: s)) eqn:E; [exfalso; exact (Hq (Hf _ _ E))|].
    apply IH. intro H. apply Hq. right. exact H.
Qed.

(** X22: from a prompt without any double quote [extractUserQuestion]
    extracts nothing: the whole prompt is taken as the question, and the
    reply is chosen by the keywords of the whole prompt. *)
Theorem extractUserQuestion_without_quotes (prompt : jsstring) :
  quoteFree prompt -> extractUserQuestion prompt = prompt.
Proof.
  intro Hq. unfold extractUserQuestion.
  rewrite leftmost_none; [|intros t x; apply first_some_needs_quote | exact Hq].
  rewrite leftmost_none; [reflexivity | exact match_quoted_needs_quote | exact Hq].
Qed.

Lemma extractUserQuestion_without_quotes_witness :
  quoteFree (js "User asked: best phone under 20000")
  /\ extractUserQuestion (js "User asked: best phone under 20000")
     = js "User asked: best phone under 20000".
Proof.
  assert (Hq : quoteFree (js "User asked: best phone under 20000"))
    by (apply quoteFree_check; vm_compute; reflexivity).
  split; [exact Hq|].
  apply (extractUserQuestion_without_quotes (js "User asked: best phone under 20000") Hq).
Defined.

(* ================================================================= *)
(** ** Mock synthesis *)

Lemma priceRangeOf_bounds query :
  priceRangeOf query
  = or_default (nth_error (split (js " - ") (priceRangeOf query)) 0) (js "₹60,000")
      ++ js " - "
      ++ or_default (nth_error (split (js " - ") (priceRangeOf query)) 1) (js "₹1,20,000").
Proof.
  unfold priceRangeOf.
  destruct (isApple query && isExpensive query); [vm_compute; reflexivity|].
  destruct (isElectronics query && isExpensive query); [vm_compute; reflexivity|].
  destruct (isElectronics query); [vm_compute; reflexivity|].
  destruct (isClothing query); [vm_compute; reflexivity|].
  destruct (isHome query); [vm_compute; reflexivity|].
  destruct (isBook query); vm_compute; reflexivity.
Qed.

Lemma firstCategory_defined query :
  exists c,
    nth_error (generateDynamicCategories query) 0 = Some c
    /\ or_default (option_map ProductCategory.category
                     (nth_error (generateDynamicCategories query) 0))
         (js "Electronics")
       = ProductCategory.category c.
Proof.
  unfold generateDynamicCategories.
  repeat match goal with
         | |- context [if regex_test_i ?l query then _ else _] =>
             destruct (regex_test_i l query)
         end;
    (eexists; split; [reflexivity | vm_compute; reflexivity]).
Qed.

(** X23: the structured mock of any query recommends two products, the
    query with Pro Max and the query with Lite; their estimated prices
    are the upper and the lower bound of the price range of the market
    analysis, and their category is that of the first category of the
    result: the defaults written in the code are never used. *)
Theorem generateMockSmartSearchResult_recommendations (w : World) (query : jsstring)
  (st : State) :
  exists r st' pro lite first,
    generateMockSmartSearchResult w query st = (Ok r, st')
    /\ SmartSearchResult.recommendations r = [pro; lite]
    /\ ProductRecommendation.productName pro = query ++ js " Pro Max"
    /\ ProductRecommendation.productName lite = query ++ js " Lite"
    /\ MarketAnalysis.priceRange (SmartSearchResult.marketAnalysis r)
       = ProductRecommendation.estimatedPrice lite ++ js " - "
           ++ ProductRecommendation.estimatedPrice pro
    /\ nth_error (SmartSearchResult.categories r) 0 = Some first
    /\ ProductRecommendation.category pro = ProductCategory.category first
    /\ ProductRecommendation.category lite = ProductCategory.category first.
Proof.
  destruct (generateDynamicMarketAnalysis_returns w query st) as (trend & st' & E & _).
  destruct (firstCategory_defined query) as (first & Hn & Hc).
  unfold generateMockSmartSearchResult.
  rewrite (bind_Ok _ _ _ _ _ E). cbn [MarketAnalysis.priceRange].
  do 5 eexists. split; [reflexivity|].
  cbn [SmartSearchResult.recommendations SmartSearchResult.marketAnalysis
       SmartSearchResult.categories ProductRecommendation.productName
       ProductRecommendation.estimatedPrice ProductRecommendation.category
       MarketAnalysis.priceRange].
  split; [reflexivity|]. split; [reflexivity|]. split; [reflexivity|].
  split; [apply priceRangeOf_bounds|].
  split; [exact Hn|]. split; exact Hc.
Qed.

Lemma priceRangeOf_general : priceRangeOf (js "general product") = js "₹1,000 - ₹25,000".
Proof. vm_compute. reflexivity. Qed.

(** X24: in mock mode, and in every production build, three facade
    operations do not look at their arguments: [categorizeProducts]
    returns the two fixed categories and [getPersonalizedRecommendations]
    the three fixed products, leaving the state alone, and
    [analyzeMarketTrends] returns the analysis of a general product, in
    the default price range, whatever the query. *)
Theorem mock_mode_ignores_arguments (w : World) (st : State) :
  PROD w || useMockData st = true ->
  (forall products,
      categorizeProducts w products st = (Ok (Typed generateMockCategories), st))
  /\ (forall userQuery searchHistory,
        getPersonalizedRecommendations w userQuery searchHistory st
        = (Ok (Typed generateMockRecommendations), st))
  /\ (forall query products,
        exists t st',
          analyzeMarketTrends w query products st = (Ok (Typed t), st')
          /\ generateDynamicMarketAnalysis w (js "general product") st = (Ok t, st')
          /\ MarketAnalysis.priceRange t = js "₹1,000 - ₹25,000").
Proof.
  intro Hmock. split; [|split].
  - intro products. unfold categorizeProducts, try_catch.
    unfold bind at 1. unfold get_useMockData. rewrite Hmock. reflexivity.
  - intros userQuery searchHistory. unfold getPersonalizedRecommendations, try_catch.
    unfold bind at 1. unfold get_useMockData. rewrite Hmock. reflexivity.
  - intros query products.
    destruct (generateDynamicMarketAnalysis_returns w (js "general product") st)
      as (trend & st' & E & _).
    do 2 eexists. split; [|split; [exact E|]].
    + unfold analyzeMarketTrends, try_catch.
      unfold bind at 1. unfold get_useMockData. rewrite Hmock.
      unfold generateMockMarketAnalysis. rewrite (bind_Ok _ _ _ _ _ E). reflexivity.
    + cbn [MarketAnalysis.priceRange]. apply priceRangeOf_general.
Qed.

Lemma mock_mode_ignores_arguments_witness :
  let w := Scenario.production in
  PROD w || useMockData (construct w) = true
  /\ categorizeProducts w
       [mkProduct (JString (js "iPhone 15")) (JNumber 79900 0)] (construct w)
     = (Ok (Typed generateMockCategories), construct w)
  /\ exists t st',
      analyzeMarketTrends w (js "iphone 15 pro max") [] (construct w)
      = (Ok (Typed t), st')
      /\ MarketAnalysis.priceRange t = js "₹1,000 - ₹25,000".
Proof.
  intro w.
  assert (H : PROD w || useMockData (construct w) = true) by reflexivity.
  split; [exact H|].
  destruct (mock_mode_ignores_arguments w (construct w) H) as (C & _ & A).
  split; [apply C|].
  destruct (A (js "iphone 15 pro max") []) as (t & st' & E & _ & P).
  exists t, st'. split; assumption.
Defined.
